(** * nut.js: the screen class (src/lib/screen.class.ts)

    A shallow embedding of [ScreenClass]: search-region validation, the
    [find] / [findAll] orchestration, the hook registry, [highlight] and
    the capture facade, together with the properties the specification
    states about them.

    JavaScript numbers are IEEE 754 binary64 values and are modelled by
    Rocq's primitive floats, so that [NaN] and the comparison semantics of
    [<] and [>] are the ones the code runs with.

    Asynchronous methods are modelled sequentially: a method is a function
    from the state (the instance and the outside world) to the outcome of
    its promise, the new state and the list of provider calls, hook calls
    and log lines it performed, in order.  Providers act on the outside
    world only; a hook may also change the instance.  Nothing else runs
    between two steps of a method.  The log provider records its lines and
    never throws. *)

From Stdlib Require Import Floats.PrimFloat.
From Stdlib Require Import Strings.Ascii.
From stdpp Require Import gmap list strings.

Open Scope string_scope.
Open Scope list_scope.

Set Warnings "-inexact-float".

(** ** Values *)

Definition number := float.

(** [a < b] and [a > b] on JavaScript numbers; both are false when either
    side is [NaN]. *)
Definition lt (a b : number) : bool := PrimFloat.ltb a b.
Definition gt (a b : number) : bool := PrimFloat.ltb b a.
Definition isNaN (a : number) : bool := PrimFloat.is_nan a.
Definition plus (a b : number) : number := PrimFloat.add a b.

(** Modelled from the spec: region.class is not among the sources.  A
    Region is an immutable value [{left, top, width, height}]. *)
Record Region := mkRegion {
  left : number;
  top : number;
  width : number;
  height : number
}.

(** Modelled from the spec: image.class is not among the sources.  An
    Image is [{width, height, pixelData, channels, pixelDensity}], with the
    [id] that names it in messages. *)
Record Image := mkImage {
  image_width : number;
  image_height : number;
  pixelData : list Byte.byte;
  channels : number;
  image_id : string;
  scaleX : number;
  scaleY : number
}.

(** Modelled from the spec: query.class is not among the sources.  A text
    query asks for a line or for a word, a window query for a window; each
    has an [id]. *)
Inductive TextQuery :=
| LineQuery (query_id : string) (line : string)
| WordQuery (query_id : string) (word : string).

Record WindowQuery := mkWindowQuery {
  window_query_id : string;
  title : string
}.

(** A JavaScript object is known by its reference.  [Map] compares object
    keys by reference, so the reference is the key of the hook registry. *)
Definition ObjRef := positive.

Inductive Needle :=
| ImageNeedle (image : Image)
| TextNeedle (query : TextQuery)
| WindowNeedle (query : WindowQuery).

(** [FindInput = Image | WordQuery | LineQuery | WindowQuery]: the object
    (its reference) and its field values. *)
Record FindInput := mkFindInput {
  ref : ObjRef;
  value : Needle
}.

(** Whatever can be thrown or be the reason of a rejected promise: an
    [Error] object, or any other value, given by its string conversion. *)
Inductive Thrown :=
| ErrorObject (message : string)
| Reason (text : string).

(** [`${e}`]: [Error.prototype.toString] prints the name alone when the
    message is empty. *)
Definition toString (e : Thrown) : string :=
  match e with
  | ErrorObject "" => "Error"
  | ErrorObject m => "Error: " +:+ m
  | Reason s => s
  end.

(** A value handed to a runtime type guard ([isImage], [isTextQuery],
    [isWindowQuery], [isRegion]; none of them is among the sources) and,
    when the guard turns it down, to [JSON.stringify] for the error
    message.  Either the value passes the guard for [A]; or the guard
    returns [false] and [JSON.stringify] gives a text; or the guard or
    [JSON.stringify] throws on it (as on [null], a circular object, an
    object with a throwing getter). *)
Inductive Dyn (A : Type) :=
| Is (a : A)
| IsNot (json : string)
| Throws (e : Thrown).
Arguments Is {A} a.
Arguments IsNot {A} json.
Arguments Throws {A} e.

(** The type guards of image.class and query.class. *)
Definition isImage (n : FindInput) : bool :=
  match value n with ImageNeedle _ => true | _ => false end.
Definition isTextQuery (n : FindInput) : bool :=
  match value n with TextNeedle _ => true | _ => false end.
Definition isWindowQuery (n : FindInput) : bool :=
  match value n with WindowNeedle _ => true | _ => false end.

(** [needle.id] *)
Definition needle_id (n : FindInput) : string :=
  match value n with
  | ImageNeedle i => image_id i
  | TextNeedle (LineQuery i _) => i
  | TextNeedle (WordQuery i _) => i
  | WindowNeedle q => window_query_id q
  end.

(** The settled state of a promise. *)
Inductive Outcome (A : Type) :=
| Resolved (a : A)
| Rejected (e : Thrown).
Arguments Resolved {A} a.
Arguments Rejected {A} e.

(** An argument of type [T | Promise<T>]. *)
Inductive Awaitable (A : Type) :=
| Direct (a : A)
| Pending (p : Outcome A).
Arguments Direct {A} a.
Arguments Pending {A} p.

(** Modelled from the spec: match-result.class is not among the sources.
    A MatchResult is [{confidence, location}], with [location] relative to
    the haystack image. *)
Record MatchResult := mkMatchResult {
  confidence : number;
  location : Region
}.

(** Modelled from the spec: match-request.class is not among the sources.
    A MatchRequest is [{haystack, needle, confidence,
    searchMultipleScales}]. *)
Record MatchRequest := mkMatchRequest {
  haystack : Dyn Image;
  needle : FindInput;
  request_confidence : number;
  searchMultipleScales : bool
}.

(** Modelled from the spec: optionalsearchparameters.class is not among
    the sources.  The parameters are [{confidence?, searchRegion?,
    searchMultipleScales?}] (and [abort?], which only [waitFor] reads); an
    absent field is [undefined]. *)
Record OptionalSearchParameters := mkParams {
  params_confidence : option number;
  params_searchRegion : option (Awaitable Region);
  params_searchMultipleScales : option bool
}.

(** Modelled from the spec: window.class is not among the sources.  A
    Window wraps the handle the window finder returned. *)
Record Window := mkWindow { windowHandle : number }.

Inductive FindResult :=
| RegionResult (r : Region)
| WindowResult (w : Window).

(** A hook is a function object, known by its reference; what it does when
    called belongs to the environment. *)
Definition FindHookCallback := positive.

Inductive Target :=
| WindowTarget (w : Window)
| MatchTarget (m : MatchResult).

(** Modelled from the spec: file-type.enum is not among the sources. *)
Inductive FileType := PNG | JPG.

(** ** The instance *)

Record ScreenConfig := mkConfig {
  config_confidence : number;
  autoHighlight : bool;
  highlightDurationMs : number;
  highlightOpacity : number;
  resourceDirectory : string
}.

Record ScreenClass := mkScreen {
  config : ScreenConfig;
  findHooks : gmap ObjRef (list FindHookCallback)
}.

(** ** What a run leaves behind *)

Inductive LogLevel := Debug | Info.

Inductive LogMessage :=
| HooksTriggeredForMatch (hooks : nat)
| HooksTriggeredForMatches (hooks matches : nat)
| ExecutingHook
| SearchRegionIsValid
| FoundMatch (m : MatchResult)
| MatchIsLocatedAt (r : Region)
| AutohighlightIsEnabled
| Highlighting (r : Region) (seconds percent : number)
| RegisteredCallback (id : string) (count : nat)
| CapturingWholeScreen (w h : number)
| CapturingScreenRegion (r : Region)
| WritingImageTo (path : string)
| FileWritten
| RunningOnScreenSearch (minMatch : number) (screenSize searchRegion : Region).

Inductive Event :=
| Log (level : LogLevel) (msg : LogMessage)
| ScreenSize (out : Outcome Region)
| GrabScreen (out : Outcome (Dyn Image))
| GrabScreenRegion (r : Region) (out : Outcome (Dyn Image))
| HighlightScreenRegion (r : Region) (durationMs opacity : number)
    (out : Outcome unit)
| FindMatch (req : MatchRequest) (out : Outcome MatchResult)
| FindMatches (req : MatchRequest) (out : Outcome (list MatchResult))
| WindowFindMatch (q : FindInput) (out : Outcome number)
| WindowFindMatches (q : FindInput) (out : Outcome (list number))
| Store (img : Image) (path : string) (out : Outcome unit)
| HookCall (hook : FindHookCallback) (target : Target) (out : Outcome unit)
| Detached (r : Region).

(** ** The environment

    Everything the class reaches through [providerRegistry], the hooks the
    caller registered, and the helpers of other modules.  A provider call
    is a function of the outside world [World] (the screen content, the
    providers' own state) that settles a promise and leaves a new world.
    A hook may in addition touch the instance: [config] is public. *)

Record State (World : Type) := mkState {
  this : ScreenClass;
  world : World
}.
Arguments mkState {World} this world.
Arguments this {World} s.
Arguments world {World} s.

Record Environment (World : Type) := mkEnv {
  (* getScreen() *)
  screen_screenSize : World -> Outcome Region * World;
  screen_grabScreen : World -> Outcome (Dyn Image) * World;
  screen_grabScreenRegion : Region -> World -> Outcome (Dyn Image) * World;
  screen_highlightScreenRegion :
    Region -> number -> number -> World -> Outcome unit * World;
  (* the finder for the request's needle kind *)
  finder_findMatch : MatchRequest -> World -> Outcome MatchResult * World;
  finder_findMatches : MatchRequest -> World -> Outcome (list MatchResult) * World;
  (* getWindowFinder() *)
  windowFinder_findMatch : FindInput -> World -> Outcome number * World;
  windowFinder_findMatches : FindInput -> World -> Outcome (list number) * World;
  (* getImageWriter() *)
  imageWriter_store : Image -> string -> World -> Outcome unit * World;
  (* calling a registered hook *)
  hook_call : FindHookCallback -> Target -> State World -> Outcome unit * State World;
  (* createMatchRequest (match-request.class): synchronous, may throw *)
  createMatchRequest :
    FindInput -> Region -> number -> Dyn Image ->
    option OptionalSearchParameters -> Outcome MatchRequest;
  (* Region.prototype.toString, number to string, process.cwd() *)
  Region_toString : Region -> string;
  Number_toString : number -> string;
  cwd : string
}.
Arguments screen_screenSize {World} e.
Arguments screen_grabScreen {World} e.
Arguments screen_grabScreenRegion {World} e.
Arguments screen_highlightScreenRegion {World} e.
Arguments finder_findMatch {World} e.
Arguments finder_findMatches {World} e.
Arguments windowFinder_findMatch {World} e.
Arguments windowFinder_findMatches {World} e.
Arguments imageWriter_store {World} e.
Arguments hook_call {World} e.
Arguments createMatchRequest {World} e.
Arguments Region_toString {World} e.
Arguments Number_toString {World} e.
Arguments cwd {World} e.

(** ** Running asynchronous code

    [M A] is an [async] computation: from a state it settles with an
    outcome, a new state and the events it performed. *)

Definition M (World A : Type) : Type :=
  State World -> Outcome A * State World * list Event.

Declare Scope async_scope.
Delimit Scope async_scope with async.

Section Async.
Context {World : Type}.

Definition ret {A} (a : A) : M World A :=
  fun s => (Resolved a, s, []).

Definition throw {A} (e : Thrown) : M World A :=
  fun s => (Rejected e, s, []).

Definition bind {A B} (m : M World A) (k : A -> M World B) : M World B :=
  fun s =>
    match m s with
    | (Resolved a, s1, t1) =>
        match k a s1 with
        | (o, s2, t2) => (o, s2, t1 ++ t2)
        end
    | (Rejected e, s1, t1) => (Rejected e, s1, t1)
    end.

(** [try { body } catch (e) { handler e }] *)
Definition try_catch {A} (body : M World A) (handler : Thrown -> M World A)
  : M World A :=
  fun s =>
    match body s with
    | (Resolved a, s1, t1) => (Resolved a, s1, t1)
    | (Rejected e, s1, t1) =>
        match handler e s1 with
        | (o, s2, t2) => (o, s2, t1 ++ t2)
        end
    end.

(** A synchronous call that may throw, or a settled promise. *)
Definition settle {A} (o : Outcome A) : M World A :=
  fun s => (o, s, []).

(** [await x] for [x : T | Promise<T>] *)
Definition await {A} (x : Awaitable A) : M World A :=
  match x with
  | Direct a => ret a
  | Pending p => settle p
  end.

Definition emit (e : Event) : M World unit :=
  fun s => (Resolved tt, s, [e]).

(** [getLogProvider().debug(..)] / [.info(..)] *)
Definition log (l : LogLevel) (m : LogMessage) : M World unit :=
  emit (Log l m).

(** [await provider.method(..)]: the call is recorded with its outcome. *)
Definition provider {A} (f : World -> Outcome A * World)
    (ev : Outcome A -> Event) : M World A :=
  fun s =>
    match f (world s) with
    | (o, w) => (o, mkState (this s) w, [ev o])
    end.

(** A call whose promise is dropped: it runs, and nobody learns how it
    ended. *)
Definition unawaited {A} (m : M World A) : M World unit :=
  fun s =>
    match m s with
    | (_, s', evs) => (Resolved tt, s', evs)
    end.

Definition get_this : M World ScreenClass :=
  fun s => (Resolved (this s), s, []).

Definition set_findHooks (m : gmap ObjRef (list FindHookCallback))
  : M World unit :=
  fun s =>
    (Resolved tt, mkState (mkScreen (config (this s)) m) (world s), []).

End Async.

Notation "x <- m ;; k" := (bind m (fun x => k))
  (at level 100, m at next level, right associativity) : async_scope.
Notation "m ;;; k" := (bind m (fun _ => k))
  (at level 100, right associativity) : async_scope.

Open Scope async_scope.

(** [for (const x of xs) { body x }] *)
Fixpoint for_of {World A} (xs : list A) (body : A -> M World unit)
  : M World unit :=
  match xs with
  | [] => ret tt
  | x :: rest => body x ;;; for_of rest body
  end.

(** [xs.map(f)] for an [f] that logs. *)
Fixpoint map_of {World A B} (xs : list A) (f : A -> M World B)
  : M World (list B) :=
  match xs with
  | [] => ret []
  | x :: rest => y <- f x ;; ys <- map_of rest f ;; ret (y :: ys)
  end.

(** ** ScreenClass *)

Section ScreenClass.
Context {World : Type} (env : Environment World).

Local Abbreviation Async := (M World).

Definition validateSearchRegion (search screen : Region) : Outcome unit :=
  if lt (left search) 0%float
     || lt (top search) 0%float
     || lt (width search) 0%float
     || lt (height search) 0%float
  then
    Rejected (ErrorObject
      ("Negative values in search region " +:+ Region_toString env search))
  else if isNaN (left search)
          || isNaN (top search)
          || isNaN (width search)
          || isNaN (height search)
  then
    Rejected (ErrorObject
      ("NaN values in search region " +:+ Region_toString env search))
  else if lt (width search) 2%float || lt (height search) 2%float
  then
    Rejected (ErrorObject
      ("Search region " +:+ Region_toString env search
       +:+ " is not large enough. Must be at least two pixels in both width and height."))
  else if gt (plus (left search) (width search)) (width screen)
          || gt (plus (top search) (height search)) (height screen)
  then
    Rejected (ErrorObject
      ("Search region " +:+ Region_toString env search
       +:+ " extends beyond screen boundaries ("
       +:+ Number_toString env (width screen) +:+ "x"
       +:+ Number_toString env (height screen) +:+ ")"))
  else Resolved tt.

(** [await hook(target)] *)
Definition invoke (hook : FindHookCallback) (target : Target) : Async unit :=
  fun s =>
    match hook_call env hook target s with
    | (o, s') => (o, s', [HookCall hook target o])
    end.

(** Modelled from the spec: getMatchResult and getMatchResults
    (match-result.class) are not among the sources; they hand the request
    to the finder provider appropriate to the needle kind and return what
    its single-match or multi-match operation returns. *)
Definition getMatchResult (matchRequest : MatchRequest) : Async MatchResult :=
  provider (finder_findMatch env matchRequest) (FindMatch matchRequest).

Definition getMatchResults (matchRequest : MatchRequest)
  : Async (list MatchResult) :=
  provider (finder_findMatches env matchRequest) (FindMatches matchRequest).

Definition getHooksForInput (input : FindInput)
  : Async (option (list FindHookCallback)) :=
  scr <- get_this ;;
  if isImage input || isTextQuery input then
    ret (findHooks scr !! ref input)
  else if isWindowQuery input then
    ret (findHooks scr !! ref input)
  else ret (Some []).

Definition highlight (regionToHighlight : Awaitable (Dyn Region))
  : Async Region :=
  highlightRegion <- await regionToHighlight ;;
  match highlightRegion with
  | Throws e => throw e
  | IsNot json =>
      throw (ErrorObject
        ("highlight requires an Region, but received " +:+ json))
  | Is region =>
      scr <- get_this ;;
      (log Info
        (Highlighting region
           (PrimFloat.div (highlightDurationMs (config scr)) 1000%float)
           (PrimFloat.mul (highlightOpacity (config scr)) 100%float)) ;;;
       provider
         (screen_highlightScreenRegion env region
            (highlightDurationMs (config scr))
            (highlightOpacity (config scr)))
         (HighlightScreenRegion region
            (highlightDurationMs (config scr))
            (highlightOpacity (config scr))) ;;;
       ret region)
  end.

Definition getFindParameters (params : option OptionalSearchParameters)
  : Async (number * Region * Region * Dyn Image) :=
  scr <- get_this ;;
  let minMatch :=
    default (config_confidence (config scr)) (params ≫= params_confidence) in
  screenSize <- provider (screen_screenSize env) ScreenSize ;;
  searchRegion <-
    match params ≫= params_searchRegion with
    | Some given => await given
    | None => ret screenSize
    end ;;
  screenImage <-
    provider (screen_grabScreenRegion env searchRegion)
             (GrabScreenRegion searchRegion) ;;
  (log Debug (RunningOnScreenSearch minMatch screenSize searchRegion) ;;;
   ret (minMatch, screenSize, searchRegion, screenImage)).

(** [`Searching for ${needle.id} failed. Reason: '${e}'`] *)
Definition searchFailed (needle : FindInput) (e : Thrown) : Thrown :=
  ErrorObject
    ("Searching for " +:+ needle_id needle +:+ " failed. Reason: '"
     +:+ toString e +:+ "'").

(** [new Region(searchRegion.left + location.left,
                searchRegion.top + location.top,
                location.width, location.height)] *)
Definition resultRegionOf (searchRegion : Region) (matchResult : MatchResult)
  : Region :=
  mkRegion (plus (left searchRegion) (left (location matchResult)))
           (plus (top searchRegion) (top (location matchResult)))
           (width (location matchResult))
           (height (location matchResult)).

(** What a [return] inside the [try] block hands back: a value, or a
    promise that was not awaited.  A promise returned from an [async]
    function settles after the [try] block has been left, so its
    rejection is not seen by the [catch] clause. *)
Inductive Returned :=
| ReturnValue (v : FindResult)
| ReturnPromise (p : Async Region).

(** The [try] block of [find]. *)
Definition find_try (needle : FindInput)
    (params : option OptionalSearchParameters) : Async Returned :=
  if isWindowQuery needle then
    windowHandle <-
      provider (windowFinder_findMatch env needle) (WindowFindMatch needle) ;;
    let window := mkWindow windowHandle in
    registered <- getHooksForInput needle ;;
    let possibleHooks := default [] registered in
    (log Debug (HooksTriggeredForMatch (length possibleHooks)) ;;;
     for_of possibleHooks (fun hook =>
       log Debug ExecutingHook ;;;
       invoke hook (WindowTarget window)) ;;;
     ret (ReturnValue (WindowResult window)))
  else
    found <- getFindParameters params ;;
    let '(minMatch, screenSize, searchRegion, screenImage) := found in
    matchRequest <-
      settle (createMatchRequest env needle searchRegion minMatch
                screenImage params) ;;
    (settle (validateSearchRegion searchRegion screenSize) ;;;
     log Debug SearchRegionIsValid ;;;
     (matchResult <- getMatchResult matchRequest ;;
      (log Debug (FoundMatch matchResult) ;;;
       (registered <- getHooksForInput needle ;;
        let possibleHooks := default [] registered in
        (log Debug (HooksTriggeredForMatch (length possibleHooks)) ;;;
         for_of possibleHooks (fun hook =>
           log Debug ExecutingHook ;;;
           invoke hook (MatchTarget matchResult)) ;;;
         let resultRegion := resultRegionOf searchRegion matchResult in
         (log Info (MatchIsLocatedAt resultRegion) ;;;
          (scr <- get_this ;;
           if autoHighlight (config scr) then
             (log Debug AutohighlightIsEnabled ;;;
              ret (ReturnPromise (highlight (Direct (Is resultRegion)))))
           else ret (ReturnValue (RegionResult resultRegion)))))))))
    .

(** The promise of the [async] function follows what was returned. *)
Definition resolve_with (r : Returned) : Async FindResult :=
  match r with
  | ReturnValue v => ret v
  | ReturnPromise p => region <- p ;; ret (RegionResult region)
  end.

(** A [searchInput] that passes none of [isImage], [isTextQuery] and
    [isWindowQuery] is [IsNot]; one on which the check itself throws is
    [Throws].  The check stands before the [try] block. *)
Definition find (searchInput : Awaitable (Dyn FindInput))
    (params : option OptionalSearchParameters) : Async FindResult :=
  input <- await searchInput ;;
  match input with
  | Throws e => throw e
  | IsNot json =>
      throw (ErrorObject
        ("find requires an Image, a text query or a window query, but received "
         +:+ json))
  | Is needle =>
      returned <-
        try_catch (find_try needle params)
                  (fun e => throw (searchFailed needle e)) ;;
      resolve_with returned
  end.

(** The [try] block of [findAll].  [resultRegions.forEach((region) =>
    this.highlight(region))] calls [highlight] on every region and drops
    its promise ([Detached]); [highlight] stops at once, at
    [await regionToHighlight].  The highlights so started resume in turn
    before the caller of [findAll] does: each writes its log line and
    calls [highlightScreenRegion], and nobody awaits what becomes of that
    call. *)
Definition findAll_try (needle : FindInput)
    (params : option OptionalSearchParameters) : Async (list FindResult) :=
  if isWindowQuery needle then
    matches <-
      provider (windowFinder_findMatches env needle)
               (WindowFindMatches needle) ;;
    let windows := map mkWindow matches in
    registered <- getHooksForInput needle ;;
    let possibleHooks := default [] registered in
    (log Debug
       (HooksTriggeredForMatches (length possibleHooks) (length windows)) ;;;
     for_of possibleHooks (fun hook =>
       for_of windows (fun wnd =>
         log Debug ExecutingHook ;;;
         invoke hook (WindowTarget wnd))) ;;;
     ret (map WindowResult windows))
  else
    found <- getFindParameters params ;;
    let '(minMatch, screenSize, searchRegion, screenImage) := found in
    matchRequest <-
      settle (createMatchRequest env needle searchRegion minMatch
                screenImage params) ;;
    (settle (validateSearchRegion searchRegion screenSize) ;;;
     log Debug SearchRegionIsValid ;;;
     (matchResults <- getMatchResults matchRequest ;;
      registered <- getHooksForInput needle ;;
      let possibleHooks := default [] registered in
      (log Debug
         (HooksTriggeredForMatches (length possibleHooks)
            (length matchResults)) ;;;
       for_of possibleHooks (fun hook =>
         for_of matchResults (fun matchResult =>
           log Debug ExecutingHook ;;;
           invoke hook (MatchTarget matchResult))) ;;;
       (resultRegions <-
          map_of matchResults (fun matchResult =>
            let resultRegion := resultRegionOf searchRegion matchResult in
            log Info (MatchIsLocatedAt resultRegion) ;;;
            ret resultRegion) ;;
        scr <- get_this ;;
        if autoHighlight (config scr) then
          (log Debug AutohighlightIsEnabled ;;;
           for_of resultRegions (fun region => emit (Detached region)) ;;;
           for_of resultRegions (fun region =>
             unawaited (highlight (Direct (Is region)))) ;;;
           ret (map RegionResult resultRegions))
        else ret (map RegionResult resultRegions))))).

Definition findAll (searchInput : Awaitable (Dyn FindInput))
    (params : option OptionalSearchParameters) : Async (list FindResult) :=
  input <- await searchInput ;;
  match input with
  | Throws e => throw e
  | IsNot json =>
      throw (ErrorObject
        ("findAll requires an Image, a text query or a window query, but received "
         +:+ json))
  | Is needle =>
      try_catch (findAll_try needle params)
                (fun e => throw (searchFailed needle e))
  end.

(** [on(searchInput, callback)]; synchronous. *)
Definition on (searchInput : Dyn FindInput) (callback : FindHookCallback)
  : Async unit :=
  match searchInput with
  | Throws e => throw e
  | IsNot json =>
      throw (ErrorObject
        ("on requires an Image, a text query or a window query, but received "
         +:+ json))
  | Is input =>
      scr <- get_this ;;
      let existingHooks := default [] (findHooks scr !! ref input) in
      (set_findHooks
         (<[ref input := existingHooks ++ [callback]]> (findHooks scr)) ;;;
       log Info
         (RegisteredCallback (needle_id input) (length existingHooks + 1)))
  end.

(** Modelled from the spec: file-type.enum and
    generate-output-path.function are not among the sources.  The path is
    generated as [{directory}/{prefix}{basename}{postfix}.{extension}],
    and [join(directory, file)] is [{directory}/{file}].  The basename is
    the file name without its directory part and without its own
    extension: the unit test of [capture] stores ["foobar.png"], with the
    default format, at [join(cwd(), "foobar.png")]. *)
Definition extension (t : FileType) : string :=
  match t with
  | PNG => "png"
  | JPG => "jpg"
  end.

Definition join (directory file : string) : string :=
  directory +:+ "/" +:+ file.

(** [s] cut at its last [sep]: what stands before it and what after. *)
Fixpoint cutAtLast (sep : Ascii.ascii) (s : string) : option (string * string) :=
  match s with
  | EmptyString => None
  | String c rest =>
      match cutAtLast sep rest with
      | Some (before, after) => Some (String c before, after)
      | None => if Ascii.eqb c sep then Some (EmptyString, rest) else None
      end
  end.

(** A name that starts with its only dot has no extension. *)
Definition basename (fileName : string) : string :=
  let base :=
    match cutAtLast "/"%char fileName with
    | Some (_, file) => file
    | None => fileName
    end in
  match cutAtLast "."%char base with
  | Some (EmptyString, _) | None => base
  | Some (name, _) => name
  end.

Definition generateOutputPath (fileName path postfix prefix : string)
    (type : FileType) : string :=
  path +:+ "/" +:+ prefix +:+ basename fileName +:+ postfix +:+ "."
  +:+ extension type.

(** A name with no directory part and no dot in it. *)
Fixpoint plain (name : string) : bool :=
  match name with
  | EmptyString => true
  | String c rest =>
      negb (Ascii.eqb c "/") && negb (Ascii.eqb c ".") && plain rest
  end.

Definition saveImage (image : Image) (fileName : string)
    (fileFormat : FileType) (filePath fileNamePrefix fileNamePostfix : string)
  : Async string :=
  let outputPath :=
    generateOutputPath fileName filePath fileNamePostfix fileNamePrefix
      fileFormat in
  log Info (WritingImageTo outputPath) ;;;
  provider (imageWriter_store env image outputPath) (Store image outputPath) ;;;
  log Debug FileWritten ;;;
  ret outputPath.

(** Default parameter values apply to arguments left [undefined]. *)
Definition capture (fileName : string) (fileFormat : option FileType)
    (filePath fileNamePrefix fileNamePostfix : option string) : Async string :=
  currentScreen <- provider (screen_grabScreen env) GrabScreen ;;
  match currentScreen with
  | Throws e => throw e
  | IsNot json =>
      throw (ErrorObject ("capture requires an Image, but received " +:+ json))
  | Is image =>
      log Debug
        (CapturingWholeScreen (image_width image) (image_height image)) ;;;
      saveImage image fileName (default PNG fileFormat)
        (default (cwd env) filePath) (default "" fileNamePrefix)
        (default "" fileNamePostfix)
  end.

Definition grab : Async (Dyn Image) :=
  provider (screen_grabScreen env) GrabScreen.

Definition captureRegion (fileName : string)
    (regionToCapture : Awaitable (Dyn Region)) (fileFormat : option FileType)
    (filePath fileNamePrefix fileNamePostfix : option string) : Async string :=
  targetRegion <- await regionToCapture ;;
  match targetRegion with
  | Throws e => throw e
  | IsNot json =>
      throw (ErrorObject
        ("captureRegion requires an Region, but received " +:+ json))
  | Is region =>
      log Debug (CapturingScreenRegion region) ;;;
      (regionImage <-
         provider (screen_grabScreenRegion env region)
                  (GrabScreenRegion region) ;;
       match regionImage with
       | Throws e => throw e
       | IsNot json =>
           throw (ErrorObject
             ("captureRegion requires an Image, but received " +:+ json))
       | Is image =>
           saveImage image fileName (default PNG fileFormat)
             (default (cwd env) filePath) (default "" fileNamePrefix)
             (default "" fileNamePostfix)
       end)
  end.

End ScreenClass.

(** ** Reading a run *)

(** What [await x] gives for [x : T | Promise<T>]. *)
Definition awaited {A} (x : Awaitable A) : Outcome A :=
  match x with
  | Direct a => Resolved a
  | Pending p => p
  end.

(** [(await params?.searchRegion) ?? screenSize]: the region that is
    searched once the screen size is known. *)
Definition searchRegionOf (params : option OptionalSearchParameters)
    (screenSize : Region) : Outcome Region :=
  match params ≫= params_searchRegion with
  | Some given => awaited given
  | None => Resolved screenSize
  end.

(** [this.findHooks.get(needle) || []] *)
Definition registeredHooks (scr : ScreenClass) (needle : FindInput)
  : list FindHookCallback :=
  default [] (findHooks scr !! ref needle).

(** The hooks that were called, in the order of the calls, with the
    target each was given. *)
Fixpoint hookCalls (evs : list Event) : list (FindHookCallback * Target) :=
  match evs with
  | [] => []
  | HookCall hook target _ :: rest => (hook, target) :: hookCalls rest
  | _ :: rest => hookCalls rest
  end.

(** The hook calls that threw, with what they threw. *)
Fixpoint hookFailures (evs : list Event) : list (FindHookCallback * Thrown) :=
  match evs with
  | [] => []
  | HookCall hook _ (Rejected e) :: rest => (hook, e) :: hookFailures rest
  | _ :: rest => hookFailures rest
  end.

Definition isFinderCall (e : Event) : bool :=
  match e with
  | FindMatch _ _ | FindMatches _ _
  | WindowFindMatch _ _ | WindowFindMatches _ _ => true
  | _ => false
  end.

Definition isScreenCall (e : Event) : bool :=
  match e with
  | ScreenSize _ | GrabScreen _ | GrabScreenRegion _ _
  | HighlightScreenRegion _ _ _ _ => true
  | _ => false
  end.

Definition isHighlightCall (e : Event) : bool :=
  match e with
  | HighlightScreenRegion _ _ _ _ => true
  | _ => false
  end.

(** The calls of the image writer's [store], with the image and the path
    each was given. *)
Fixpoint storeCalls (evs : list Event) : list (Image * string) :=
  match evs with
  | [] => []
  | Store image path _ :: rest => (image, path) :: storeCalls rest
  | _ :: rest => storeCalls rest
  end.

(** What the highlights started by [findAll] do, one region after the
    other, from the world [w]: each writes its log line and calls the
    screen provider with the duration and opacity given, whatever became
    of the calls before it. *)
Fixpoint startHighlights {World} (env : Environment World)
    (durationMs opacity : number) (regions : list Region) (w : World)
  : list Event * World :=
  match regions with
  | [] => ([], w)
  | region :: rest =>
      match screen_highlightScreenRegion env region durationMs opacity w with
      | (out, w1) =>
          match startHighlights env durationMs opacity rest w1 with
          | (evs, w2) =>
              (Log Info
                 (Highlighting region
                    (PrimFloat.div durationMs 1000%float)
                    (PrimFloat.mul opacity 100%float))
               :: HighlightScreenRegion region durationMs opacity out
               :: evs,
               w2)
          end
      end
  end.

(** [text] occurs in [s]. *)
Definition contains (s text : string) : Prop :=
  exists before after, s = before +:+ text +:+ after.

(** A search region the specification rules out, against the reference
    screen: a negative component, a [NaN] component, a width or height
    below two, or a side reaching beyond the screen. *)
Definition invalidSearchRegion (search screen : Region) : Prop :=
  lt (left search) 0%float = true \/ lt (top search) 0%float = true \/
  lt (width search) 0%float = true \/ lt (height search) 0%float = true \/
  isNaN (left search) = true \/ isNaN (top search) = true \/
  isNaN (width search) = true \/ isNaN (height search) = true \/
  lt (width search) 2%float = true \/ lt (height search) 2%float = true \/
  gt (plus (left search) (width search)) (width screen) = true \/
  gt (plus (top search) (height search)) (height screen) = true.

(** [screen.config.autoHighlight = flag] *)
Definition setAutoHighlight {World} (flag : bool) (s : State World)
  : State World :=
  mkState
    (mkScreen
       (mkConfig (config_confidence (config (this s))) flag
          (highlightDurationMs (config (this s)))
          (highlightOpacity (config (this s)))
          (resourceDirectory (config (this s))))
       (findHooks (this s)))
    (world s).

(** [on(needle, cb1); ...; on(needle, cbk)] *)
Definition register {World} (needle : FindInput)
    (callbacks : list FindHookCallback) : M World unit :=
  for_of callbacks (fun callback => on (Is needle) callback).

(** ** A test bench

    The set-up of the unit tests: a 1000x1000 screen, a template image
    with id "image", providers that answer as told.  The world counts the
    provider calls made so far. *)

Module Bench.

Local Open Scope float_scope.

Definition screen : Region := mkRegion 0 0 1000 1000.

Definition screenshot (r : Region) : Image :=
  mkImage (width r) (height r) [] 3 "screenshot" 1 1.

Definition template : Image := mkImage 100 100 [] 3 "image" 1 1.

Definition needle : FindInput := mkFindInput 1%positive (ImageNeedle template).

(** A second object with the same field values. *)
Definition twin : FindInput := mkFindInput 2%positive (ImageNeedle template).

Definition env (found : Outcome MatchResult)
    (foundAll : Outcome (list MatchResult)) (overlay : Outcome unit)
    (hooks : FindHookCallback -> Outcome unit) : Environment nat :=
  {| screen_screenSize := fun w => (Resolved screen, S w);
     screen_grabScreen := fun w => (Resolved (Is (screenshot screen)), S w);
     screen_grabScreenRegion :=
       fun r w => (Resolved (Is (screenshot r)), S w);
     screen_highlightScreenRegion := fun _ _ _ w => (overlay, S w);
     finder_findMatch := fun _ w => (found, S w);
     finder_findMatches := fun _ w => (foundAll, S w);
     windowFinder_findMatch := fun _ w => (Resolved 123, S w);
     windowFinder_findMatches := fun _ w => (Resolved [123], S w);
     imageWriter_store := fun _ _ w => (Resolved tt, S w);
     hook_call := fun hook _ s => (hooks hook, s);
     createMatchRequest :=
       fun needle _ minMatch screenImage params =>
         Resolved
           (mkMatchRequest screenImage needle minMatch
              (default true (params ≫= params_searchMultipleScales)));
     Region_toString := fun _ => "(region)";
     Number_toString := fun _ => "(number)";
     cwd := "/home/user" |}.

Definition start (autoHighlight : bool)
    (hooks : gmap ObjRef (list FindHookCallback)) : State nat :=
  mkState
    (mkScreen
       (mkConfig 0.99 autoHighlight 500 0.25 "/home/user") hooks)
    0%nat.

Definition within (r : Region) : option OptionalSearchParameters :=
  Some (mkParams None (Some (Direct r)) None).

Definition quiet : FindHookCallback -> Outcome unit :=
  fun _ => Resolved tt.

(** The regression scenario of the offset test. *)
Definition limited : Region := mkRegion 100 200 300 400.
Definition found : MatchResult := mkMatchResult 0.99 (mkRegion 50 100 150 200).
Definition other : MatchResult := mkMatchResult 0.99 (mkRegion 10 20 30 40).

Definition negative : Region := mkRegion (-1) 0 100 100.

Definition boom : Thrown := ErrorObject "boom".

(** Hooks of which [bad] throws. *)
Definition failing (bad : FindHookCallback) : FindHookCallback -> Outcome unit :=
  fun hook => if decide (hook = bad) then Rejected boom else Resolved tt.

(** Providers that find [found], or [found] and [other]. *)
Definition finding (overlay : Outcome unit)
    (hooks : FindHookCallback -> Outcome unit) : Environment nat :=
  env (Resolved found) (Resolved [found; other]) overlay hooks.

End Bench.

(** ** Reading a run: the calls

    The events of a run other than its log lines: the provider calls, the
    hook calls and the highlights that were started and left alone, in
    the order in which they happened. *)

Fixpoint calls (evs : list Event) : list Event :=
  match evs with
  | [] => []
  | Log _ _ :: rest => calls rest
  | ev :: rest => ev :: calls rest
  end.

(** ** Reading a run: failures

    Whether a promise resolved, and what became of the call an event
    records.  A log line has no outcome, and neither has a highlight that
    was started and not awaited. *)

Definition succeeded {A} (o : Outcome A) : bool :=
  match o with
  | Resolved _ => true
  | Rejected _ => false
  end.

Definition outcomeOf (ev : Event) : option bool :=
  match ev with
  | Log _ _ | Detached _ => None
  | ScreenSize out => Some (succeeded out)
  | GrabScreen out => Some (succeeded out)
  | GrabScreenRegion _ out => Some (succeeded out)
  | HighlightScreenRegion _ _ _ out => Some (succeeded out)
  | FindMatch _ out => Some (succeeded out)
  | FindMatches _ out => Some (succeeded out)
  | WindowFindMatch _ out => Some (succeeded out)
  | WindowFindMatches _ out => Some (succeeded out)
  | Store _ _ out => Some (succeeded out)
  | HookCall _ _ out => Some (succeeded out)
  end.

(** The event is a call that rejected (a hook: that threw). *)
Definition failed (ev : Event) : bool :=
  match outcomeOf ev with
  | Some false => true
  | _ => false
  end.

(** No call of the run rejected. *)
Definition noFailure (evs : list Event) : bool :=
  forallb (fun ev => negb (failed ev)) evs.

(** A call that rejected is the last event of the run. *)
Fixpoint failFast (evs : list Event) : bool :=
  match evs with
  | [] => true
  | ev :: rest =>
      if failed ev then match rest with [] => true | _ => false end
      else failFast rest
  end.

(** A run in which nothing follows a failure, and which resolved only if
    nothing failed. *)
Definition orderly {World A} (run : Outcome A * State World * list Event)
  : Prop :=
  failFast run.2 = true
  /\ (succeeded run.1.1 = true -> noFailure run.2 = true).

(** ** Relations kept by every step

    [holds R Q m]: every run of [m] relates the state before, whether the
    outcome resolved, the state after and the events by [R], and a value
    it resolves with satisfies [Q]. *)

Definition holds {World A}
    (R : State World -> bool -> State World -> list Event -> Prop)
    (Q : A -> Prop) (m : M World A) : Prop :=
  forall s o s' evs,
    m s = (o, s', evs) ->
    R s (succeeded o) s' evs /\ forall a, o = Resolved a -> Q a.

(** A promise returned from the [try] block runs later, and is to keep
    the relation as well. *)
Definition returnedHolds {World}
    (R : State World -> bool -> State World -> list Event -> Prop)
    (r : @Returned World) : Prop :=
  match r with
  | ReturnValue _ => True
  | ReturnPromise p => holds R (fun _ => True) p
  end.

(** A hook that leaves the instance as it is, whatever the state it is
    called in. *)
Definition keepsInstance {World} (env : Environment World)
    (hook : FindHookCallback) (target : Target) : Prop :=
  forall st : State World, this (hook_call env hook target st).2 = this st.

(** ** Reading a run: the hook chain

    The hook calls of a run with their outcomes, and the reason with
    which a call rejected. *)

Fixpoint hookEvents (evs : list Event) : list Event :=
  match evs with
  | [] => []
  | HookCall hook target out :: rest =>
      HookCall hook target out :: hookEvents rest
  | _ :: rest => hookEvents rest
  end.

Definition rejectedWith (ev : Event) : option Thrown :=
  match ev with
  | ScreenSize (Rejected e)
  | GrabScreen (Rejected e)
  | GrabScreenRegion _ (Rejected e)
  | HighlightScreenRegion _ _ _ (Rejected e)
  | FindMatch _ (Rejected e)
  | FindMatches _ (Rejected e)
  | WindowFindMatch _ (Rejected e)
  | WindowFindMatches _ (Rejected e)
  | Store _ _ (Rejected e)
  | HookCall _ _ (Rejected e) => Some e
  | _ => None
  end.

(** The hook chain as the specification words it: the hooks are called
    one after the other in the order given, each one in the state the one
    before it left when it returned; a hook that throws ends the chain.
    The result is the outcome of the chain, the state it leaves and the
    calls made. *)
Fixpoint runHooks {World} (env : Environment World)
    (todo : list (FindHookCallback * Target)) (s : State World)
  : Outcome unit * State World * list Event :=
  match todo with
  | [] => (Resolved tt, s, [])
  | (hook, target) :: rest =>
      match hook_call env hook target s with
      | (Resolved u, s1) =>
          match runHooks env rest s1 with
          | (o, s2, evs) => (o, s2, HookCall hook target (Resolved u) :: evs)
          end
      | (Rejected e, s1) =>
          (Rejected e, s1, [HookCall hook target (Rejected e)])
      end
  end.

(** The steps of a search for an image or a text up to the call of the
    finder, none of them failing: the screen size, the search region, its
    content, the match request, the validation.  [w] is the world in
    which the finder is then called. *)
Definition prepared {World} (env : Environment World) (needle : FindInput)
    (params : option OptionalSearchParameters) (s : State World)
    (search : Region) (request : MatchRequest) (w : World) : Prop :=
  exists screen w1 img,
    screen_screenSize env (world s) = (Resolved screen, w1)
    /\ searchRegionOf params screen = Resolved search
    /\ screen_grabScreenRegion env search w1 = (Resolved img, w)
    /\ createMatchRequest env needle search
         (default (config_confidence (config (this s)))
            (params ≫= params_confidence)) img params = Resolved request
    /\ validateSearchRegion env search screen = Resolved tt.

(** A failure of a search ahead of its highlight step, as its run shows
    it: a call that is no highlight call and rejected with [cause] (the
    screen size, the content of the search region, a finder, a hook), or
    the search region given as a promise that rejected with it, or the
    construction of the match request that threw it, or the validation of
    the search region that failed with it.  [scr] is the instance at the
    start of the search. *)
Definition failedWith {World} (env : Environment World) (needle : FindInput)
    (params : option OptionalSearchParameters) (scr : ScreenClass)
    (evs : list Event) (cause : Thrown) : Prop :=
  (exists ev,
      ev ∈ evs /\ rejectedWith ev = Some cause /\ isHighlightCall ev = false)
  \/ (exists screen,
        ScreenSize (Resolved screen) ∈ evs
        /\ searchRegionOf params screen = Rejected cause)
  \/ (exists screen search img,
        ScreenSize (Resolved screen) ∈ evs
        /\ GrabScreenRegion search (Resolved img) ∈ evs
        /\ match createMatchRequest env needle search
                 (default (config_confidence (config scr))
                    (params ≫= params_confidence)) img params with
           | Rejected e => e = cause
           | Resolved _ =>
               validateSearchRegion env search screen = Rejected cause
           end).

(** The finder was reached and answered: with [target], leaving the
    state [s1].  For a window query it is the window finder, asked at
    once. *)
Definition found {World} (env : Environment World) (needle : FindInput)
    (params : option OptionalSearchParameters) (s : State World)
    (target : Target) (s1 : State World) : Prop :=
  if isWindowQuery needle then
    exists handle w,
      windowFinder_findMatch env needle (world s) = (Resolved handle, w)
      /\ target = WindowTarget (mkWindow handle)
      /\ s1 = mkState (this s) w
  else
    exists search request w matchResult w',
      prepared env needle params s search request w
      /\ finder_findMatch env request w = (Resolved matchResult, w')
      /\ target = MatchTarget matchResult
      /\ s1 = mkState (this s) w'.

Definition foundAll {World} (env : Environment World) (needle : FindInput)
    (params : option OptionalSearchParameters) (s : State World)
    (targets : list Target) (s1 : State World) : Prop :=
  if isWindowQuery needle then
    exists handles w,
      windowFinder_findMatches env needle (world s) = (Resolved handles, w)
      /\ targets = map (fun handle => WindowTarget (mkWindow handle)) handles
      /\ s1 = mkState (this s) w
  else
    exists search request w matchResults w',
      prepared env needle params s search request w
      /\ finder_findMatches env request w = (Resolved matchResults, w')
      /\ targets = map MatchTarget matchResults
      /\ s1 = mkState (this s) w'.

Module Desk.

Local Open Scope float_scope.

Definition windowNeedle : FindInput :=
  mkFindInput 3%positive (WindowNeedle (mkWindowQuery "window" "Editor")).

(** A search region that fits the 1000x1000 screen of the bench. *)
Definition inside : Region := mkRegion 10 10 90 90.

(** Two hooks registered for the needle of the bench. *)
Definition hooked : gmap ObjRef (list FindHookCallback) :=
  {[ 1%positive := [7; 8]%positive ]}.

(** Providers whose finder rejects, as in the test "should reject when
    search fails". *)
Definition failingSearch : Environment nat :=
  Bench.env (Rejected (Reason "Search failed."))
    (Rejected (Reason "Search failed.")) (Resolved tt) Bench.quiet.

(** Providers whose finder finds nothing. *)
Definition findingNothing : Environment nat :=
  Bench.env (Rejected (Reason "No match")) (Resolved []) (Resolved tt)
    Bench.quiet.

End Desk.

(** * Properties *)

(** ** Runs of the basic steps *)

Section AsyncFacts.
Context {World : Type}.
Implicit Types (s : State World) (evs : list Event).

Lemma bind_inv {A B} (m : M World A) (k : A -> M World B) s o s' evs :
  bind m k s = (o, s', evs) ->
  (exists a s1 t1 t2,
      m s = (Resolved a, s1, t1) /\ k a s1 = (o, s', t2) /\ evs = t1 ++ t2)
  \/ (exists e, m s = (Rejected e, s', evs) /\ o = Rejected e).
Proof.
  unfold bind. destruct (m s) as [[[a|e] s1] t1].
  - destruct (k a s1) as [[o2 s2] t2] eqn:Hk. intros [= <- <- <-].
    left. by exists a, s1, t1, t2.
  - intros [= <- <- <-]. right. by exists e.
Qed.

Lemma bind_resolved {A B} (m : M World A) (k : A -> M World B) s a s1 t1
    o s2 t2 :
  m s = (Resolved a, s1, t1) ->
  k a s1 = (o, s2, t2) ->
  bind m k s = (o, s2, t1 ++ t2).
Proof. intros Hm Hk. unfold bind. by rewrite Hm, Hk. Qed.

Lemma provider_inv {A} (f : World -> Outcome A * World)
    (ev : Outcome A -> Event) s o s' evs :
  provider f ev s = (o, s', evs) ->
  exists w, f (world s) = (o, w) /\ s' = mkState (this s) w /\ evs = [ev o].
Proof.
  unfold provider. destruct (f (world s)) as [o1 w] eqn:Hf.
  intros [= <- <- <-]. by exists w.
Qed.

Lemma await_run {A} (x : Awaitable A) s :
  await x s = (awaited x, s, []).
Proof. by destruct x. Qed.

Lemma hookCalls_app evs1 evs2 :
  hookCalls (evs1 ++ evs2) = hookCalls evs1 ++ hookCalls evs2.
Proof.
  induction evs1 as [|[] evs1 IH]; simpl; try done. by rewrite IH.
Qed.

Lemma hookFailures_app evs1 evs2 :
  hookFailures (evs1 ++ evs2) = hookFailures evs1 ++ hookFailures evs2.
Proof.
  induction evs1 as [|ev evs1 IH]; [done|].
  destruct ev; simpl; try done. destruct out; simpl; by rewrite ?IH.
Qed.

End AsyncFacts.

(** Finds an event in an explicit list of events. *)
Ltac in_events :=
  repeat first [apply list_elem_of_here | apply list_elem_of_further].

(** Replays in the goal the outcomes recorded for the steps of a run. *)
Ltac replay :=
  repeat (match goal with
          | Heq : ?x = _ |- context [match ?x with _ => _ end] => rewrite Heq
          end; simpl).

(** Splits a run on the outcome of each step in turn. *)
Ltac split_run H :=
  cbv beta iota zeta in H;
  repeat (match type of H with
          | context [match ?x with _ => _ end] =>
              lazymatch x with
              | context [match _ with _ => _ end] => fail
              | _ => destruct x eqn:?
              end
          end;
          cbv beta iota zeta in H;
          try discriminate H).

(** Takes apart the membership of an event in the events of a run. *)
Ltac members Hin :=
  repeat first
    [ apply elem_of_nil in Hin; destruct Hin
    | apply elem_of_cons in Hin as [Hin|Hin]
    | apply elem_of_app in Hin as [Hin|Hin]
    | apply list_elem_of_fmap in Hin as (? & Hin & _) ].

(** Finds an event among the events of a run. *)
Ltac in_run :=
  repeat first
    [ assumption
    | apply list_elem_of_here
    | apply list_elem_of_further
    | apply elem_of_app; left; assumption
    | apply elem_of_app; right ].

(** The last event of a run. *)
Ltac in_last :=
  first
    [ apply list_elem_of_further; in_last
    | apply elem_of_app; right; in_last
    | apply list_elem_of_here ].

Section ScreenFacts.
Context {World : Type} (env : Environment World).
Implicit Types (s : State World) (evs : list Event).

Lemma searchRegion_run params screenSize s :
  match params ≫= params_searchRegion with
  | Some given => await given
  | None => ret screenSize
  end s = (searchRegionOf params screenSize, s, []).
Proof.
  unfold searchRegionOf. destruct (params ≫= params_searchRegion); [|done].
  apply await_run.
Qed.

Lemma getHooksForInput_run needle s :
  getHooksForInput needle s
  = (Resolved (findHooks (this s) !! ref needle), s, []).
Proof.
  unfold getHooksForInput, isImage, isTextQuery, isWindowQuery.
  by destruct (value needle).
Qed.

Lemma getFindParameters_run params s :
  getFindParameters env params s =
  let minMatch :=
    default (config_confidence (config (this s)))
      (params ≫= params_confidence) in
  match screen_screenSize env (world s) with
  | (Rejected e, w1) =>
      (Rejected e, mkState (this s) w1, [ScreenSize (Rejected e)])
  | (Resolved screen, w1) =>
      match searchRegionOf params screen with
      | Rejected e =>
          (Rejected e, mkState (this s) w1, [ScreenSize (Resolved screen)])
      | Resolved search =>
          match screen_grabScreenRegion env search w1 with
          | (Rejected e, w2) =>
              (Rejected e, mkState (this s) w2,
               [ScreenSize (Resolved screen);
                GrabScreenRegion search (Rejected e)])
          | (Resolved img, w2) =>
              (Resolved (minMatch, screen, search, img),
               mkState (this s) w2,
               [ScreenSize (Resolved screen);
                GrabScreenRegion search (Resolved img);
                Log Debug (RunningOnScreenSearch minMatch screen search)])
          end
      end
  end.
Proof.
  unfold getFindParameters, bind, provider, get_this. simpl.
  destruct (screen_screenSize env (world s)) as [[screen|e] w1]; [|done].
  rewrite searchRegion_run.
  destruct (searchRegionOf params screen) as [search|e]; [|done]. simpl.
  by destruct (screen_grabScreenRegion env search w1) as [[img|e] w2].
Qed.

(** The hook loop of [find]. *)
Local Abbreviation hookLoop hooks target :=
  (for_of hooks (fun hook =>
     log Debug ExecutingHook ;;; invoke env hook target)).

(** The run of the [try] block of [find] on an image or a text query: the
    steps in the order of the code, each with the events it leaves. *)
Lemma find_try_region_run needle params s :
  isWindowQuery needle = false ->
  find_try env needle params s =
  match getFindParameters env params s with
  | (Rejected e, s1, t1) => (Rejected e, s1, t1)
  | (Resolved (minMatch, screen, search, img), s1, t1) =>
      match createMatchRequest env needle search minMatch img params with
      | Rejected e => (Rejected e, s1, t1)
      | Resolved req =>
          match validateSearchRegion env search screen with
          | Rejected e => (Rejected e, s1, t1)
          | Resolved _ =>
              match finder_findMatch env req (world s1) with
              | (Rejected e, w) =>
                  (Rejected e, mkState (this s1) w,
                   t1 ++ [Log Debug SearchRegionIsValid;
                          FindMatch req (Rejected e)])
              | (Resolved found, w) =>
                  let hooks := registeredHooks (this s1) needle in
                  match hookLoop hooks (MatchTarget found)
                          (mkState (this s1) w) with
                  | (Rejected e, s2, t2) =>
                      (Rejected e, s2,
                       t1 ++ Log Debug SearchRegionIsValid
                          :: FindMatch req (Resolved found)
                          :: Log Debug (FoundMatch found)
                          :: Log Debug (HooksTriggeredForMatch (length hooks))
                          :: t2)
                  | (Resolved _, s2, t2) =>
                      let region := resultRegionOf search found in
                      (Resolved
                         (if autoHighlight (config (this s2))
                          then ReturnPromise
                                 (highlight env (Direct (Is region)))
                          else ReturnValue (RegionResult region)),
                       s2,
                       t1 ++ Log Debug SearchRegionIsValid
                          :: FindMatch req (Resolved found)
                          :: Log Debug (FoundMatch found)
                          :: Log Debug (HooksTriggeredForMatch (length hooks))
                          :: t2
                          ++ Log Info (MatchIsLocatedAt region)
                          :: (if autoHighlight (config (this s2))
                              then [Log Debug AutohighlightIsEnabled]
                              else []))
                  end
              end
          end
      end
  end.
Proof.
  intros Hw. unfold find_try. rewrite Hw. unfold bind at 1.
  destruct (getFindParameters env params s)
    as [[[[[[minMatch screen] search] img]|e] s1] t1]; [|done].
  unfold bind at 1, settle at 1.
  destruct (createMatchRequest env needle search minMatch img params)
    as [req|e]; [|by rewrite app_nil_r].
  unfold bind at 1, settle at 1.
  destruct (validateSearchRegion env search screen) as [[]|e];
    [|by rewrite app_nil_r].
  unfold bind at 1, log at 1, emit at 1.
  unfold bind at 1, getMatchResult, provider.
  destruct (finder_findMatch env req (world s1)) as [[found|e] w]; [|done].
  unfold bind at 1, log at 1, emit at 1.
  unfold bind at 1. rewrite getHooksForInput_run.
  unfold bind at 1, log at 1, emit at 1.
  unfold bind at 1. unfold registeredHooks. simpl.
  destruct (hookLoop (default [] (findHooks (this s1) !! ref needle))
              (MatchTarget found) (mkState (this s1) w))
    as [[[[]|e] s2] t2]; [|done].
  unfold bind, log, emit, get_this, ret. simpl.
  by destruct (autoHighlight (config (this s2))).
Qed.

(** One hook over the targets of [findAll]. *)
Local Abbreviation targetLoop hook mk xs :=
  (for_of xs (fun x => log Debug ExecutingHook ;;; invoke env hook (mk x))).

Lemma invoke_step hook target s :
  (log Debug ExecutingHook ;;; invoke env hook target) s =
  match hook_call env hook target s with
  | (o, s') => (o, s', [Log Debug ExecutingHook; HookCall hook target o])
  end.
Proof.
  unfold bind, log, emit, invoke.
  by destruct (hook_call env hook target s) as [o s'].
Qed.

(** The hook loop calls the hooks in list order and stops at the first
    one that throws. *)
Lemma hookLoop_calls hooks target s o s' evs :
  hookLoop hooks target s = (o, s', evs) ->
  match o with
  | Resolved _ =>
      hookCalls evs = map (fun h => (h, target)) hooks
      /\ hookFailures evs = []
  | Rejected e =>
      exists before hook after,
        hooks = before ++ hook :: after
        /\ hookCalls evs = map (fun h => (h, target)) (before ++ [hook])
        /\ hookFailures evs = [(hook, e)]
  end.
Proof.
  revert s evs. induction hooks as [|h hooks IH]; intros s evs H; simpl in H.
  - unfold ret in H. by simplify_eq.
  - unfold bind at 1 in H. rewrite invoke_step in H.
    destruct (hook_call env h target s) as [[[]|e] s1] eqn:Hcall.
    + destruct (hookLoop hooks target s1) as [[o2 s2] t2] eqn:Hrest.
      simplify_eq. apply IH in Hrest. simpl. destruct o.
      * destruct Hrest as [-> ->]. done.
      * destruct Hrest as (before & hook & after & -> & -> & ->).
        exists (h :: before), hook, after. done.
    + simplify_eq. by exists [], h, hooks.
Qed.

Lemma targetLoop_calls {A} hook (mk : A -> Target) xs s u s' evs :
  targetLoop hook mk xs s = (Resolved u, s', evs) ->
  hookCalls evs = map (fun x => (hook, mk x)) xs.
Proof.
  revert s evs. induction xs as [|x xs IH]; intros s evs H; simpl in H.
  - unfold ret in H. by simplify_eq.
  - unfold bind at 1 in H. rewrite invoke_step in H.
    destruct (hook_call env hook (mk x) s) as [[[]|e] s1] eqn:Hcall; [|done].
    destruct (targetLoop hook mk xs s1) as [[o2 s2] t2] eqn:Hrest.
    simplify_eq. apply IH in Hrest. simpl. by rewrite Hrest.
Qed.

Lemma hooksLoop_calls {A} hooks (mk : A -> Target) xs s u s' evs :
  for_of hooks (fun hook => targetLoop hook mk xs) s = (Resolved u, s', evs) ->
  hookCalls evs
  = flat_map (fun hook => map (fun target => (hook, target)) (map mk xs)) hooks.
Proof.
  revert s evs. induction hooks as [|h hooks IH]; intros s evs H; simpl in H.
  - unfold ret in H. by simplify_eq.
  - apply bind_inv in H as [(a & s1 & t1 & t2 & H1 & H2 & ->)|(e & _ & ?)];
      [|done].
    destruct a. apply targetLoop_calls in H1. apply IH in H2.
    rewrite hookCalls_app, H1, H2. simpl. by rewrite map_map.
Qed.

Lemma flat_map_length_const {A B} (f : A -> list B) (xs : list A) (m : nat) :
  (forall x, length (f x) = m) -> length (flat_map f xs) = length xs * m.
Proof.
  intros Hf. induction xs as [|x xs IH]; [done|].
  simpl. rewrite length_app, Hf, IH. lia.
Qed.

Lemma locate_run search found s :
  map_of found (fun matchResult =>
    let resultRegion := resultRegionOf search matchResult in
    log Info (MatchIsLocatedAt resultRegion) ;;; ret resultRegion) s
  = (Resolved (map (resultRegionOf search) found), s,
     map (fun m => Log Info (MatchIsLocatedAt (resultRegionOf search m))) found).
Proof.
  induction found as [|m found IH]; [done|].
  simpl. eapply eq_trans.
  - eapply bind_resolved; [reflexivity|].
    eapply bind_resolved; [apply IH|reflexivity].
  - simpl. by rewrite app_nil_r.
Qed.

Lemma detach_run regions s :
  for_of regions (fun region => emit (Detached region)) s
  = (Resolved tt, s, map Detached regions).
Proof.
  induction regions as [|r regions IH]; [done|].
  simpl. eapply eq_trans.
  - eapply bind_resolved; [reflexivity|apply IH].
  - done.
Qed.

Lemma hookCalls_logs {A} (f : A -> LogMessage) l (xs : list A) :
  hookCalls (map (fun x => Log l (f x)) xs) = [].
Proof. by induction xs. Qed.

Lemma hookCalls_detached regions : hookCalls (map Detached regions) = [].
Proof. by induction regions. Qed.

Lemma hookFailures_logs {A} (f : A -> LogMessage) l (xs : list A) :
  hookFailures (map (fun x => Log l (f x)) xs) = [].
Proof. by induction xs. Qed.

Lemma hookFailures_detached regions :
  hookFailures (map Detached regions) = [].
Proof. by induction regions. Qed.

Lemma highlight_run x region s :
  awaited x = Resolved (Is region) ->
  highlight env x s =
  let durationMs := highlightDurationMs (config (this s)) in
  let opacity := highlightOpacity (config (this s)) in
  match screen_highlightScreenRegion env region durationMs opacity (world s)
  with
  | (out, w) =>
      (match out with
       | Resolved _ => Resolved region
       | Rejected e => Rejected e
       end,
       mkState (this s) w,
       [Log Info
          (Highlighting region (PrimFloat.div durationMs 1000%float)
             (PrimFloat.mul opacity 100%float));
        HighlightScreenRegion region durationMs opacity out])
  end.
Proof.
  intros Hx. unfold highlight. unfold bind at 1. rewrite await_run, Hx.
  unfold bind, get_this, log, emit, provider, ret. simpl.
  by destruct (screen_highlightScreenRegion env region _ _ (world s))
    as [[[]|e] w].
Qed.

(** The highlights [findAll] starts and leaves alone. *)
Local Abbreviation highlightsLoop regions :=
  (for_of regions (fun region =>
     unawaited (highlight env (Direct (Is region))))).

Lemma highlightsLoop_run regions s :
  highlightsLoop regions s =
  match startHighlights env (highlightDurationMs (config (this s)))
          (highlightOpacity (config (this s))) regions (world s) with
  | (evs, w) => (Resolved tt, mkState (this s) w, evs)
  end.
Proof.
  revert s. induction regions as [|region regions IH]; intros s; simpl.
  - by destruct s.
  - unfold bind at 1, unawaited at 1.
    erewrite highlight_run by done. cbv zeta.
    destruct (screen_highlightScreenRegion env region _ _ (world s))
      as [out w1].
    rewrite IH. simpl.
    by destruct (startHighlights env _ _ regions w1) as [evs w2].
Qed.

(** They call no hook. *)
Lemma startHighlights_quiet durationMs opacity regions w evs w' :
  startHighlights env durationMs opacity regions w = (evs, w') ->
  hookCalls evs = [] /\ hookFailures evs = [].
Proof.
  revert w evs. induction regions as [|region regions IH]; intros w evs H;
    simpl in H.
  - by simplify_eq.
  - destruct (screen_highlightScreenRegion env region _ _ w) as [out w1].
    destruct (startHighlights env _ _ regions w1) as [t2 w2] eqn:Hrest.
    simplify_eq. by apply IH in Hrest.
Qed.

(** The highlights [findAll] starts make highlight calls and log lines
    only. *)
Lemma startHighlights_member durationMs opacity regions w evs w' ev :
  startHighlights env durationMs opacity regions w = (evs, w') ->
  ev ∈ evs ->
  (exists l m, ev = Log l m)
  \/ (exists region d op out, ev = HighlightScreenRegion region d op out).
Proof.
  revert w evs. induction regions as [|region regions IH]; intros w evs H Hin;
    simpl in H.
  - simplify_eq. by apply elem_of_nil in Hin.
  - destruct (screen_highlightScreenRegion env region _ _ w) as [out w1].
    destruct (startHighlights env _ _ regions w1) as [t2 w2] eqn:Hrest.
    simplify_eq.
    apply elem_of_cons in Hin as [->|Hin]; [by left; eexists _, _|].
    apply elem_of_cons in Hin as [->|Hin]; [by right; eexists _, _, _, _|].
    by eapply IH.
Qed.

Lemma find_run searchInput needle params s :
  awaited searchInput = Resolved (Is needle) ->
  find env searchInput params s =
  match find_try env needle params s with
  | (Rejected e, s1, t1) => (Rejected (searchFailed needle e), s1, t1)
  | (Resolved (ReturnValue v), s1, t1) => (Resolved v, s1, t1)
  | (Resolved (ReturnPromise p), s1, t1) =>
      match p s1 with
      | (Resolved region, s2, t2) =>
          (Resolved (RegionResult region), s2, t1 ++ t2)
      | (Rejected e, s2, t2) => (Rejected e, s2, t1 ++ t2)
      end
  end.
Proof.
  intros Hx. unfold find. unfold bind at 1. rewrite await_run, Hx.
  unfold bind at 1, try_catch.
  destruct (find_try env needle params s) as [[[[v|p]|e] s1] t1]; simpl.
  - by rewrite app_nil_r.
  - unfold bind, ret. destruct (p s1) as [[[region|e] s2] t2]; simpl.
    + by rewrite app_nil_r.
    + done.
  - by rewrite app_nil_r.
Qed.

Lemma findAll_run searchInput needle params s :
  awaited searchInput = Resolved (Is needle) ->
  findAll env searchInput params s =
  match findAll_try env needle params s with
  | (Rejected e, s1, t1) => (Rejected (searchFailed needle e), s1, t1)
  | (Resolved found, s1, t1) => (Resolved found, s1, t1)
  end.
Proof.
  intros Hx. unfold findAll. unfold bind at 1. rewrite await_run, Hx.
  unfold try_catch.
  destruct (findAll_try env needle params s) as [[[found|e] s1] t1]; simpl.
  - done.
  - by rewrite app_nil_r.
Qed.

(** The run of the [try] block of [findAll] on an image or a text query. *)
Lemma findAll_try_region_run needle params s :
  isWindowQuery needle = false ->
  findAll_try env needle params s =
  match getFindParameters env params s with
  | (Rejected e, s1, t1) => (Rejected e, s1, t1)
  | (Resolved (minMatch, screen, search, img), s1, t1) =>
      match createMatchRequest env needle search minMatch img params with
      | Rejected e => (Rejected e, s1, t1)
      | Resolved req =>
          match validateSearchRegion env search screen with
          | Rejected e => (Rejected e, s1, t1)
          | Resolved _ =>
              match finder_findMatches env req (world s1) with
              | (Rejected e, w) =>
                  (Rejected e, mkState (this s1) w,
                   t1 ++ [Log Debug SearchRegionIsValid;
                          FindMatches req (Rejected e)])
              | (Resolved found, w) =>
                  let hooks := registeredHooks (this s1) needle in
                  match for_of hooks (fun hook =>
                          targetLoop hook MatchTarget found)
                          (mkState (this s1) w) with
                  | (Rejected e, s2, t2) =>
                      (Rejected e, s2,
                       t1 ++ Log Debug SearchRegionIsValid
                          :: FindMatches req (Resolved found)
                          :: Log Debug
                               (HooksTriggeredForMatches (length hooks)
                                  (length found))
                          :: t2)
                  | (Resolved _, s2, t2) =>
                      let regions := map (resultRegionOf search) found in
                      if autoHighlight (config (this s2)) then
                        match startHighlights env
                                (highlightDurationMs (config (this s2)))
                                (highlightOpacity (config (this s2)))
                                regions (world s2) with
                        | (t3, w3) =>
                            (Resolved (map RegionResult regions),
                             mkState (this s2) w3,
                             t1 ++ Log Debug SearchRegionIsValid
                                :: FindMatches req (Resolved found)
                                :: Log Debug
                                     (HooksTriggeredForMatches (length hooks)
                                        (length found))
                                :: t2
                                ++ map (fun m =>
                                          Log Info
                                            (MatchIsLocatedAt
                                               (resultRegionOf search m)))
                                     found
                                ++ Log Debug AutohighlightIsEnabled
                                :: map Detached regions ++ t3)
                        end
                      else
                        (Resolved (map RegionResult regions), s2,
                         t1 ++ Log Debug SearchRegionIsValid
                            :: FindMatches req (Resolved found)
                            :: Log Debug
                                 (HooksTriggeredForMatches (length hooks)
                                    (length found))
                            :: t2
                            ++ map (fun m =>
                                      Log Info
                                        (MatchIsLocatedAt
                                           (resultRegionOf search m)))
                                 found)
                  end
              end
          end
      end
  end.
Proof.
  intros Hw. unfold findAll_try. rewrite Hw. unfold bind at 1.
  destruct (getFindParameters env params s)
    as [[[[[[minMatch screen] search] img]|e] s1] t1]; [|done].
  unfold bind at 1, settle at 1.
  destruct (createMatchRequest env needle search minMatch img params)
    as [req|e]; [|by rewrite app_nil_r].
  unfold bind at 1, settle at 1.
  destruct (validateSearchRegion env search screen) as [[]|e];
    [|by rewrite app_nil_r].
  unfold bind at 1, log at 1, emit at 1.
  unfold bind at 1, getMatchResults, provider.
  destruct (finder_findMatches env req (world s1)) as [[found|e] w]; [|done].
  unfold bind at 1. rewrite getHooksForInput_run.
  unfold bind at 1, log at 1, emit at 1.
  unfold bind at 1. unfold registeredHooks. simpl.
  destruct (for_of (default [] (findHooks (this s1) !! ref needle))
              (fun hook => targetLoop hook MatchTarget found)
              (mkState (this s1) w))
    as [[[[]|e] s2] t2]; [|done].
  unfold bind at 1. rewrite locate_run.
  unfold bind at 1, get_this at 1. cbv zeta.
  destruct (autoHighlight (config (this s2))).
  - unfold bind at 1, log at 1, emit at 1.
    unfold bind at 1. rewrite detach_run.
    unfold bind at 1. rewrite highlightsLoop_run.
    destruct (startHighlights env _ _ (map (resultRegionOf search) found)
                (world s2)) as [t3 w3].
    unfold ret. simpl. by rewrite !app_nil_r.
  - unfold ret. simpl. by rewrite !app_nil_r.
Qed.

(** The runs of the two [try] blocks on a window query. *)
Lemma find_try_window_run needle params s :
  isWindowQuery needle = true ->
  find_try env needle params s =
  match windowFinder_findMatch env needle (world s) with
  | (Rejected e, w) =>
      (Rejected e, mkState (this s) w, [WindowFindMatch needle (Rejected e)])
  | (Resolved handle, w) =>
      let hooks := registeredHooks (this s) needle in
      match hookLoop hooks (WindowTarget (mkWindow handle))
              (mkState (this s) w) with
      | (Rejected e, s2, t2) =>
          (Rejected e, s2,
           WindowFindMatch needle (Resolved handle)
           :: Log Debug (HooksTriggeredForMatch (length hooks)) :: t2)
      | (Resolved _, s2, t2) =>
          (Resolved (ReturnValue (WindowResult (mkWindow handle))), s2,
           WindowFindMatch needle (Resolved handle)
           :: Log Debug (HooksTriggeredForMatch (length hooks)) :: t2)
      end
  end.
Proof.
  intros Hw. unfold find_try. rewrite Hw. unfold bind at 1, provider.
  destruct (windowFinder_findMatch env needle (world s)) as [[handle|e] w];
    [|done].
  unfold bind at 1. rewrite getHooksForInput_run.
  unfold bind at 1, log at 1, emit at 1.
  unfold bind at 1. unfold registeredHooks. simpl.
  destruct (hookLoop (default [] (findHooks (this s) !! ref needle))
              (WindowTarget (mkWindow handle)) (mkState (this s) w))
    as [[[[]|e] s2] t2]; [|done].
  unfold ret. simpl. by rewrite app_nil_r.
Qed.

Lemma findAll_try_window_run needle params s :
  isWindowQuery needle = true ->
  findAll_try env needle params s =
  match windowFinder_findMatches env needle (world s) with
  | (Rejected e, w) =>
      (Rejected e, mkState (this s) w, [WindowFindMatches needle (Rejected e)])
  | (Resolved handles, w) =>
      let hooks := registeredHooks (this s) needle in
      let windows := map mkWindow handles in
      match for_of hooks (fun hook => targetLoop hook WindowTarget windows)
              (mkState (this s) w) with
      | (Rejected e, s2, t2) =>
          (Rejected e, s2,
           WindowFindMatches needle (Resolved handles)
           :: Log Debug
                (HooksTriggeredForMatches (length hooks) (length windows))
           :: t2)
      | (Resolved _, s2, t2) =>
          (Resolved (map WindowResult windows), s2,
           WindowFindMatches needle (Resolved handles)
           :: Log Debug
                (HooksTriggeredForMatches (length hooks) (length windows))
           :: t2)
      end
  end.
Proof.
  intros Hw. unfold findAll_try. rewrite Hw. unfold bind at 1, provider.
  destruct (windowFinder_findMatches env needle (world s)) as [[handles|e] w];
    [|done].
  unfold bind at 1. rewrite getHooksForInput_run.
  unfold bind at 1, log at 1, emit at 1.
  unfold bind at 1. unfold registeredHooks. simpl.
  destruct (for_of (default [] (findHooks (this s) !! ref needle))
              (fun hook => targetLoop hook WindowTarget (map mkWindow handles))
              (mkState (this s) w))
    as [[[[]|e] s2] t2]; [|done].
  unfold ret. simpl. by rewrite app_nil_r.
Qed.

(** *** Search-region validation against the specification's wording *)

Lemma validateSearchRegion_invalid search screen :
  invalidSearchRegion search screen ->
  exists message,
    validateSearchRegion env search screen = Rejected (ErrorObject message).
Proof.
  unfold invalidSearchRegion, validateSearchRegion. intros H.
  repeat
    (match goal with
     | |- context [lt ?a ?b] => destruct (lt a b) eqn:?
     | |- context [isNaN ?a] => destruct (isNaN a) eqn:?
     | |- context [gt ?a ?b] => destruct (gt a b) eqn:?
     end; simpl; eauto).
  repeat destruct H as [H|H]; discriminate H.
Qed.

Lemma validateSearchRegion_valid search screen :
  ~ invalidSearchRegion search screen ->
  validateSearchRegion env search screen = Resolved tt.
Proof.
  unfold invalidSearchRegion, validateSearchRegion. intros H.
  repeat
    (match goal with
     | |- context [lt ?a ?b] => destruct (lt a b) eqn:?
     | |- context [isNaN ?a] => destruct (isNaN a) eqn:?
     | |- context [gt ?a ?b] => destruct (gt a b) eqn:?
     end; simpl; try tauto).
Qed.

Lemma append_assoc (a b c : string) : (a +:+ b) +:+ c = a +:+ (b +:+ c).
Proof.
  induction a as [|ch a IH]; [done|].
  change (String ch ((a +:+ b) +:+ c) = String ch (a +:+ b +:+ c)).
  by rewrite IH.
Qed.

(** The message of the synthesized error names the needle and quotes the
    string conversion of the cause. *)
Lemma searchFailed_message needle cause :
  exists message,
    searchFailed needle cause = ErrorObject message
    /\ message = "Searching for " +:+ needle_id needle
                 +:+ " failed. Reason: '" +:+ toString cause +:+ "'"
    /\ contains message (needle_id needle)
    /\ contains message "failed. Reason:"
    /\ contains message (toString cause).
Proof.
  eexists. split; [reflexivity|]. split; [reflexivity|]. split_and!.
  - by exists "Searching for ", (" failed. Reason: '" +:+ toString cause +:+ "'").
  - exists ("Searching for " +:+ needle_id needle +:+ " "),
      (" '" +:+ toString cause +:+ "'").
    by rewrite !append_assoc.
  - exists ("Searching for " +:+ needle_id needle +:+ " failed. Reason: '"), "'".
    by rewrite !append_assoc.
Qed.

(** *** The hook registry *)

Lemma on_run needle callback s :
  on (Is needle) callback s =
  (Resolved tt,
   mkState
     (mkScreen (config (this s))
        (<[ref needle := registeredHooks (this s) needle ++ [callback]]>
           (findHooks (this s))))
     (world s),
   [Log Info
      (RegisteredCallback (needle_id needle)
         (length (registeredHooks (this s) needle) + 1))]).
Proof. done. Qed.

Lemma register_run needle callbacks s :
  exists s' evs,
    register needle callbacks s = (Resolved tt, s', evs)
    /\ registeredHooks (this s') needle
       = registeredHooks (this s) needle ++ callbacks
    /\ (callbacks <> [] ->
        findHooks (this s') !! ref needle
        = Some (registeredHooks (this s) needle ++ callbacks))
    /\ (forall r, r <> ref needle ->
          findHooks (this s') !! r = findHooks (this s) !! r)
    /\ config (this s') = config (this s)
    /\ world s' = world s
    /\ hookCalls evs = [].
Proof.
  revert s. induction callbacks as [|cb callbacks IH]; intros s.
  - exists s, []. split_and!; try done. by rewrite app_nil_r.
  - destruct (IH (mkState
                    (mkScreen (config (this s))
                       (<[ref needle :=
                            registeredHooks (this s) needle ++ [cb]]>
                          (findHooks (this s))))
                    (world s)))
      as (s' & evs & Hrun & Hhooks & Hsome & Hother & Hconfig & Hworld & Hcalls).
    unfold registeredHooks in Hhooks, Hsome. simpl in *.
    rewrite lookup_insert_eq in Hhooks, Hsome. simpl in *.
    rewrite <- app_assoc in Hhooks, Hsome. simpl in *.
    eexists s', _. split_and!.
    + unfold register. simpl.
      eapply bind_resolved; [apply on_run|exact Hrun].
    + exact Hhooks.
    + intros _. destruct callbacks as [|cb2 callbacks].
      * unfold register in Hrun. simpl in Hrun. unfold ret in Hrun.
        simplify_eq. simpl. by rewrite lookup_insert_eq.
      * by apply Hsome.
    + intros r Hr. rewrite Hother by done. by rewrite lookup_insert_ne.
    + done.
    + done.
    + done.
Qed.

Lemma hooksLoop_no_failure {A} hooks (mk : A -> Target) xs s u s' evs :
  for_of hooks (fun hook => targetLoop hook mk xs) s = (Resolved u, s', evs) ->
  hookFailures evs = [].
Proof.
  revert s evs. induction hooks as [|h hooks IH]; intros s evs H; simpl in H.
  - unfold ret in H. by simplify_eq.
  - apply bind_inv in H as [(a & s1 & t1 & t2 & H1 & H2 & ->)|(e & _ & ?)];
      [|done].
    apply IH in H2. rewrite hookFailures_app, H2, app_nil_r. clear H2 IH.
    revert s t1 H1. induction xs as [|x xs IHx]; intros s t1 H1; simpl in H1.
    + unfold ret in H1. by simplify_eq.
    + unfold bind at 1 in H1. rewrite invoke_step in H1.
      destruct (hook_call env h (mk x) s) as [[[]|e] s2]; [|done].
      destruct (targetLoop h mk xs s2) as [[o3 s3] t3] eqn:Hrest.
      simplify_eq. simpl. by eapply IHx.
Qed.

(** *** Saving an image *)

Lemma saveImage_run image fileName fileFormat filePath prefix postfix s :
  saveImage env image fileName fileFormat filePath prefix postfix s =
  let outputPath :=
    generateOutputPath fileName filePath postfix prefix fileFormat in
  match imageWriter_store env image outputPath (world s) with
  | (Resolved u, w) =>
      (Resolved outputPath, mkState (this s) w,
       [Log Info (WritingImageTo outputPath);
        Store image outputPath (Resolved u);
        Log Debug FileWritten])
  | (Rejected e, w) =>
      (Rejected e, mkState (this s) w,
       [Log Info (WritingImageTo outputPath);
        Store image outputPath (Rejected e)])
  end.
Proof.
  unfold saveImage, bind, log, emit, provider, ret. simpl.
  by destruct (imageWriter_store env image _ (world s)) as [[u|e] w].
Qed.

Lemma generateOutputPath_plain fileName path type :
  generateOutputPath fileName path "" "" type
  = join path (basename fileName) +:+ "." +:+ extension type.
Proof.
  unfold generateOutputPath, join. by rewrite !append_assoc.
Qed.

Lemma cutAtLast_plain sep name :
  (sep = "/"%char \/ sep = "."%char) ->
  plain name = true -> cutAtLast sep name = None.
Proof.
  intros Hsep. induction name as [|c name IH]; [done|].
  simpl. intros [[Hslash Hdot]%andb_prop Hrest]%andb_prop.
  rewrite (IH Hrest).
  destruct Hsep as [->| ->];
    [by destruct (Ascii.eqb c "/")|by destruct (Ascii.eqb c ".")].
Qed.

(** A plain name is its own basename, and the basename of a plain name
    followed by a dot and a plain extension is the name. *)
Lemma basename_plain name : plain name = true -> basename name = name.
Proof.
  intros Hname. unfold basename.
  by rewrite (cutAtLast_plain "/" name (or_introl eq_refl) Hname),
       (cutAtLast_plain "." name (or_intror eq_refl) Hname).
Qed.

Lemma cutAtLast_dot name ext :
  plain name = true -> plain ext = true ->
  cutAtLast "." (name +:+ "." +:+ ext) = Some (name, ext)
  /\ cutAtLast "/" (name +:+ "." +:+ ext) = None.
Proof.
  intros Hname Hext. induction name as [|c name IH].
  - change (cutAtLast "." (String "." ext) = Some ("", ext)
            /\ cutAtLast "/" (String "." ext) = None).
    simpl.
    by rewrite (cutAtLast_plain "/" ext (or_introl eq_refl) Hext),
         (cutAtLast_plain "." ext (or_intror eq_refl) Hext).
  - simpl in Hname.
    apply andb_prop in Hname as [[Hslash Hdot]%andb_prop Hrest].
    destruct (IH Hrest) as [IH1 IH2].
    change (cutAtLast "." (String c (name +:+ "." +:+ ext))
            = Some (String c name, ext)
            /\ cutAtLast "/" (String c (name +:+ "." +:+ ext)) = None).
    simpl. rewrite IH1, IH2. split; [done|].
    by destruct (Ascii.eqb c "/").
Qed.

Lemma basename_extension name ext :
  plain name = true -> name <> "" -> plain ext = true ->
  basename (name +:+ "." +:+ ext) = name.
Proof.
  intros Hname Hfull Hext. unfold basename.
  destruct (cutAtLast_dot name ext Hname Hext) as [Hdot Hslash].
  rewrite Hslash, Hdot. by destruct name.
Qed.

(** *** Searching for a needle that has no hooks *)

(** The two runs again, for instances whose registry has nothing for the
    needle: the hook loop does nothing, and the instance is left as it
    was. *)
Lemma find_try_region_bare needle params s :
  isWindowQuery needle = false ->
  registeredHooks (this s) needle = [] ->
  find_try env needle params s =
  match getFindParameters env params s with
  | (Rejected e, s1, t1) => (Rejected e, s1, t1)
  | (Resolved (minMatch, screen, search, img), s1, t1) =>
      match createMatchRequest env needle search minMatch img params with
      | Rejected e => (Rejected e, s1, t1)
      | Resolved req =>
          match validateSearchRegion env search screen with
          | Rejected e => (Rejected e, s1, t1)
          | Resolved _ =>
              match finder_findMatch env req (world s1) with
              | (Rejected e, w) =>
                  (Rejected e, mkState (this s) w,
                   t1 ++ [Log Debug SearchRegionIsValid;
                          FindMatch req (Rejected e)])
              | (Resolved found, w) =>
                  let region := resultRegionOf search found in
                  (Resolved
                     (if autoHighlight (config (this s))
                      then ReturnPromise (highlight env (Direct (Is region)))
                      else ReturnValue (RegionResult region)),
                   mkState (this s) w,
                   t1 ++ Log Debug SearchRegionIsValid
                      :: FindMatch req (Resolved found)
                      :: Log Debug (FoundMatch found)
                      :: Log Debug (HooksTriggeredForMatch 0)
                      :: Log Info (MatchIsLocatedAt region)
                      :: (if autoHighlight (config (this s))
                          then [Log Debug AutohighlightIsEnabled]
                          else []))
              end
          end
      end
  end.
Proof.
  intros Hw Hnone. rewrite find_try_region_run by done.
  rewrite getFindParameters_run. cbv zeta.
  destruct (screen_screenSize env (world s)) as [[screen|e] w1]; [|done].
  destruct (searchRegionOf params screen) as [search|e]; [|done].
  destruct (screen_grabScreenRegion env search w1) as [[img|e] w2]; [|done].
  destruct (createMatchRequest env needle search _ img params) as [req|e];
    [|done].
  destruct (validateSearchRegion env search screen) as [[]|e]; [|done].
  simpl.
  destruct (finder_findMatch env req w2) as [[found|e] w3]; [|done].
  by rewrite Hnone.
Qed.

Lemma findAll_try_region_bare needle params s :
  isWindowQuery needle = false ->
  registeredHooks (this s) needle = [] ->
  findAll_try env needle params s =
  match getFindParameters env params s with
  | (Rejected e, s1, t1) => (Rejected e, s1, t1)
  | (Resolved (minMatch, screen, search, img), s1, t1) =>
      match createMatchRequest env needle search minMatch img params with
      | Rejected e => (Rejected e, s1, t1)
      | Resolved req =>
          match validateSearchRegion env search screen with
          | Rejected e => (Rejected e, s1, t1)
          | Resolved _ =>
              match finder_findMatches env req (world s1) with
              | (Rejected e, w) =>
                  (Rejected e, mkState (this s) w,
                   t1 ++ [Log Debug SearchRegionIsValid;
                          FindMatches req (Rejected e)])
              | (Resolved found, w) =>
                  let regions := map (resultRegionOf search) found in
                  if autoHighlight (config (this s)) then
                    match startHighlights env
                            (highlightDurationMs (config (this s)))
                            (highlightOpacity (config (this s)))
                            regions w with
                    | (t3, w3) =>
                        (Resolved (map RegionResult regions),
                         mkState (this s) w3,
                         t1 ++ Log Debug SearchRegionIsValid
                            :: FindMatches req (Resolved found)
                            :: Log Debug
                                 (HooksTriggeredForMatches 0 (length found))
                            :: map (fun m =>
                                      Log Info
                                        (MatchIsLocatedAt
                                           (resultRegionOf search m)))
                                 found
                            ++ Log Debug AutohighlightIsEnabled
                            :: map Detached regions ++ t3)
                    end
                  else
                    (Resolved (map RegionResult regions),
                     mkState (this s) w,
                     t1 ++ Log Debug SearchRegionIsValid
                        :: FindMatches req (Resolved found)
                        :: Log Debug
                             (HooksTriggeredForMatches 0 (length found))
                        :: map (fun m =>
                                  Log Info
                                    (MatchIsLocatedAt
                                       (resultRegionOf search m)))
                             found)
              end
          end
      end
  end.
Proof.
  intros Hw Hnone. rewrite findAll_try_region_run by done.
  rewrite getFindParameters_run. cbv zeta.
  destruct (screen_screenSize env (world s)) as [[screen|e] w1]; [|done].
  destruct (searchRegionOf params screen) as [search|e]; [|done].
  destruct (screen_grabScreenRegion env search w1) as [[img|e] w2]; [|done].
  destruct (createMatchRequest env needle search _ img params) as [req|e];
    [|done].
  destruct (validateSearchRegion env search screen) as [[]|e]; [|done].
  simpl.
  destruct (finder_findMatches env req w2) as [[found|e] w3]; [|done].
  by rewrite Hnone.
Qed.

Lemma find_without_hooks searchInput needle params s o s' evs :
  awaited searchInput = Resolved (Is needle) ->
  registeredHooks (this s) needle = [] ->
  find env searchInput params s = (o, s', evs) ->
  hookCalls evs = []
  /\ this s' = this s
  /\ forall scr,
       config scr = config (this s) ->
       registeredHooks scr needle = [] ->
       find env searchInput params (mkState scr (world s))
       = (o, mkState scr (world s'), evs).
Proof.
  intros Hin Hnone H.
  assert (forall scr,
    config scr = config (this s) ->
    registeredHooks scr needle = [] ->
    find env searchInput params (mkState scr (world s))
    = (o, mkState scr (world s'), evs) /\ hookCalls evs = []
      /\ this s' = this s) as Hall.
  { intros scr Hconfig Hnone'.
    rewrite (find_run _ needle) in H |- * by done.
    destruct (isWindowQuery needle) eqn:Hw.
    - rewrite find_try_window_run in H |- * by done.
      simpl. rewrite Hnone in H. rewrite Hnone'. simpl in *. unfold ret in *.
      split_run H; simplify_eq; done.
    - rewrite find_try_region_bare, getFindParameters_run in H |- * by done.
      simpl in H |- *. rewrite Hconfig.
      split_run H; simplify_eq; simpl in *; replay; try done;
        match goal with
        | Hh : highlight _ _ _ = _ |- _ =>
            erewrite highlight_run in Hh |- * by done;
            simpl in Hh |- *; rewrite Hconfig; split_run Hh; by simplify_eq
        end. }
  destruct (Hall (this s) eq_refl Hnone) as (_ & Hcalls & Hthis).
  split_and!; [done|done|].
  intros scr Hconfig Hnone'. by destruct (Hall scr Hconfig Hnone').
Qed.

Lemma findAll_without_hooks searchInput needle params s o s' evs :
  awaited searchInput = Resolved (Is needle) ->
  registeredHooks (this s) needle = [] ->
  findAll env searchInput params s = (o, s', evs) ->
  hookCalls evs = []
  /\ this s' = this s
  /\ forall scr,
       config scr = config (this s) ->
       registeredHooks scr needle = [] ->
       findAll env searchInput params (mkState scr (world s))
       = (o, mkState scr (world s'), evs).
Proof.
  intros Hin Hnone H.
  assert (forall scr,
    config scr = config (this s) ->
    registeredHooks scr needle = [] ->
    findAll env searchInput params (mkState scr (world s))
    = (o, mkState scr (world s'), evs) /\ hookCalls evs = []
      /\ this s' = this s) as Hall.
  { intros scr Hconfig Hnone'.
    rewrite (findAll_run _ needle) in H |- * by done.
    destruct (isWindowQuery needle) eqn:Hw.
    - rewrite findAll_try_window_run in H |- * by done.
      simpl. rewrite Hnone in H. rewrite Hnone'. simpl in *. unfold ret in *.
      split_run H; simplify_eq; done.
    - rewrite findAll_try_region_bare, getFindParameters_run in H |- *
        by done.
      simpl in H |- *. rewrite Hconfig.
      split_run H; simplify_eq; simpl in *; replay;
        repeat match goal with
        | Hh : startHighlights _ _ _ _ _ = _ |- _ =>
            apply startHighlights_quiet in Hh as [Hh _]
        end;
        rewrite ?hookCalls_app, ?hookCalls_logs; simpl;
        rewrite ?hookCalls_app, ?hookCalls_detached; done. }
  destruct (Hall (this s) eq_refl Hnone) as (_ & Hcalls & Hthis).
  split_and!; [done|done|].
  intros scr Hconfig Hnone'. by destruct (Hall scr Hconfig Hnone').
Qed.

End ScreenFacts.

(** ** The calls of a run *)

Section CallFacts.
Context {World : Type} (env : Environment World).
Implicit Types (s : State World) (evs : list Event).

Local Abbreviation hookLoop hooks target :=
  (for_of hooks (fun hook =>
     log Debug ExecutingHook ;;; invoke env hook target)).

Local Abbreviation targetLoop hook mk xs :=
  (for_of xs (fun x => log Debug ExecutingHook ;;; invoke env hook (mk x))).

Lemma calls_app evs1 evs2 : calls (evs1 ++ evs2) = calls evs1 ++ calls evs2.
Proof.
  induction evs1 as [|ev evs1 IH]; [done|].
  destruct ev; simpl; by rewrite ?IH.
Qed.

Lemma calls_logs {A} (f : A -> LogMessage) l (xs : list A) :
  calls (map (fun x => Log l (f x)) xs) = [].
Proof. by induction xs. Qed.

Lemma calls_detached regions : calls (map Detached regions) = map Detached regions.
Proof. induction regions as [|r regions IH]; [done|]. simpl. by rewrite IH. Qed.

(** The calls of the highlights that were started: one per region, in
    order. *)
Lemma startHighlights_calls durationMs opacity regions w evs w' :
  startHighlights env durationMs opacity regions w = (evs, w') ->
  exists outs,
    length outs = length regions
    /\ calls evs
       = zip_with
           (fun region out =>
              HighlightScreenRegion region durationMs opacity out)
           regions outs.
Proof.
  revert w evs. induction regions as [|region regions IH]; intros w evs H;
    simpl in H.
  - simplify_eq. by exists [].
  - destruct (screen_highlightScreenRegion env region _ _ w) as [out w1].
    destruct (startHighlights env _ _ regions w1) as [t2 w2] eqn:Hrest.
    simplify_eq. apply IH in Hrest as (outs & Hlen & Hcalls).
    exists (out :: outs). simpl. by rewrite Hlen, Hcalls.
Qed.

(** The calls of the hook loop: one per hook, in order, up to and
    including the first that throws. *)
Lemma hookLoop_events hooks target s o s' evs :
  hookLoop hooks target s = (o, s', evs) ->
  match o with
  | Resolved _ =>
      calls evs = map (fun h => HookCall h target (Resolved tt)) hooks
  | Rejected e =>
      exists before hook after,
        hooks = before ++ hook :: after
        /\ calls evs
           = map (fun h => HookCall h target (Resolved tt)) before
             ++ [HookCall hook target (Rejected e)]
  end.
Proof.
  revert s evs. induction hooks as [|h hooks IH]; intros s evs H; simpl in H.
  - unfold ret in H. by simplify_eq.
  - unfold bind at 1 in H. rewrite invoke_step in H.
    destruct (hook_call env h target s) as [[[]|e] s1] eqn:Hcall.
    + destruct (hookLoop hooks target s1) as [[o2 s2] t2] eqn:Hrest.
      simplify_eq. apply IH in Hrest. simpl. destruct o.
      * by rewrite Hrest.
      * destruct Hrest as (before & hook & after & -> & ->).
        by exists (h :: before), hook, after.
    + simplify_eq. by exists [], h, hooks.
Qed.

Lemma targetLoop_events {A} hook (mk : A -> Target) xs s u s' evs :
  targetLoop hook mk xs s = (Resolved u, s', evs) ->
  calls evs = map (fun x => HookCall hook (mk x) (Resolved tt)) xs.
Proof.
  revert s evs. induction xs as [|x xs IH]; intros s evs H; simpl in H.
  - unfold ret in H. by simplify_eq.
  - unfold bind at 1 in H. rewrite invoke_step in H.
    destruct (hook_call env hook (mk x) s) as [[[]|e] s1] eqn:Hcall; [|done].
    destruct (targetLoop hook mk xs s1) as [[o2 s2] t2] eqn:Hrest.
    simplify_eq. apply IH in Hrest. simpl. by rewrite Hrest.
Qed.

Lemma hooksLoop_events {A} hooks (mk : A -> Target) xs s u s' evs :
  for_of hooks (fun hook => targetLoop hook mk xs) s = (Resolved u, s', evs) ->
  calls evs
  = flat_map (fun hook => map (fun x => HookCall hook (mk x) (Resolved tt)) xs)
      hooks.
Proof.
  revert s evs. induction hooks as [|h hooks IH]; intros s evs H; simpl in H.
  - unfold ret in H. by simplify_eq.
  - apply bind_inv in H as [(a & s1 & t1 & t2 & H1 & H2 & ->)|(e & _ & ?)];
      [|done].
    destruct a. apply targetLoop_events in H1. apply IH in H2.
    by rewrite calls_app, H1, H2.
Qed.

Lemma hooksLoop_nothing {A} hooks (mk : A -> Target) s :
  for_of hooks (fun hook => targetLoop hook mk []) s = (Resolved tt, s, []).
Proof.
  induction hooks as [|h hooks IH]; [done|].
  simpl. eapply eq_trans; [eapply bind_resolved; [reflexivity|apply IH]|done].
Qed.

(** The registry after [on(needle, cb1); ...; on(needle, cbk)]. *)
Lemma register_state needle callbacks s :
  (register needle callbacks s).1 =
  (Resolved tt,
   mkState
     (mkScreen (config (this s))
        (match callbacks with
         | [] => findHooks (this s)
         | _ => <[ref needle := registeredHooks (this s) needle ++ callbacks]>
                  (findHooks (this s))
         end))
     (world s)).
Proof.
  revert s. induction callbacks as [|cb callbacks IH]; intros s.
  - by destruct s as [[cfg hooks] w].
  - specialize (IH (mkState
                      (mkScreen (config (this s))
                         (<[ref needle :=
                              registeredHooks (this s) needle ++ [cb]]>
                            (findHooks (this s))))
                      (world s))).
    destruct (register needle callbacks _) as [[o s1] t1] eqn:Hrest.
    change (register needle (cb :: callbacks) s)
      with (bind (on (Is needle) cb) (fun _ => register needle callbacks) s).
    rewrite (bind_resolved _ _ s _ _ _ _ _ _ (on_run needle cb s) Hrest).
    simpl in IH. simplify_eq. simpl. f_equal. f_equal. f_equal.
    destruct callbacks as [|cb2 callbacks]; [done|].
    unfold registeredHooks at 1. simpl. rewrite lookup_insert_eq. simpl.
    by rewrite insert_insert_eq, <- app_assoc.
Qed.

Lemma elem_of_calls ev evs :
  ev ∈ evs -> (forall l m, ev <> Log l m) -> ev ∈ calls evs.
Proof.
  intros Hin Hev. induction Hin as [ev evs|ev other evs Hin IH].
  - destruct ev; simpl;
      first [apply list_elem_of_here | exfalso; by eapply Hev].
  - destruct other; simpl;
      first [apply list_elem_of_further, IH, Hev | apply IH, Hev].
Qed.

(** The hook loop makes no other call than hook calls. *)
Lemma hookLoop_only_hooks hooks target s o s' evs ev :
  hookLoop hooks target s = (o, s', evs) ->
  ev ∈ evs ->
  (exists l m, ev = Log l m) \/ (exists h t out, ev = HookCall h t out).
Proof.
  intros Hloop Hin.
  destruct ev; try (by left; eexists _, _); try (by right; eexists _, _, _);
    exfalso;
    (apply elem_of_calls in Hin; [|done]);
    apply hookLoop_events in Hloop;
    (destruct o;
     [ rewrite Hloop in Hin
     | destruct Hloop as (before & hook & after & _ & Hcalls);
       rewrite Hcalls in Hin; apply elem_of_app in Hin as [Hin|Hin];
       [|by apply list_elem_of_singleton in Hin] ]);
    apply list_elem_of_fmap in Hin as (h & Heq & _); done.
Qed.

End CallFacts.

(** ** Relations kept along a run

    A relation that holds of the single steps (a pure step, a log line, a
    provider call, a hook call, a highlight that is started and left
    alone) and is kept by sequencing holds of every run of the methods. *)

Section Invariants.
Context {World : Type} (env : Environment World).
Variable R : State World -> bool -> State World -> list Event -> Prop.
Hypothesis R_pure : forall s b, R s b s [].
Hypothesis R_seq : forall s s1 s2 b t1 t2,
  R s true s1 t1 -> R s1 b s2 t2 -> R s b s2 (t1 ++ t2).
Hypothesis R_log : forall s l m, R s true s [Log l m].
Hypothesis R_detached : forall s region, R s true s [Detached region].
Hypothesis R_call : forall s w ev b,
  outcomeOf ev = Some b -> hookCalls [ev] = [] ->
  R s b (mkState (this s) w) [ev].
Hypothesis R_hook : forall s hook target,
  R s (succeeded (hook_call env hook target s).1)
    (hook_call env hook target s).2
    [HookCall hook target (hook_call env hook target s).1].
Hypothesis R_started : forall s region,
  R s true (highlight env (Direct (Is region)) s).1.2
    (highlight env (Direct (Is region)) s).2.

Implicit Types (s : State World) (evs : list Event).

Lemma holds_ret {A} (Q : A -> Prop) a : Q a -> holds R Q (ret a).
Proof using R_pure.
  intros HQ s o s' evs H. unfold ret in H. simplify_eq.
  split; [apply R_pure|]. intros ? [= <-]. exact HQ.
Qed.

Lemma holds_throw {A} (Q : A -> Prop) e : holds R Q (throw e).
Proof using R_pure.
  intros s o s' evs H. unfold throw in H. simplify_eq.
  split; [apply R_pure|done].
Qed.

Lemma holds_settle {A} (Q : A -> Prop) (o : Outcome A) :
  (forall a, o = Resolved a -> Q a) -> holds R Q (settle o).
Proof using R_pure.
  intros HQ s o' s' evs H. unfold settle in H. simplify_eq.
  split; [apply R_pure|exact HQ].
Qed.

Lemma holds_await {A} (x : Awaitable A) : holds R (fun _ => True) (await x).
Proof using R_pure.
  destruct x; [by apply holds_ret|by apply holds_settle].
Qed.

Lemma holds_get_this : holds R (fun _ => True) (@get_this World).
Proof using R_pure.
  intros s o s' evs H. unfold get_this in H. simplify_eq.
  split; [apply R_pure|done].
Qed.

Lemma holds_log l m : holds R (fun _ => True) (log l m).
Proof using R_log.
  intros s o s' evs H. unfold log, emit in H. simplify_eq.
  split; [apply R_log|done].
Qed.

Lemma holds_detached region :
  holds R (fun _ => True) (emit (Detached region)).
Proof using R_detached.
  intros s o s' evs H. unfold emit in H. simplify_eq.
  split; [apply R_detached|done].
Qed.

Lemma holds_provider {A} (f : World -> Outcome A * World)
    (ev : Outcome A -> Event) :
  (forall o, outcomeOf (ev o) = Some (succeeded o)
             /\ hookCalls [ev o] = []) ->
  holds R (fun _ => True) (provider f ev).
Proof using R_call.
  intros Hev s o s' evs H. unfold provider in H.
  destruct (f (world s)) as [o1 w]. simplify_eq.
  split; [by apply R_call; apply Hev|done].
Qed.

Lemma holds_invoke hook target :
  holds R (fun _ => True) (invoke env hook target).
Proof using R_hook.
  intros s o s' evs H. unfold invoke in H.
  pose proof (R_hook s hook target) as Hstep.
  destruct (hook_call env hook target s) as [o1 s1]. simplify_eq.
  split; [exact Hstep|done].
Qed.

Lemma holds_started region :
  holds R (fun _ => True) (unawaited (highlight env (Direct (Is region)))).
Proof using R_started.
  intros s o s' evs H. unfold unawaited in H.
  pose proof (R_started s region) as Hstep.
  destruct (highlight env (Direct (Is region)) s) as [[o1 s1] t1].
  simplify_eq. split; [exact Hstep|done].
Qed.

Lemma holds_bind {A B} (P : A -> Prop) (Q : B -> Prop)
    (m : M World A) (k : A -> M World B) :
  holds R P m -> (forall a, P a -> holds R Q (k a)) -> holds R Q (bind m k).
Proof using R_seq.
  intros Hm Hk s o s' evs H. unfold bind in H.
  destruct (m s) as [[[a|e] s1] t1] eqn:Hrun.
  - destruct (Hm _ _ _ _ Hrun) as [HR HP].
    destruct (k a s1) as [[o2 s2] t2] eqn:Hrest. simplify_eq.
    destruct (Hk a (HP a eq_refl) _ _ _ _ Hrest) as [HR2 HQ].
    split; [by eapply R_seq|exact HQ].
  - destruct (Hm _ _ _ _ Hrun) as [HR _]. simplify_eq. by split.
Qed.

(** [try { body } catch (e) { throw wrap(e) }] *)
Lemma holds_rethrow {A} (Q : A -> Prop) (body : M World A)
    (wrap : Thrown -> Thrown) :
  holds R Q body -> holds R Q (try_catch body (fun e => throw (wrap e))).
Proof using Type.
  intros Hbody s o s' evs H. unfold try_catch, throw in H.
  destruct (body s) as [[[a|e] s1] t1] eqn:Hrun.
  - simplify_eq. by apply Hbody.
  - destruct (Hbody _ _ _ _ Hrun) as [HR _]. simplify_eq.
    rewrite app_nil_r. by split.
Qed.

Lemma holds_for_of {A} (xs : list A) (body : A -> M World unit) :
  (forall x, holds R (fun _ => True) (body x)) ->
  holds R (fun _ => True) (for_of xs body).
Proof using R_pure R_seq.
  intros Hbody. induction xs as [|x xs IH]; simpl.
  - by apply holds_ret.
  - eapply holds_bind; [apply Hbody|]. intros _ _. exact IH.
Qed.

Lemma holds_map_of {A B} (xs : list A) (f : A -> M World B) :
  (forall x, holds R (fun _ => True) (f x)) ->
  holds R (fun _ => True) (map_of xs f).
Proof using R_pure R_seq.
  intros Hf. induction xs as [|x xs IH]; simpl.
  - by apply holds_ret.
  - eapply holds_bind; [apply Hf|]. intros y _.
    eapply holds_bind; [exact IH|]. intros ys _. by apply holds_ret.
Qed.

Lemma holds_getHooksForInput input :
  holds R (fun _ => True) (getHooksForInput (World:=World) input).
Proof using R_pure R_seq.
  unfold getHooksForInput.
  eapply holds_bind; [apply holds_get_this|]. intros scr _.
  destruct (isImage input || isTextQuery input); [by apply holds_ret|].
  destruct (isWindowQuery input); by apply holds_ret.
Qed.

Lemma holds_hookLoop hooks target :
  holds R (fun _ => True)
    (for_of hooks (fun hook =>
       log Debug ExecutingHook ;;; invoke env hook target)).
Proof using R_pure R_seq R_log R_hook.
  apply holds_for_of. intros hook.
  eapply holds_bind; [apply holds_log|]. intros _ _. apply holds_invoke.
Qed.

Lemma holds_hooks {A} hooks (mk : A -> Target) (xs : list A) :
  holds R (fun _ => True)
    (for_of hooks (fun hook =>
       for_of xs (fun x =>
         log Debug ExecutingHook ;;; invoke env hook (mk x)))).
Proof using R_pure R_seq R_log R_hook.
  apply holds_for_of. intros hook. apply holds_for_of. intros x.
  eapply holds_bind; [apply holds_log|]. intros _ _. apply holds_invoke.
Qed.

Lemma holds_highlight regionToHighlight :
  holds R (fun _ => True) (highlight env regionToHighlight).
Proof using R_pure R_seq R_log R_call.
  unfold highlight.
  eapply holds_bind; [apply holds_await|]. intros [region|json|thrown] _;
    [|apply holds_throw|apply holds_throw].
  eapply holds_bind; [apply holds_get_this|]. intros scr _.
  eapply holds_bind; [apply holds_log|]. intros _ _.
  eapply holds_bind; [apply holds_provider; intros [?|?]; by split|].
  intros _ _. by apply holds_ret.
Qed.

Lemma holds_getFindParameters params :
  holds R (fun _ => True) (getFindParameters env params).
Proof using R_pure R_seq R_log R_call.
  unfold getFindParameters.
  eapply holds_bind; [apply holds_get_this|]. intros scr _.
  eapply holds_bind; [apply holds_provider; intros [?|?]; by split|].
  intros screenSize _.
  eapply holds_bind.
  { instantiate (1 := fun _ => True).
    destruct (params ≫= params_searchRegion);
      [apply holds_await|by apply holds_ret]. }
  intros searchRegion _.
  eapply holds_bind; [apply holds_provider; intros [?|?]; by split|].
  intros screenImage _.
  eapply holds_bind; [apply holds_log|]. intros _ _. by apply holds_ret.
Qed.

Lemma holds_find_try needle params :
  holds R (returnedHolds R) (find_try env needle params).
Proof using R_pure R_seq R_log R_call R_hook.
  unfold find_try. destruct (isWindowQuery needle).
  - eapply holds_bind; [apply holds_provider; intros [?|?]; by split|].
    intros windowHandle _.
    eapply holds_bind; [apply holds_getHooksForInput|]. intros registered _.
    eapply holds_bind; [apply holds_log|]. intros _ _.
    eapply holds_bind; [apply holds_hookLoop|].
    intros _ _. by apply holds_ret.
  - eapply holds_bind; [apply holds_getFindParameters|].
    intros [[[minMatch screenSize] searchRegion] screenImage] _.
    eapply holds_bind; [by apply (holds_settle (fun _ => True))|].
    intros matchRequest _.
    eapply holds_bind; [by apply (holds_settle (fun _ => True))|].
    intros _ _.
    eapply holds_bind; [apply holds_log|]. intros _ _.
    eapply holds_bind; [apply holds_provider; intros [?|?]; by split|].
    intros matchResult _.
    eapply holds_bind; [apply holds_log|]. intros _ _.
    eapply holds_bind; [apply holds_getHooksForInput|]. intros registered _.
    eapply holds_bind; [apply holds_log|]. intros _ _.
    eapply holds_bind; [apply holds_hookLoop|].
    intros _ _.
    eapply holds_bind; [apply holds_log|]. intros _ _.
    eapply holds_bind; [apply holds_get_this|]. intros scr _.
    destruct (autoHighlight (config scr)).
    + eapply holds_bind; [apply holds_log|]. intros _ _.
      apply holds_ret. simpl. apply holds_highlight.
    + by apply holds_ret.
Qed.

Lemma holds_find searchInput params :
  holds R (fun _ => True) (find env searchInput params).
Proof using R_pure R_seq R_log R_call R_hook.
  unfold find.
  eapply holds_bind; [apply holds_await|]. intros [needle|json|thrown] _;
    [|apply holds_throw|apply holds_throw].
  eapply holds_bind; [apply holds_rethrow, holds_find_try|].
  intros [v|p] Hp; simpl.
  - by apply holds_ret.
  - eapply holds_bind; [exact Hp|]. intros region _. by apply holds_ret.
Qed.

Lemma holds_findAll_try needle params :
  holds R (fun _ => True) (findAll_try env needle params).
Proof using R_pure R_seq R_log R_detached R_call R_hook R_started.
  unfold findAll_try. destruct (isWindowQuery needle).
  - eapply holds_bind; [apply holds_provider; intros [?|?]; by split|].
    intros matches _.
    eapply holds_bind; [apply holds_getHooksForInput|]. intros registered _.
    eapply holds_bind; [apply holds_log|]. intros _ _.
    eapply holds_bind; [apply holds_hooks|]. intros _ _.
    by apply holds_ret.
  - eapply holds_bind; [apply holds_getFindParameters|].
    intros [[[minMatch screenSize] searchRegion] screenImage] _.
    eapply holds_bind; [by apply (holds_settle (fun _ => True))|].
    intros matchRequest _.
    eapply holds_bind; [by apply (holds_settle (fun _ => True))|].
    intros _ _.
    eapply holds_bind; [apply holds_log|]. intros _ _.
    eapply holds_bind; [apply holds_provider; intros [?|?]; by split|].
    intros matchResults _.
    eapply holds_bind; [apply holds_getHooksForInput|]. intros registered _.
    eapply holds_bind; [apply holds_log|]. intros _ _.
    eapply holds_bind; [apply holds_hooks|]. intros _ _.
    eapply holds_bind.
    { apply holds_map_of. intros matchResult.
      eapply holds_bind; [apply holds_log|]. intros _ _. by apply holds_ret. }
    intros resultRegions _.
    eapply holds_bind; [apply holds_get_this|]. intros scr _.
    destruct (autoHighlight (config scr)); [|by apply holds_ret].
    eapply holds_bind; [apply holds_log|]. intros _ _.
    eapply holds_bind.
    { apply holds_for_of. intros region. apply holds_detached. }
    intros _ _.
    eapply holds_bind.
    { apply holds_for_of. intros region. apply holds_started. }
    intros _ _. by apply holds_ret.
Qed.

Lemma holds_findAll searchInput params :
  holds R (fun _ => True) (findAll env searchInput params).
Proof using R_pure R_seq R_log R_detached R_call R_hook R_started.
  unfold findAll.
  eapply holds_bind; [apply holds_await|]. intros [needle|json|thrown] _;
    [|apply holds_throw|apply holds_throw].
  apply holds_rethrow, holds_findAll_try.
Qed.

Lemma holds_saveImage image fileName fileFormat filePath prefix postfix :
  holds R (fun _ => True)
    (saveImage env image fileName fileFormat filePath prefix postfix).
Proof using R_pure R_seq R_log R_call.
  unfold saveImage.
  eapply holds_bind; [apply holds_log|]. intros _ _.
  eapply holds_bind; [apply holds_provider; intros [?|?]; by split|].
  intros _ _.
  eapply holds_bind; [apply holds_log|]. intros _ _. by apply holds_ret.
Qed.

Lemma holds_capture fileName fileFormat filePath prefix postfix :
  holds R (fun _ => True)
    (capture env fileName fileFormat filePath prefix postfix).
Proof using R_pure R_seq R_log R_call.
  unfold capture.
  eapply holds_bind; [apply holds_provider; intros [?|?]; by split|].
  intros [image|json|thrown] _; [|apply holds_throw|apply holds_throw].
  eapply holds_bind; [apply holds_log|]. intros _ _. apply holds_saveImage.
Qed.

Lemma holds_captureRegion fileName regionToCapture fileFormat filePath
    prefix postfix :
  holds R (fun _ => True)
    (captureRegion env fileName regionToCapture fileFormat filePath prefix
       postfix).
Proof using R_pure R_seq R_log R_call.
  unfold captureRegion.
  eapply holds_bind; [apply holds_await|]. intros [region|json|thrown] _;
    [|apply holds_throw|apply holds_throw].
  eapply holds_bind; [apply holds_log|]. intros _ _.
  eapply holds_bind; [apply holds_provider; intros [?|?]; by split|].
  intros [image|json|thrown] _; [|apply holds_throw|apply holds_throw].
  apply holds_saveImage.
Qed.

End Invariants.

(** ** The hook loops against the specification's wording

    The loops of [find] and [findAll] make the calls of [runHooks], with
    the same outcome, and leave the same state. *)

Section HookChain.
Context {World : Type} (env : Environment World).
Implicit Types (s : State World) (evs : list Event).

Local Abbreviation hookLoop hooks target :=
  (for_of hooks (fun hook =>
     log Debug ExecutingHook ;;; invoke env hook target)).

Local Abbreviation targetLoop hook mk xs :=
  (for_of xs (fun x => log Debug ExecutingHook ;;; invoke env hook (mk x))).

Lemma runHooks_app todo1 todo2 s :
  runHooks env (todo1 ++ todo2) s =
  match runHooks env todo1 s with
  | (Resolved _, s1, evs1) =>
      match runHooks env todo2 s1 with
      | (o, s2, evs2) => (o, s2, evs1 ++ evs2)
      end
  | (Rejected e, s1, evs1) => (Rejected e, s1, evs1)
  end.
Proof.
  revert s. induction todo1 as [|[hook target] todo1 IH]; intros s; simpl.
  - by destruct (runHooks env todo2 s) as [[o s2] evs2].
  - destruct (hook_call env hook target s) as [[u|e] s1]; [|done].
    rewrite IH.
    destruct (runHooks env todo1 s1) as [[[u1|e] s2] evs1]; [|done].
    by destruct (runHooks env todo2 s2) as [[o s3] evs2].
Qed.

(** The calls of the chain are hook calls, and other than the last they
    returned. *)
Lemma runHooks_events todo s o s' evs :
  runHooks env todo s = (o, s', evs) ->
  hookEvents evs = evs
  /\ calls evs = evs
  /\ hookCalls evs = take (length evs) todo
  /\ match o with
     | Resolved _ =>
         evs = map (fun '(hook, target) => HookCall hook target (Resolved tt))
                 todo
     | Rejected e =>
         exists before hook target after,
           todo = before ++ (hook, target) :: after
           /\ evs
              = map (fun '(hook, target) =>
                       HookCall hook target (Resolved tt)) before
                ++ [HookCall hook target (Rejected e)]
     end.
Proof.
  revert s evs. induction todo as [|[hook target] todo IH]; intros s evs H;
    simpl in H.
  - by simplify_eq.
  - destruct (hook_call env hook target s) as [[[]|e] s1].
    + destruct (runHooks env todo s1) as [[o2 s2] t2] eqn:Hrest.
      simplify_eq. apply IH in Hrest as (Hhooks & Hcalls & Htake & Hshape).
      simpl. rewrite Hhooks, Hcalls, Htake. split_and!; [done|done|done|].
      destruct o.
      * by rewrite Hshape.
      * destruct Hshape as (before & h & t & after & -> & ->).
        by exists ((hook, target) :: before), h, t, after.
    + simplify_eq. split_and!; [done|done|done|].
      by exists [], hook, target, todo.
Qed.

(** A call of the chain that threw is what the chain ended with. *)
Lemma runHooks_failure todo s o s' evs ev e :
  runHooks env todo s = (o, s', evs) ->
  ev ∈ evs -> rejectedWith ev = Some e -> o = Rejected e.
Proof.
  intros H Hin Hev. apply runHooks_events in H as (_ & _ & _ & Hshape).
  destruct o.
  - rewrite Hshape in Hin.
    apply list_elem_of_fmap in Hin as ([h t] & -> & _). done.
  - destruct Hshape as (before & h & t & after & _ & ->).
    apply elem_of_app in Hin as [Hin|Hin].
    + apply list_elem_of_fmap in Hin as ([h' t'] & -> & _). done.
    + apply list_elem_of_singleton in Hin as ->. simpl in Hev. by simplify_eq.
Qed.

(** The events of a loop that makes the calls of the chain: log lines
    and hook calls; one that threw is what the loop ended with, and a
    loop that failed has one that threw. *)
Lemma chain_member todo s o s' evs ev :
  runHooks env todo s = (o, s', calls evs) ->
  ev ∈ evs ->
  (exists l m, ev = Log l m) \/ (exists h t out, ev = HookCall h t out).
Proof.
  intros H Hin.
  assert ((exists l m, ev = Log l m) \/ forall l m, ev <> Log l m)
    as [?|Hlog] by (destruct ev; first [by left; eexists _, _|by right]);
    [by left|].
  right. apply elem_of_calls in Hin; [|done].
  apply runHooks_events in H as (_ & _ & _ & Hshape).
  destruct o.
  - rewrite Hshape in Hin.
    apply list_elem_of_fmap in Hin as ([h t] & -> & _). by eexists _, _, _.
  - destruct Hshape as (before & h & t & after & _ & Heq).
    rewrite Heq in Hin. apply elem_of_app in Hin as [Hin|Hin].
    + apply list_elem_of_fmap in Hin as ([h' t'] & -> & _).
      by eexists _, _, _.
    + apply list_elem_of_singleton in Hin as ->. by eexists _, _, _.
Qed.

Lemma chain_failure todo s o s' evs ev cause :
  runHooks env todo s = (o, s', calls evs) ->
  ev ∈ evs -> rejectedWith ev = Some cause -> o = Rejected cause.
Proof.
  intros H Hin Hev. eapply runHooks_failure; [exact H| |exact Hev].
  apply elem_of_calls; [done|]. by intros l m ->.
Qed.

Lemma chain_rejected todo s s' evs cause :
  runHooks env todo s = (Rejected cause, s', calls evs) ->
  exists ev,
    ev ∈ evs /\ rejectedWith ev = Some cause /\ isHighlightCall ev = false.
Proof.
  intros H. apply runHooks_events in H as (_ & _ & _ & Hshape).
  destruct Hshape as (before & h & t & after & _ & Heq).
  exists (HookCall h t (Rejected cause)). split; [|done].
  assert (HookCall h t (Rejected cause) ∈ calls evs) as Hin.
  { rewrite Heq. apply elem_of_app. right. apply list_elem_of_here. }
  clear Heq. induction evs as [|ev evs IH]; [by apply elem_of_nil in Hin|].
  destruct ev; simpl in Hin;
    first [ apply list_elem_of_further, IH, Hin
          | apply elem_of_cons in Hin as [<-|Hin];
            [apply list_elem_of_here|apply list_elem_of_further, IH, Hin] ].
Qed.

Lemma hookLoop_runHooks hooks target s o s' evs :
  hookLoop hooks target s = (o, s', evs) ->
  runHooks env (map (fun hook => (hook, target)) hooks) s
  = (o, s', calls evs).
Proof.
  revert s evs. induction hooks as [|h hooks IH]; intros s evs H; simpl in H.
  - unfold ret in H. by simplify_eq.
  - unfold bind at 1 in H. rewrite invoke_step in H. simpl.
    destruct (hook_call env h target s) as [[[]|e] s1] eqn:Hcall.
    + destruct (hookLoop hooks target s1) as [[o2 s2] t2] eqn:Hrest.
      simplify_eq. apply IH in Hrest. by rewrite Hrest.
    + by simplify_eq.
Qed.

Lemma targetLoop_runHooks {A} hook (mk : A -> Target) xs s o s' evs :
  targetLoop hook mk xs s = (o, s', evs) ->
  runHooks env (map (fun x => (hook, mk x)) xs) s = (o, s', calls evs).
Proof.
  revert s evs. induction xs as [|x xs IH]; intros s evs H; simpl in H.
  - unfold ret in H. by simplify_eq.
  - unfold bind at 1 in H. rewrite invoke_step in H. simpl.
    destruct (hook_call env hook (mk x) s) as [[[]|e] s1] eqn:Hcall.
    + destruct (targetLoop hook mk xs s1) as [[o2 s2] t2] eqn:Hrest.
      simplify_eq. apply IH in Hrest. by rewrite Hrest.
    + by simplify_eq.
Qed.

Lemma hooksLoop_runHooks {A} hooks (mk : A -> Target) xs s o s' evs :
  for_of hooks (fun hook => targetLoop hook mk xs) s = (o, s', evs) ->
  runHooks env
    (flat_map (fun hook => map (fun x => (hook, mk x)) xs) hooks) s
  = (o, s', calls evs).
Proof.
  revert s evs. induction hooks as [|h hooks IH]; intros s evs H; simpl in H.
  - unfold ret in H. by simplify_eq.
  - simpl. rewrite runHooks_app.
    apply bind_inv in H as [(a & s1 & t1 & t2 & H1 & H2 & ->)|(e & H1 & ->)].
    + apply targetLoop_runHooks in H1. apply IH in H2.
      by rewrite H1, H2, calls_app.
    + apply targetLoop_runHooks in H1. by rewrite H1.
Qed.

End HookChain.

(** ** From the finder's answer to the end of the search *)

Section Found.
Context {World : Type} (env : Environment World).
Implicit Types (s : State World) (evs : list Event).

Lemma hookEvents_app evs1 evs2 :
  hookEvents (evs1 ++ evs2) = hookEvents evs1 ++ hookEvents evs2.
Proof.
  induction evs1 as [|ev evs1 IH]; [done|].
  destruct ev; simpl; by rewrite ?IH.
Qed.

Lemma hookEvents_calls evs : hookEvents (calls evs) = hookEvents evs.
Proof.
  induction evs as [|ev evs IH]; [done|].
  destruct ev; simpl; by rewrite ?IH.
Qed.

Lemma hookCalls_hookEvents evs : hookCalls (hookEvents evs) = hookCalls evs.
Proof.
  induction evs as [|ev evs IH]; [done|].
  destruct ev; simpl; by rewrite ?IH.
Qed.

Lemma hookFailures_hookEvents evs :
  hookFailures (hookEvents evs) = hookFailures evs.
Proof.
  induction evs as [|ev evs IH]; [done|].
  destruct ev; simpl; try done. destruct out; simpl; by rewrite IH.
Qed.

Lemma hookEvents_logs {A} (f : A -> LogMessage) l (xs : list A) :
  hookEvents (map (fun x => Log l (f x)) xs) = [].
Proof. by induction xs. Qed.

Lemma hookEvents_detached regions : hookEvents (map Detached regions) = [].
Proof. by induction regions. Qed.

Lemma hookEvents_started durationMs opacity regions w :
  hookEvents (startHighlights env durationMs opacity regions w).1 = [].
Proof.
  revert w. induction regions as [|region regions IH]; intros w; [done|].
  simpl. destruct (screen_highlightScreenRegion env region _ _ w) as [out w1].
  specialize (IH w1).
  by destruct (startHighlights env _ _ regions w1) as [t2 w2].
Qed.

(** The hook events of a loop are the calls of the chain. *)
Lemma runHooks_hookEvents todo s o s' hevs evs :
  runHooks env todo s = (o, s', hevs) -> calls evs = hevs ->
  hookEvents evs = hevs.
Proof.
  intros H <-. rewrite <- hookEvents_calls.
  by apply runHooks_events in H as (-> & _).
Qed.

(** [find] on an image or a text, once the finder has answered. *)
Lemma find_region_found needle searchInput params s search request w m w' :
  awaited searchInput = Resolved (Is needle) ->
  isWindowQuery needle = false ->
  prepared env needle params s search request w ->
  finder_findMatch env request w = (Resolved m, w') ->
  match runHooks env
          (map (fun hook => (hook, MatchTarget m))
             (registeredHooks (this s) needle))
          (mkState (this s) w') with
  | (Rejected e, s2, hevs) =>
      hookEvents (find env searchInput params s).2 = hevs
      /\ (find env searchInput params s).1
         = (Rejected (searchFailed needle e), s2)
  | (Resolved _, s2, hevs) =>
      hookEvents (find env searchInput params s).2 = hevs
      /\ (find env searchInput params s).1
         = if autoHighlight (config (this s2)) then
             match highlight env (Direct (Is (resultRegionOf search m))) s2
             with
             | (Resolved region, s3, _) => (Resolved (RegionResult region), s3)
             | (Rejected e, s3, _) => (Rejected e, s3)
             end
           else (Resolved (RegionResult (resultRegionOf search m)), s2)
  end.
Proof.
  intros Hin Hw (screen & w1 & img & Hscreen & Hsearch & Hgrab & Hreq & Hvalid).
  intros Hfind.
  rewrite (find_run env _ needle), find_try_region_run,
    getFindParameters_run by done.
  cbv zeta. rewrite Hscreen, Hsearch, Hgrab, Hreq, Hvalid. simpl.
  rewrite Hfind.
  destruct (for_of (registeredHooks (this s) needle) _ (mkState (this s) w'))
    as [[o2 s2] t2] eqn:Hloop.
  pose proof (hookLoop_runHooks env _ _ _ _ _ _ Hloop) as Hchain.
  rewrite Hchain.
  pose proof (runHooks_hookEvents _ _ _ _ _ t2 Hchain eq_refl) as Hevents.
  destruct o2 as [[]|e].
  - destruct (autoHighlight (config (this s2))).
    + erewrite highlight_run by done. cbv zeta.
      destruct (screen_highlightScreenRegion env _ _ _ (world s2))
        as [[[]|e] w4]; simpl;
        repeat (rewrite ?hookEvents_app; simpl);
        by rewrite Hevents, ?app_nil_r.
    + simpl. repeat (rewrite ?hookEvents_app; simpl).
      by rewrite Hevents, ?app_nil_r.
  - simpl. repeat (rewrite ?hookEvents_app; simpl). by rewrite Hevents.
Qed.

(** [findAll] on an image or a text, once the finder has answered. *)
Lemma findAll_region_found needle searchInput params s search request w
    ms w' :
  awaited searchInput = Resolved (Is needle) ->
  isWindowQuery needle = false ->
  prepared env needle params s search request w ->
  finder_findMatches env request w = (Resolved ms, w') ->
  match runHooks env
          (flat_map (fun hook => map (fun m => (hook, MatchTarget m)) ms)
             (registeredHooks (this s) needle))
          (mkState (this s) w') with
  | (Rejected e, s2, hevs) =>
      hookEvents (findAll env searchInput params s).2 = hevs
      /\ (findAll env searchInput params s).1
         = (Rejected (searchFailed needle e), s2)
  | (Resolved _, s2, hevs) =>
      hookEvents (findAll env searchInput params s).2 = hevs
      /\ (findAll env searchInput params s).1
         = (Resolved (map (fun m => RegionResult (resultRegionOf search m)) ms),
            if autoHighlight (config (this s2)) then
              mkState (this s2)
                (startHighlights env (highlightDurationMs (config (this s2)))
                   (highlightOpacity (config (this s2)))
                   (map (resultRegionOf search) ms) (world s2)).2
            else s2)
  end.
Proof.
  intros Hin Hw (screen & w1 & img & Hscreen & Hsearch & Hgrab & Hreq & Hvalid).
  intros Hfind.
  rewrite (findAll_run env _ needle), findAll_try_region_run,
    getFindParameters_run by done.
  cbv zeta. rewrite Hscreen, Hsearch, Hgrab, Hreq, Hvalid. simpl.
  rewrite Hfind.
  destruct (for_of (registeredHooks (this s) needle) _ (mkState (this s) w'))
    as [[o2 s2] t2] eqn:Hloop.
  pose proof (hooksLoop_runHooks env _ _ _ _ _ _ _ Hloop) as Hchain.
  rewrite Hchain.
  pose proof (runHooks_hookEvents _ _ _ _ _ t2 Hchain eq_refl) as Hevents.
  destruct o2 as [[]|e].
  - destruct (autoHighlight (config (this s2))).
    + pose proof (hookEvents_started (highlightDurationMs (config (this s2)))
                    (highlightOpacity (config (this s2)))
                    (map (resultRegionOf search) ms) (world s2)) as Hquiet.
      destruct (startHighlights env _ _ _ (world s2)) as [t3 w3].
      simpl in *.
      repeat (rewrite ?hookEvents_app, ?hookEvents_logs,
                ?hookEvents_detached; simpl).
      by rewrite Hevents, Hquiet, ?app_nil_r, map_map.
    + simpl.
      repeat (rewrite ?hookEvents_app, ?hookEvents_logs; simpl).
      by rewrite Hevents, ?app_nil_r, map_map.
  - simpl. repeat (rewrite ?hookEvents_app; simpl). by rewrite Hevents.
Qed.

(** The same for a window query. *)
Lemma find_window_found needle searchInput params s handle w :
  awaited searchInput = Resolved (Is needle) ->
  isWindowQuery needle = true ->
  windowFinder_findMatch env needle (world s) = (Resolved handle, w) ->
  match runHooks env
          (map (fun hook => (hook, WindowTarget (mkWindow handle)))
             (registeredHooks (this s) needle))
          (mkState (this s) w) with
  | (Rejected e, s2, hevs) =>
      hookEvents (find env searchInput params s).2 = hevs
      /\ (find env searchInput params s).1
         = (Rejected (searchFailed needle e), s2)
  | (Resolved _, s2, hevs) =>
      hookEvents (find env searchInput params s).2 = hevs
      /\ (find env searchInput params s).1
         = (Resolved (WindowResult (mkWindow handle)), s2)
  end.
Proof.
  intros Hin Hw Hfind.
  rewrite (find_run env _ needle), find_try_window_run by done.
  rewrite Hfind. cbv zeta.
  destruct (for_of (registeredHooks (this s) needle) _ (mkState (this s) w))
    as [[o2 s2] t2] eqn:Hloop.
  pose proof (hookLoop_runHooks env _ _ _ _ _ _ Hloop) as Hchain.
  rewrite Hchain.
  pose proof (runHooks_hookEvents _ _ _ _ _ t2 Hchain eq_refl) as Hevents.
  destruct o2 as [[]|e]; simpl; by rewrite Hevents.
Qed.

Lemma findAll_window_found needle searchInput params s handles w :
  awaited searchInput = Resolved (Is needle) ->
  isWindowQuery needle = true ->
  windowFinder_findMatches env needle (world s) = (Resolved handles, w) ->
  match runHooks env
          (flat_map
             (fun hook =>
                map (fun wnd => (hook, WindowTarget wnd))
                  (map mkWindow handles))
             (registeredHooks (this s) needle))
          (mkState (this s) w) with
  | (Rejected e, s2, hevs) =>
      hookEvents (findAll env searchInput params s).2 = hevs
      /\ (findAll env searchInput params s).1
         = (Rejected (searchFailed needle e), s2)
  | (Resolved _, s2, hevs) =>
      hookEvents (findAll env searchInput params s).2 = hevs
      /\ (findAll env searchInput params s).1
         = (Resolved (map WindowResult (map mkWindow handles)), s2)
  end.
Proof.
  intros Hin Hw Hfind.
  rewrite (findAll_run env _ needle), findAll_try_window_run by done.
  rewrite Hfind. cbv zeta.
  destruct (for_of (registeredHooks (this s) needle) _ (mkState (this s) w))
    as [[o2 s2] t2] eqn:Hloop.
  pose proof (hooksLoop_runHooks env _ _ _ _ _ _ _ Hloop) as Hchain.
  rewrite Hchain.
  pose proof (runHooks_hookEvents _ _ _ _ _ t2 Hchain eq_refl) as Hevents.
  destruct o2 as [[]|e]; simpl; by rewrite Hevents.
Qed.

End Found.

(** ** The stated properties *)

Section Specification.
Context {World : Type} (env : Environment World).
Implicit Types (s : State World) (evs : list Event).

(** C1. On an image or a text query, [find] resolves with the match
    result's location moved by the origin of the search region: left and
    top are the sums of the search region's and the location's, width and
    height are the location's.  The search region is the one given in the
    parameters, or the screen size, and the match result is what the
    finder's [findMatch] resolved with.  [findAll] resolves with the
    finder's list of match results, each moved in the same way, in the
    same order.  Both ways round: when the steps up to the finder pass,
    the finder answers and the hooks return (and, for [find] with
    [autoHighlight] on, the highlight call resolves), the search resolves,
    with that value; and whenever it resolves, this is its value. *)
Theorem find_translates_match_location needle searchInput params s :
  awaited searchInput = Resolved (Is needle) ->
  isWindowQuery needle = false ->
  (forall searchRegion request w,
      prepared env needle params s searchRegion request w ->
      (forall matchResult w' s2 hevs,
          finder_findMatch env request w = (Resolved matchResult, w') ->
          runHooks env
            (map (fun hook => (hook, MatchTarget matchResult))
               (registeredHooks (this s) needle))
            (mkState (this s) w') = (Resolved tt, s2, hevs) ->
          (autoHighlight (config (this s2)) = true ->
           (screen_highlightScreenRegion env
              (resultRegionOf searchRegion matchResult)
              (highlightDurationMs (config (this s2)))
              (highlightOpacity (config (this s2))) (world s2)).1
           = Resolved tt) ->
          (find env searchInput params s).1.1
          = Resolved
              (RegionResult
                 (mkRegion
                    (plus (left searchRegion) (left (location matchResult)))
                    (plus (top searchRegion) (top (location matchResult)))
                    (width (location matchResult))
                    (height (location matchResult)))))
      /\ (forall matchResults w' s2 hevs,
            finder_findMatches env request w = (Resolved matchResults, w') ->
            runHooks env
              (flat_map
                 (fun hook =>
                    map (fun matchResult => (hook, MatchTarget matchResult))
                      matchResults)
                 (registeredHooks (this s) needle))
              (mkState (this s) w') = (Resolved tt, s2, hevs) ->
            (findAll env searchInput params s).1.1
            = Resolved
                (map (fun matchResult =>
                        RegionResult
                          (mkRegion
                             (plus (left searchRegion)
                                   (left (location matchResult)))
                             (plus (top searchRegion)
                                   (top (location matchResult)))
                             (width (location matchResult))
                             (height (location matchResult))))
                   matchResults)))
  /\ (forall v s' evs,
      find env searchInput params s = (Resolved v, s', evs) ->
      exists screenSize searchRegion matchRequest matchResult,
        ScreenSize (Resolved screenSize) ∈ evs
        /\ searchRegionOf params screenSize = Resolved searchRegion
        /\ FindMatch matchRequest (Resolved matchResult) ∈ evs
        /\ v = RegionResult
                 (mkRegion
                    (plus (left searchRegion) (left (location matchResult)))
                    (plus (top searchRegion) (top (location matchResult)))
                    (width (location matchResult))
                    (height (location matchResult))))
  /\ (forall vs s' evs,
      findAll env searchInput params s = (Resolved vs, s', evs) ->
      exists screenSize searchRegion matchRequest matchResults,
        ScreenSize (Resolved screenSize) ∈ evs
        /\ searchRegionOf params screenSize = Resolved searchRegion
        /\ FindMatches matchRequest (Resolved matchResults) ∈ evs
        /\ vs = map (fun matchResult =>
                       RegionResult
                         (mkRegion
                            (plus (left searchRegion)
                                  (left (location matchResult)))
                            (plus (top searchRegion)
                                  (top (location matchResult)))
                            (width (location matchResult))
                            (height (location matchResult))))
                    matchResults).
Proof.
  intros Hin Hw. split_and!.
  - intros searchRegion request w Hready. split.
    + intros m w' s2 hevs Hfind Hchain Hshown.
      pose proof (find_region_found env needle searchInput params s
                    searchRegion request w m w' Hin Hw Hready Hfind) as Hrun.
      rewrite Hchain in Hrun. destruct Hrun as [_ Hrun]. rewrite Hrun.
      destruct (autoHighlight (config (this s2))); [|done].
      erewrite highlight_run by done. cbv zeta.
      specialize (Hshown eq_refl).
      destruct (screen_highlightScreenRegion env _ _ _ (world s2))
        as [out w4].
      simpl in Hshown. by rewrite Hshown.
    + intros ms w' s2 hevs Hfind Hchain.
      pose proof (findAll_region_found env needle searchInput params s
                    searchRegion request w ms w' Hin Hw Hready Hfind) as Hrun.
      rewrite Hchain in Hrun. destruct Hrun as [_ Hrun]. by rewrite Hrun.
  - intros v s' evs H.
    rewrite (find_run env _ needle), find_try_region_run,
      getFindParameters_run in H by done.
    split_run H;
      match goal with
      | Hs : screen_screenSize _ _ = (Resolved ?screen, _),
        Hr : searchRegionOf _ _ = Resolved ?search,
        Hf : finder_findMatch _ ?req _ = (Resolved ?found, _) |- _ =>
          exists screen, search, req, found
      end.
    + match goal with
      | Hh : highlight _ _ _ = _ |- _ =>
          erewrite highlight_run in Hh by done;
          split_run Hh
      end.
      simplify_eq. split_and!; [set_solver|done|set_solver|done].
    + simplify_eq. split_and!; [set_solver|done|set_solver|done].
  - intros vs s' evs H.
    rewrite (findAll_run env _ needle), findAll_try_region_run,
      getFindParameters_run in H by done.
    split_run H;
      match goal with
      | Hs : screen_screenSize _ _ = (Resolved ?screen, _),
        Hr : searchRegionOf _ _ = Resolved ?search,
        Hf : finder_findMatches _ ?req _ = (Resolved ?found, _) |- _ =>
          exists screen, search, req, found
      end;
      simplify_eq;
      (split_and!; [set_solver|done|set_solver|by rewrite map_map]).
Qed.

(** C2. On an image or a text query, when the region to search (the one
    given in the parameters, or else the screen size) has a negative
    left, top, width or height, a [NaN] component, a width or height
    below two, or reaches beyond the width or height of the screen the
    provider reports, [find] rejects with the error
    [Searching for <id> failed. Reason: '<cause>'], whose message contains
    the needle's id and "failed. Reason:"; no finder call is among the
    events of the run, and the promise does not resolve. *)
Theorem find_rejects_invalid_search_region needle searchInput params s :
  awaited searchInput = Resolved (Is needle) ->
  isWindowQuery needle = false ->
  (forall screen w search,
      screen_screenSize env (world s) = (Resolved screen, w) ->
      searchRegionOf params screen = Resolved search ->
      invalidSearchRegion search screen) ->
  exists cause message s' evs,
    find env searchInput params s = (Rejected (ErrorObject message), s', evs)
    /\ message = "Searching for " +:+ needle_id needle
                 +:+ " failed. Reason: '" +:+ toString cause +:+ "'"
    /\ contains message (needle_id needle)
    /\ contains message "failed. Reason:"
    /\ Forall (fun ev => isFinderCall ev = false) evs.
Proof.
  intros Hin Hw Hinvalid.
  rewrite (find_run env _ needle), find_try_region_run,
    getFindParameters_run by done.
  cbv zeta.
  destruct (screen_screenSize env (world s)) as [[screen|e] w1] eqn:Hscreen.
  2:{ destruct (searchFailed_message needle e) as (m & Hm & ? & ? & ? & _).
      exists e, m, (mkState (this s) w1), [ScreenSize (Rejected e)].
      rewrite <- Hm. split_and!; try done. by repeat constructor. }
  destruct (searchRegionOf params screen) as [search|e] eqn:Hsearch.
  2:{ destruct (searchFailed_message needle e) as (m & Hm & ? & ? & ? & _).
      exists e, m, (mkState (this s) w1), [ScreenSize (Resolved screen)].
      rewrite <- Hm. split_and!; try done. by repeat constructor. }
  destruct (screen_grabScreenRegion env search w1) as [[img|e] w2].
  2:{ destruct (searchFailed_message needle e) as (m & Hm & ? & ? & ? & _).
      exists e, m, (mkState (this s) w2),
        [ScreenSize (Resolved screen); GrabScreenRegion search (Rejected e)].
      rewrite <- Hm. split_and!; try done. by repeat constructor. }
  destruct (createMatchRequest env needle search _ img params) as [req|e].
  2:{ destruct (searchFailed_message needle e) as (m & Hm & ? & ? & ? & _).
      eexists e, m, _, _. rewrite <- Hm. split_and!; try done.
      by repeat constructor. }
  destruct (validateSearchRegion_invalid env search screen) as [reason ->];
    [by eapply Hinvalid|].
  destruct (searchFailed_message needle (ErrorObject reason))
    as (m & Hm & ? & ? & ? & _).
  eexists (ErrorObject reason), m, _, _. rewrite <- Hm. split_and!; try done.
  by repeat constructor.
Qed.

(** Settles the cases of a failure read off a run whose steps are known. *)
Ltac failure_cases :=
  let ev := fresh "ev" in
  let Hm := fresh "Hm" in
  let Hrej := fresh "Hrej" in
  let Hhl := fresh "Hhl" in
  let Hr := fresh "Hr" in
  let Hg := fresh "Hg" in
  let Hc := fresh "Hc" in
  intros ? [(ev & Hm & Hrej & Hhl)
           |[(? & Hm & Hr)|(? & ? & ? & Hm & Hg & Hc)]];
  [ members Hm; subst; simpl in Hrej, Hhl; try discriminate;
    try (by simplify_eq);
    repeat match goal with
    | Hchain : runHooks _ _ _ = (_, _, calls ?l), Hl : ?e ∈ ?l |- _ =>
        pose proof (chain_failure env _ _ _ _ _ _ _ Hchain Hl Hrej);
        clear Hl
    | Hh : startHighlights _ _ _ _ _ = (?l, _), Hl : ?e ∈ ?l |- _ =>
        destruct (startHighlights_member env _ _ _ _ _ _ _ Hh Hl)
          as [(? & ? & ->)|(? & ? & ? & ? & ->)];
        clear Hl
    end;
    by simplify_eq
  | members Hm; try discriminate Hm;
    repeat match goal with
    | Hchain : runHooks _ _ _ = (_, _, calls ?l), Hl : _ ∈ ?l |- _ =>
        destruct (chain_member env _ _ _ _ _ _ Hchain Hl)
          as [(? & ? & ?)|(? & ? & ? & ?)];
        clear Hl
    | Hh : startHighlights _ _ _ _ _ = (?l, _), Hl : _ ∈ ?l |- _ =>
        destruct (startHighlights_member env _ _ _ _ _ _ _ Hh Hl)
          as [(? & ? & ?)|(? & ? & ? & ? & ?)];
        clear Hl
    end;
    try discriminate;
    simplify_eq; congruence
  | members Hm; try discriminate Hm;
    repeat match goal with
    | Hchain : runHooks _ _ _ = (_, _, calls ?l), Hl : _ ∈ ?l |- _ =>
        destruct (chain_member env _ _ _ _ _ _ Hchain Hl)
          as [(? & ? & ?)|(? & ? & ? & ?)];
        clear Hl
    | Hh : startHighlights _ _ _ _ _ = (?l, _), Hl : _ ∈ ?l |- _ =>
        destruct (startHighlights_member env _ _ _ _ _ _ _ Hh Hl)
          as [(? & ? & ?)|(? & ? & ? & ? & ?)];
        clear Hl
    end;
    try discriminate;
    members Hg; try discriminate Hg;
    repeat match goal with
    | Hchain : runHooks _ _ _ = (_, _, calls ?l), Hl : _ ∈ ?l |- _ =>
        destruct (chain_member env _ _ _ _ _ _ Hchain Hl)
          as [(? & ? & ?)|(? & ? & ? & ?)];
        clear Hl
    | Hh : startHighlights _ _ _ _ _ = (?l, _), Hl : _ ∈ ?l |- _ =>
        destruct (startHighlights_member env _ _ _ _ _ _ _ Hh Hl)
          as [(? & ? & ?)|(? & ? & ? & ? & ?)];
        clear Hl
    end;
    try discriminate;
    simplify_eq;
    repeat match goal with
    | Heq : createMatchRequest _ _ _ _ _ _ = _ |- _ =>
        rewrite Heq in Hc; clear Heq
    end;
    simplify_eq; congruence ].

(** Names the failure a rejected run of known steps ended with. *)
Ltac name_failure :=
  first
    [ match goal with
      | Hchain : runHooks _ _ _ = (Rejected _, _, calls _) |- _ =>
          let ev := fresh "ev" in
          let Hev := fresh "Hev" in
          let Hrej := fresh "Hrej" in
          let Hhl := fresh "Hhl" in
          destruct (chain_rejected env _ _ _ _ _ Hchain)
            as (ev & Hev & Hrej & Hhl);
          eexists;
          split;
          [ left; exists ev; split_and!; [in_run|exact Hrej|exact Hhl]
          | reflexivity ]
      end
    | eexists;
      split;
      [ left; eexists; split_and!; [in_last|reflexivity|reflexivity]
      | reflexivity ]
    | eexists;
      split;
      [ right; left; eexists; split; [apply list_elem_of_here|eassumption]
      | reflexivity ]
    | eexists;
      split;
      [ right; right; eexists _, _, _;
        split_and!;
        [ apply list_elem_of_here
        | in_run
        | match goal with
          | Heq : createMatchRequest _ _ _ _ _ _ = _ |- _ => rewrite Heq
          end;
          first [reflexivity|eassumption] ]
      | reflexivity ] ].

Ltac rejection_cases :=
  let He := fresh "He" in
  intros ? He; simplify_eq;
  first [ left; name_failure | right; eexists _, _, _; in_last ].

(** A highlight call that rejected, among the events of a run of known
    steps. *)
Ltac highlight_cases :=
  let Hm := fresh "Hm" in
  intros Hm;
  first
    [ by eexists
    | exfalso; members Hm; try discriminate Hm;
      repeat match goal with
      | Hchain : runHooks _ _ _ = (_, _, calls ?l), Hl : _ ∈ ?l |- _ =>
          destruct (chain_member env _ _ _ _ _ _ Hchain Hl)
            as [(? & ? & ?)|(? & ? & ? & ?)];
          clear Hl
      end;
      discriminate ].

(** C3, as the code has it.  Once the needle has passed the type check,
    every failure of a search ahead of its highlight step makes it reject
    with the single error built by the [catch] clause,
    [Searching for <id> failed. Reason: '<cause>'], with the needle's id
    and the string conversion of that failure's reason: a rejection of
    the screen size, of the content of the search region, of the finder
    or the window finder, a hook that throws, the search region given as
    a promise that rejects, the construction of the match request that
    throws, the validation of the search region that fails.  Conversely
    a [findAll] that rejects rejects with this error for one of these
    failures, and so does a [find] that rejects, unless the highlight
    call of its auto-highlight step rejected.  The highlights [findAll]
    starts are not part of this: when one of their calls rejects,
    [findAll] has resolved. *)
Theorem search_failure_is_wrapped needle searchInput params s :
  awaited searchInput = Resolved (Is needle) ->
  (forall o s' evs,
      find env searchInput params s = (o, s', evs) ->
      (forall cause,
          failedWith env needle params (this s) evs cause ->
          o = Rejected
                (ErrorObject
                   ("Searching for " +:+ needle_id needle
                    +:+ " failed. Reason: '" +:+ toString cause +:+ "'")))
      /\ (forall e,
            o = Rejected e ->
            (exists cause,
                failedWith env needle params (this s) evs cause
                /\ e = ErrorObject
                         ("Searching for " +:+ needle_id needle
                          +:+ " failed. Reason: '" +:+ toString cause
                          +:+ "'"))
            \/ (exists region durationMs opacity,
                  HighlightScreenRegion region durationMs opacity
                    (Rejected e) ∈ evs)))
  /\ (forall o s' evs,
        findAll env searchInput params s = (o, s', evs) ->
        (forall cause,
            failedWith env needle params (this s) evs cause ->
            o = Rejected
                  (ErrorObject
                     ("Searching for " +:+ needle_id needle
                      +:+ " failed. Reason: '" +:+ toString cause +:+ "'")))
        /\ (forall e,
              o = Rejected e ->
              exists cause,
                failedWith env needle params (this s) evs cause
                /\ e = ErrorObject
                         ("Searching for " +:+ needle_id needle
                          +:+ " failed. Reason: '" +:+ toString cause
                          +:+ "'"))
        /\ (forall region durationMs opacity e,
              HighlightScreenRegion region durationMs opacity (Rejected e)
                ∈ evs ->
              exists vs, o = Resolved vs)).
Proof.
  intros Hin. split; intros o s' evs H.
  - rewrite (find_run env _ needle) in H by done. unfold searchFailed in H.
    destruct (isWindowQuery needle) eqn:Hw.
    + rewrite find_try_window_run in H by done.
      split_run H; simplify_eq;
        try match goal with
        | Hloop : for_of _ _ _ = _ |- _ => apply hookLoop_runHooks in Hloop
        end;
        (split; [failure_cases|rejection_cases]).
    + rewrite find_try_region_run, getFindParameters_run in H by done.
      split_run H;
        try match goal with
        | Hh : highlight _ _ _ = _ |- _ =>
            erewrite highlight_run in Hh by done; split_run Hh
        end;
        simplify_eq; simpl;
        try match goal with
        | Hloop : for_of _ _ _ = _ |- _ => apply hookLoop_runHooks in Hloop
        end;
        (split; [failure_cases|rejection_cases]).
  - rewrite (findAll_run env _ needle) in H by done.
    unfold searchFailed in H.
    destruct (isWindowQuery needle) eqn:Hw.
    + rewrite findAll_try_window_run in H by done.
      split_run H; simplify_eq;
        try match goal with
        | Hloop : for_of _ _ _ = _ |- _ => apply hooksLoop_runHooks in Hloop
        end;
        (split_and!;
         [ failure_cases
         | intros ? He; simplify_eq; name_failure
         | intros ? ? ? ?; highlight_cases ]).
    + rewrite findAll_try_region_run, getFindParameters_run in H by done.
      split_run H; simplify_eq; simpl;
        try match goal with
        | Hloop : for_of _ _ _ = _ |- _ => apply hooksLoop_runHooks in Hloop
        end;
        (split_and!;
         [ failure_cases
         | intros ? He; simplify_eq; name_failure
         | intros ? ? ? ?; highlight_cases ]).
Qed.

(** C5, as the code has it.  On an image or a text query with an invalid
    search region, by the time the validation throws the screen provider
    has been asked for the screen size and for the content of the search
    region, in that order, and nothing else has been called: no finder
    call precedes the validation error.  [find] then rejects with the
    validation error as the cause. *)
Theorem validation_follows_screen_calls needle searchInput params s
    screen w1 search img w2 req :
  awaited searchInput = Resolved (Is needle) ->
  isWindowQuery needle = false ->
  screen_screenSize env (world s) = (Resolved screen, w1) ->
  searchRegionOf params screen = Resolved search ->
  screen_grabScreenRegion env search w1 = (Resolved img, w2) ->
  createMatchRequest env needle search
    (default (config_confidence (config (this s)))
       (params ≫= params_confidence)) img params = Resolved req ->
  invalidSearchRegion search screen ->
  exists cause,
    validateSearchRegion env search screen = Rejected cause
    /\ find env searchInput params s =
       (Rejected (searchFailed needle cause),
        mkState (this s) w2,
        [ScreenSize (Resolved screen);
         GrabScreenRegion search (Resolved img);
         Log Debug
           (RunningOnScreenSearch
              (default (config_confidence (config (this s)))
                 (params ≫= params_confidence)) screen search)]).
Proof.
  intros Hin Hw Hscreen Hsearch Hgrab Hreq Hinvalid.
  destruct (validateSearchRegion_invalid env search screen Hinvalid)
    as [reason Hreason].
  exists (ErrorObject reason). split; [done|].
  rewrite (find_run env _ needle), find_try_region_run,
    getFindParameters_run by done.
  cbv zeta. by rewrite Hscreen, Hsearch, Hgrab, Hreq, Hreason.
Qed.

(** C4, as the code has it.  If a registered hook throws during a
    [find] call, it is the last hook called: the hooks registered before
    it have been called, in order, those registered after it have not.
    The call fails, and the caller sees the error of the [catch] clause,
    [Searching for <id> failed. Reason: '<cause>'], whose cause is what
    the hook threw. *)
Theorem throwing_hook_aborts_find needle searchInput params s hook e
    o s' evs :
  awaited searchInput = Resolved (Is needle) ->
  find env searchInput params s = (o, s', evs) ->
  (hook, e) ∈ hookFailures evs ->
  o = Rejected
        (ErrorObject
           ("Searching for " +:+ needle_id needle
            +:+ " failed. Reason: '" +:+ toString e +:+ "'"))
  /\ exists before after target,
       registeredHooks (this s) needle = before ++ hook :: after
       /\ hookCalls evs = map (fun h => (h, target)) (before ++ [hook])
       /\ hookFailures evs = [(hook, e)].
Proof.
  intros Hin H Hthrown.
  rewrite (find_run env _ needle) in H by done.
  destruct (isWindowQuery needle) eqn:Hw.
  - rewrite find_try_window_run in H by done.
    split_run H; simplify_eq; simpl in *;
      try (by apply elem_of_nil in Hthrown);
      match goal with
      | Hloop : for_of _ _ _ = _ |- _ =>
          apply hookLoop_calls in Hloop;
          first [ destruct Hloop as [_ Hnone]
                | destruct Hloop
                    as (before & bad & after & Hhooks & Hcalls & Hfail) ]
      end.
    + rewrite Hnone in Hthrown. by apply elem_of_nil in Hthrown.
    + rewrite Hfail in Hthrown. apply list_elem_of_singleton in Hthrown.
      simplify_eq. split; [done|]. by eexists before, after, _.
  - rewrite find_try_region_run, getFindParameters_run in H by done.
    split_run H; simplify_eq; simpl in *;
      try (by apply elem_of_nil in Hthrown);
      try match goal with
      | Hh : highlight _ _ _ = _ |- _ =>
          erewrite highlight_run in Hh by done; split_run Hh; simplify_eq
      end;
      match goal with
      | Hloop : for_of _ _ _ = _ |- _ =>
          apply hookLoop_calls in Hloop;
          first [ destruct Hloop as [_ Hnone]
                | destruct Hloop
                    as (before & bad & after & Hhooks & Hcalls & Hfail) ]
      end;
      repeat (rewrite ?hookFailures_app, ?hookCalls_app in *; simpl in * );
      try (rewrite Hnone in Hthrown; by apply elem_of_nil in Hthrown).
    rewrite Hfail in Hthrown. apply list_elem_of_singleton in Hthrown.
    simplify_eq. split; [done|]. by eexists before, after, _.
Qed.

(** C7. After [on(needle, cb1)], ..., [on(needle, cbk)] the registry
    holds for that needle the callbacks it held before followed by
    [cb1, ..., cbk], in that order; when nothing was registered for the
    needle before, that is exactly [[cb1; ...; cbk]].  Every call returns
    normally, earlier callbacks are neither replaced nor dropped, and the
    entry of every other key is as it was. *)
Theorem registration_appends needle callbacks s :
  exists s' evs,
    register needle callbacks s = (Resolved tt, s', evs)
    /\ registeredHooks (this s') needle
       = registeredHooks (this s) needle ++ callbacks
    /\ (findHooks (this s) !! ref needle = None ->
        registeredHooks (this s') needle = callbacks)
    /\ (callbacks <> [] ->
        findHooks (this s') !! ref needle
        = Some (registeredHooks (this s) needle ++ callbacks))
    /\ (forall r, r <> ref needle ->
          findHooks (this s') !! r = findHooks (this s) !! r).
Proof.
  destruct (register_run needle callbacks s)
    as (s' & evs & Hrun & Hhooks & Hsome & Hother & _).
  exists s', evs. split_and!; try done.
  intros Hnone. rewrite Hhooks. unfold registeredHooks. by rewrite Hnone.
Qed.

(** A search that resolves had its finder's answer. *)
Lemma find_resolved_found needle searchInput params s v s' evs :
  awaited searchInput = Resolved (Is needle) ->
  find env searchInput params s = (Resolved v, s', evs) ->
  exists target s1, found env needle params s target s1.
Proof.
  intros Hin H. unfold found, prepared.
  rewrite (find_run env _ needle) in H by done.
  destruct (isWindowQuery needle) eqn:Hw.
  - rewrite find_try_window_run in H by done. split_run H.
    by eexists _, _, _, _.
  - rewrite find_try_region_run, getFindParameters_run in H by done.
    split_run H;
      repeat match goal with u : unit |- _ => destruct u end;
      eexists _, _, _, _, _, _, _; (split; [by eexists _, _, _|done]).
Qed.

Lemma findAll_resolved_found needle searchInput params s vs s' evs :
  awaited searchInput = Resolved (Is needle) ->
  findAll env searchInput params s = (Resolved vs, s', evs) ->
  exists targets s1,
    foundAll env needle params s targets s1 /\ length targets = length vs.
Proof.
  intros Hin H. unfold foundAll, prepared.
  rewrite (findAll_run env _ needle) in H by done.
  destruct (isWindowQuery needle) eqn:Hw.
  - rewrite findAll_try_window_run in H by done. split_run H. simplify_eq.
    eexists _, _. split; [by eexists _, _|]. by rewrite !length_map.
  - rewrite findAll_try_region_run, getFindParameters_run in H by done.
    split_run H; simplify_eq;
      repeat match goal with u : unit |- _ => destruct u end;
      eexists _, _;
      (split;
       [ eexists _, _, _, _, _; (split; [by eexists _, _, _|done])
       | by rewrite !length_map ]).
Qed.

(** C6. Register hooks on a needle, then search for it.  Once the finder
    has answered, the hooks registered for the needle are called as the
    specification says: one after the other in registration order, all
    on the one match (the finder's match result, or the window found),
    each in the state the one before it left on returning; [find] goes on
    from the state the last one left.  So a [find] that resolves has
    called every registered hook exactly once, in registration order,
    and all of them returned.  [findAll] calls them in the same way on
    every result: the first hook on every result in turn, then the
    second, and so on, N*M calls in all when it resolves with M results.
    A hook that throws ends the chain and the search. *)
Theorem hooks_run_once_in_order needle searchInput params callbacks
    s0 s evs0 :
  awaited searchInput = Resolved (Is needle) ->
  register needle callbacks s0 = (Resolved tt, s, evs0) ->
  let hooks := registeredHooks (this s0) needle ++ callbacks in
  (forall target s1 o s2 hevs,
      found env needle params s target s1 ->
      runHooks env (map (fun hook => (hook, target)) hooks) s1
      = (o, s2, hevs) ->
      hookEvents (find env searchInput params s).2 = hevs
      /\ match o with
         | Resolved _ =>
             hevs = map (fun hook => HookCall hook target (Resolved tt)) hooks
             /\ this (find env searchInput params s).1.2 = this s2
             /\ (autoHighlight (config (this s2)) = false
                 \/ isWindowQuery needle = true ->
                 (find env searchInput params s).1.2 = s2
                 /\ succeeded (find env searchInput params s).1.1 = true)
         | Rejected e =>
             (find env searchInput params s).1
             = (Rejected (searchFailed needle e), s2)
         end)
  /\ (forall targets s1 o s2 hevs,
        foundAll env needle params s targets s1 ->
        runHooks env
          (flat_map (fun hook => map (fun target => (hook, target)) targets)
             hooks) s1
        = (o, s2, hevs) ->
        hookEvents (findAll env searchInput params s).2 = hevs
        /\ match o with
           | Resolved _ =>
               hevs
               = flat_map
                   (fun hook =>
                      map (fun target =>
                             HookCall hook target (Resolved tt)) targets)
                   hooks
               /\ length hevs = length hooks * length targets
               /\ this (findAll env searchInput params s).1.2 = this s2
               /\ succeeded (findAll env searchInput params s).1.1 = true
           | Rejected e =>
               (findAll env searchInput params s).1
               = (Rejected (searchFailed needle e), s2)
           end)
  /\ (forall v s' evs,
        find env searchInput params s = (Resolved v, s', evs) ->
        exists target s1 s2,
          found env needle params s target s1
          /\ runHooks env (map (fun hook => (hook, target)) hooks) s1
             = (Resolved tt, s2, hookEvents evs)
          /\ hookCalls evs = map (fun hook => (hook, target)) hooks
          /\ hookFailures evs = [])
  /\ (forall vs s' evs,
        findAll env searchInput params s = (Resolved vs, s', evs) ->
        exists targets s1 s2,
          foundAll env needle params s targets s1
          /\ length targets = length vs
          /\ runHooks env
               (flat_map
                  (fun hook => map (fun target => (hook, target)) targets)
                  hooks) s1
             = (Resolved tt, s2, hookEvents evs)
          /\ hookCalls evs
             = flat_map
                 (fun hook => map (fun target => (hook, target)) targets)
                 hooks
          /\ length (hookCalls evs) = length hooks * length vs
          /\ hookFailures evs = []).
Proof.
  intros Hin Hregister hooks. subst hooks.
  destruct (register_run needle callbacks s0)
    as (sr & evsr & Hrun & Hhooks & _).
  rewrite Hregister in Hrun. assert (sr = s) as -> by congruence.
  clear Hrun. rewrite <- Hhooks.
  assert (forall target s1 o s2 hevs,
    found env needle params s target s1 ->
    runHooks env
      (map (fun hook => (hook, target)) (registeredHooks (this s) needle)) s1
    = (o, s2, hevs) ->
    hookEvents (find env searchInput params s).2 = hevs
    /\ match o with
       | Resolved _ =>
           hevs = map (fun hook => HookCall hook target (Resolved tt))
                    (registeredHooks (this s) needle)
           /\ this (find env searchInput params s).1.2 = this s2
           /\ (autoHighlight (config (this s2)) = false
               \/ isWindowQuery needle = true ->
               (find env searchInput params s).1.2 = s2
               /\ succeeded (find env searchInput params s).1.1 = true)
       | Rejected e =>
           (find env searchInput params s).1
           = (Rejected (searchFailed needle e), s2)
       end) as Hfind.
  { intros target s1 o s2 hevs Hfound Hchain. unfold found in Hfound.
    pose proof (runHooks_events env _ _ _ _ _ Hchain)
      as (_ & _ & _ & Hshape).
    destruct (isWindowQuery needle) eqn:Hw.
    - destruct Hfound as (handle & w & Hanswer & -> & ->).
      pose proof (find_window_found env needle searchInput params s handle w
                    Hin Hw Hanswer) as Hrun.
      rewrite Hchain in Hrun. destruct o as [[]|e]; [|done].
      destruct Hrun as [Hevents Hrun]. split; [done|]. rewrite Hrun.
      split_and!; [by rewrite Hshape, map_map|done|done].
    - destruct Hfound as (search & request & w & m & w' & Hready & Hanswer
                          & -> & ->).
      pose proof (find_region_found env needle searchInput params s search
                    request w m w' Hin Hw Hready Hanswer) as Hrun.
      rewrite Hchain in Hrun. destruct o as [[]|e]; [|done].
      destruct Hrun as [Hevents Hrun]. split; [done|]. rewrite Hrun.
      split; [by rewrite Hshape, map_map|].
      destruct (autoHighlight (config (this s2))).
      + erewrite highlight_run by done. cbv zeta.
        destruct (screen_highlightScreenRegion env _ _ _ (world s2))
          as [[[]|e] w4]; (split; [done|]); by intros [?|?].
      + done. }
  assert (forall targets s1 o s2 hevs,
    foundAll env needle params s targets s1 ->
    runHooks env
      (flat_map (fun hook => map (fun target => (hook, target)) targets)
         (registeredHooks (this s) needle)) s1
    = (o, s2, hevs) ->
    hookEvents (findAll env searchInput params s).2 = hevs
    /\ match o with
       | Resolved _ =>
           hevs
           = flat_map
               (fun hook =>
                  map (fun target => HookCall hook target (Resolved tt))
                    targets)
               (registeredHooks (this s) needle)
           /\ length hevs
              = length (registeredHooks (this s) needle) * length targets
           /\ this (findAll env searchInput params s).1.2 = this s2
           /\ succeeded (findAll env searchInput params s).1.1 = true
       | Rejected e =>
           (findAll env searchInput params s).1
           = (Rejected (searchFailed needle e), s2)
       end) as Hall.
  { intros targets s1 o s2 hevs Hfound Hchain. unfold foundAll in Hfound.
    pose proof (runHooks_events env _ _ _ _ _ Hchain)
      as (_ & _ & _ & Hshape).
    assert (o = Resolved tt ->
            hevs
            = flat_map
                (fun hook =>
                   map (fun target => HookCall hook target (Resolved tt))
                     targets)
                (registeredHooks (this s) needle)
            /\ length hevs
               = length (registeredHooks (this s) needle) * length targets)
      as Hcount.
    { intros ->. rewrite Hshape.
      assert (forall hs : list FindHookCallback,
        map (fun '(hook, target) => HookCall hook target (Resolved tt))
          (flat_map (fun hook => map (fun target => (hook, target)) targets)
             hs)
        = flat_map
            (fun hook =>
               map (fun target => HookCall hook target (Resolved tt)) targets)
            hs) as ->.
      { intros hs. induction hs as [|h hs IH]; [done|].
        simpl. by rewrite map_app, IH, map_map. }
      split; [done|].
      apply flat_map_length_const. intros hook. by rewrite length_map. }
    destruct (isWindowQuery needle) eqn:Hw.
    - destruct Hfound as (handles & w & Hanswer & -> & ->).
      pose proof (findAll_window_found env needle searchInput params s
                    handles w Hin Hw Hanswer) as Hrun.
      assert (flat_map
                (fun hook =>
                   map (fun wnd => (hook, WindowTarget wnd))
                     (map mkWindow handles))
                (registeredHooks (this s) needle)
              = flat_map
                  (fun hook =>
                     map (fun target => (hook, target))
                       (map (fun handle => WindowTarget (mkWindow handle))
                          handles))
                  (registeredHooks (this s) needle)) as Htodo.
      { generalize (registeredHooks (this s) needle). clear. intros hs.
        induction hs as [|h hs IH]; [done|].
        simpl. by rewrite IH, !map_map. }
      rewrite Htodo, Hchain in Hrun. destruct o as [[]|e]; [|done].
      destruct Hrun as [Hevents Hrun]. split; [done|]. rewrite Hrun.
      destruct (Hcount eq_refl). by split_and!.
    - destruct Hfound as (search & request & w & ms & w' & Hready & Hanswer
                          & -> & ->).
      pose proof (findAll_region_found env needle searchInput params s search
                    request w ms w' Hin Hw Hready Hanswer) as Hrun.
      assert (flat_map (fun hook => map (fun m => (hook, MatchTarget m)) ms)
                (registeredHooks (this s) needle)
              = flat_map
                  (fun hook =>
                     map (fun target => (hook, target)) (map MatchTarget ms))
                  (registeredHooks (this s) needle)) as Htodo.
      { generalize (registeredHooks (this s) needle). clear. intros hs.
        induction hs as [|h hs IH]; [done|].
        simpl. by rewrite IH, !map_map. }
      rewrite Htodo, Hchain in Hrun. destruct o as [[]|e]; [|done].
      destruct Hrun as [Hevents Hrun]. split; [done|]. rewrite Hrun.
      destruct (Hcount eq_refl).
      split_and!; [done|done| |done].
      by destruct (autoHighlight (config (this s2))). }
  split_and!; [exact Hfind|exact Hall| |].
  - intros v s' evs H.
    destruct (find_resolved_found needle searchInput params s v s' evs Hin H)
      as (target & s1 & Hfound).
    destruct (runHooks env
                (map (fun hook => (hook, target))
                   (registeredHooks (this s) needle)) s1)
      as [[o s2] hevs] eqn:Hchain.
    destruct (Hfind target s1 o s2 hevs Hfound Hchain) as [Hevents Hrest].
    rewrite H in Hevents, Hrest. simpl in Hevents, Hrest.
    destruct o as [[]|e]; [|done]. subst hevs.
    exists target, s1, s2. split_and!; [done|done| |].
    + pose proof (runHooks_events env _ _ _ _ _ Hchain) as (_ & _ & Hc & _).
      rewrite <- hookCalls_hookEvents, Hc. apply take_ge.
      destruct Hrest as (-> & _). by rewrite !length_map.
    + destruct Hrest as (Heq & _). rewrite <- hookFailures_hookEvents, Heq.
      generalize (registeredHooks (this s) needle). clear. intros hs.
      by induction hs.
  - intros vs s' evs H.
    destruct (findAll_resolved_found needle searchInput params s vs s' evs
                Hin H) as (targets & s1 & Hfound & Hlen).
    destruct (runHooks env
                (flat_map
                   (fun hook => map (fun target => (hook, target)) targets)
                   (registeredHooks (this s) needle)) s1)
      as [[o s2] hevs] eqn:Hchain.
    destruct (Hall targets s1 o s2 hevs Hfound Hchain) as [Hevents Hrest].
    rewrite H in Hevents, Hrest. simpl in Hevents, Hrest.
    destruct o as [[]|e]; [|done]. subst hevs.
    exists targets, s1, s2.
    pose proof (runHooks_events env _ _ _ _ _ Hchain) as (_ & _ & Hc & Hs).
    assert (hookCalls evs
            = flat_map
                (fun hook => map (fun target => (hook, target)) targets)
                (registeredHooks (this s) needle)) as Hcalls.
    { rewrite <- hookCalls_hookEvents, Hc. apply take_ge.
      by rewrite Hs, length_map. }
    split_and!; [done|done|done|done| |].
    + rewrite Hcalls, <- Hlen.
      apply flat_map_length_const. intros hook. by rewrite length_map.
    + rewrite <- hookFailures_hookEvents, Hs.
      generalize (flat_map
                    (fun hook => map (fun target => (hook, target)) targets)
                    (registeredHooks (this s) needle)).
      clear. intros todo. by induction todo as [|[h t] todo IH].
Qed.

(** C8. Given a region, directly or as a promise that resolves with it,
    [highlight] asks the screen provider to highlight that region with
    the instance's [highlightDurationMs] and [highlightOpacity], once, and
    when that call returns it resolves with the region it was given.  It
    never resolves with anything else, and the [autoHighlight] flag has
    no part in it. *)
Theorem highlight_returns_its_region regionToHighlight region s :
  awaited regionToHighlight = Resolved (Is region) ->
  (forall u w,
      screen_highlightScreenRegion env region
        (highlightDurationMs (config (this s)))
        (highlightOpacity (config (this s))) (world s) = (Resolved u, w) ->
      highlight env regionToHighlight s =
      (Resolved region, mkState (this s) w,
       [Log Info
          (Highlighting region
             (PrimFloat.div (highlightDurationMs (config (this s))) 1000%float)
             (PrimFloat.mul (highlightOpacity (config (this s))) 100%float));
        HighlightScreenRegion region
          (highlightDurationMs (config (this s)))
          (highlightOpacity (config (this s))) (Resolved u)]))
  /\ (forall r s' evs,
        highlight env regionToHighlight s = (Resolved r, s', evs) ->
        r = region
        /\ exists u,
             filter (fun ev => isScreenCall ev = true) evs
             = [HighlightScreenRegion region
                  (highlightDurationMs (config (this s)))
                  (highlightOpacity (config (this s))) (Resolved u)])
  /\ (forall flag,
        (highlight env regionToHighlight (setAutoHighlight flag s)).1.1
        = (highlight env regionToHighlight s).1.1
        /\ (highlight env regionToHighlight (setAutoHighlight flag s)).2
           = (highlight env regionToHighlight s).2).
Proof.
  intros Harg. split_and!.
  - intros u w Hcall. rewrite (highlight_run env _ region) by done.
    cbv zeta. by rewrite Hcall.
  - intros r s' evs H. rewrite (highlight_run env _ region) in H by done.
    split_run H. simplify_eq. split; [done|]. by eexists.
  - intros flag. rewrite !(highlight_run env _ region) by done.
    simpl.
    by destruct (screen_highlightScreenRegion env region _ _ (world s)).
Qed.


(** C10. The registry is keyed by the needle object, not by its id or
    its contents.  Let [n1] and [n2] be two objects with the same field
    values, nothing being registered for [n2].  After [on(n1, cb)], a
    [find] or [findAll] for [n2] calls no hook at all, and it runs exactly
    as it does on an instance whose registry is empty: same outcome, same
    provider calls and log lines, same world afterwards. *)
Theorem hooks_are_keyed_by_identity n1 n2 callback searchInput params s :
  ref n1 <> ref n2 ->
  value n1 = value n2 ->
  awaited searchInput = Resolved (Is n2) ->
  findHooks (this s) !! ref n2 = None ->
  exists s1 evs1,
    on (Is n1) callback s = (Resolved tt, s1, evs1)
    /\ In callback (registeredHooks (this s1) n1)
    /\ (forall o s' evs,
          find env searchInput params s1 = (o, s', evs) ->
          hookCalls evs = []
          /\ find env searchInput params
               (mkState (mkScreen (config (this s)) ∅) (world s))
             = (o, mkState (mkScreen (config (this s)) ∅) (world s'), evs))
    /\ (forall o s' evs,
          findAll env searchInput params s1 = (o, s', evs) ->
          hookCalls evs = []
          /\ findAll env searchInput params
               (mkState (mkScreen (config (this s)) ∅) (world s))
             = (o, mkState (mkScreen (config (this s)) ∅) (world s'), evs)).
Proof.
  intros Href _ Hin Hnone.
  eexists _, _. split; [apply on_run|].
  assert (registeredHooks
            (mkScreen (config (this s))
               (<[ref n1 := registeredHooks (this s) n1 ++ [callback]]>
                  (findHooks (this s)))) n2 = []) as Hnone1.
  { unfold registeredHooks at 1. simpl.
    by rewrite lookup_insert_ne, Hnone. }
  split_and!.
  - unfold registeredHooks at 1. simpl. rewrite lookup_insert_eq. simpl.
    apply in_or_app. right. by left.
  - intros o s' evs H.
    apply find_without_hooks with (needle := n2) in H
      as (Hcalls & _ & Hsame); [|done|exact Hnone1].
    split; [done|]. by apply (Hsame (mkScreen (config (this s)) ∅)).
  - intros o s' evs H.
    apply findAll_without_hooks with (needle := n2) in H
      as (Hcalls & _ & Hsame); [|done|exact Hnone1].
    split; [done|]. by apply (Hsame (mkScreen (config (this s)) ∅)).
Qed.

End Specification.

(** ** The properties on the test bench *)

Lemma find_translates_match_location_witness :
  awaited (Direct (Is Bench.needle)) = Resolved (Is Bench.needle)
  /\ isWindowQuery Bench.needle = false
  /\ (find (Bench.finding (Resolved tt) Bench.quiet)
        (Direct (Is Bench.needle)) (Bench.within Bench.limited)
        (Bench.start true Desk.hooked)).1.1
     = Resolved (RegionResult (mkRegion 150 300 150 200)%float)
  /\ (findAll (Bench.finding (Resolved tt) Bench.quiet)
        (Direct (Is Bench.needle)) (Bench.within Bench.limited)
        (Bench.start true Desk.hooked)).1.1
     = Resolved
         [RegionResult (mkRegion 150 300 150 200)%float;
          RegionResult (mkRegion 110 220 30 40)%float].
Proof.
  split; [reflexivity|]. split; [reflexivity|].
  destruct (find_translates_match_location
              (Bench.finding (Resolved tt) Bench.quiet)
              Bench.needle (Direct (Is Bench.needle))
              (Bench.within Bench.limited) (Bench.start true Desk.hooked)
              eq_refl eq_refl) as (Hforward & _ & _).
  edestruct (Hforward Bench.limited) as [Hfind Hall].
  { eexists _, _, _. split; [reflexivity|]. split; [reflexivity|].
    split; [reflexivity|]. split; [reflexivity|]. vm_compute. reflexivity. }
  split.
  - eapply eq_trans.
    + eapply (Hfind Bench.found);
        [reflexivity|vm_compute; reflexivity|intros _; reflexivity].
    + reflexivity.
  - eapply eq_trans.
    + eapply (Hall [Bench.found; Bench.other]);
        [reflexivity|vm_compute; reflexivity].
    + reflexivity.
Defined.

Lemma find_rejects_invalid_search_region_witness :
  awaited (Direct (Is Bench.needle)) = Resolved (Is Bench.needle)
  /\ isWindowQuery Bench.needle = false
  /\ invalidSearchRegion Bench.negative Bench.screen
  /\ exists cause message s' evs,
       find (Bench.finding (Resolved tt) Bench.quiet)
         (Direct (Is Bench.needle)) (Bench.within Bench.negative)
         (Bench.start false ∅)
       = (Rejected (ErrorObject message), s', evs)
       /\ message = "Searching for " +:+ needle_id Bench.needle
                    +:+ " failed. Reason: '" +:+ toString cause +:+ "'"
       /\ contains message (needle_id Bench.needle)
       /\ contains message "failed. Reason:"
       /\ Forall (fun ev => isFinderCall ev = false) evs.
Proof.
  split; [reflexivity|]. split; [reflexivity|].
  split; [left; reflexivity|].
  apply (find_rejects_invalid_search_region
           (Bench.finding (Resolved tt) Bench.quiet) Bench.needle);
    [reflexivity|reflexivity|].
  intros screen w search Hscreen Hsearch.
  injection Hscreen as <- _. injection Hsearch as <-.
  left. reflexivity.
Defined.

Lemma search_failure_is_wrapped_witness :
  awaited (Direct (Is Bench.needle)) = Resolved (Is Bench.needle)
  /\ (find Desk.failingSearch (Direct (Is Bench.needle))
        (Bench.within Desk.inside) (Bench.start true Desk.hooked)).1.1
     = Rejected
         (ErrorObject "Searching for image failed. Reason: 'Search failed.'")
  /\ (findAll Desk.failingSearch (Direct (Is Bench.needle))
        (Bench.within Desk.inside) (Bench.start true Desk.hooked)).1.1
     = Rejected
         (ErrorObject "Searching for image failed. Reason: 'Search failed.'").
Proof.
  split; [reflexivity|].
  destruct (search_failure_is_wrapped Desk.failingSearch Bench.needle
              (Direct (Is Bench.needle)) (Bench.within Desk.inside)
              (Bench.start true Desk.hooked) eq_refl) as [Hfind Hall].
  split.
  - edestruct Hfind as [Hwrapped _]; [vm_compute; reflexivity|].
    apply (Hwrapped (Reason "Search failed.")).
    left. eexists. split; [in_last|]. split; reflexivity.
  - edestruct Hall as [Hwrapped _]; [vm_compute; reflexivity|].
    apply (Hwrapped (Reason "Search failed.")).
    left. eexists. split; [in_last|]. split; reflexivity.
Defined.

(** With [autoHighlight] on, the rejection of the highlight call reaches
    the caller as it is: [return this.highlight(resultRegion)] hands the
    promise back without awaiting it inside the [try] block. *)
Lemma highlight_failure_escapes_unwrapped :
  awaited (Direct (Is Bench.needle)) = Resolved (Is Bench.needle)
  /\ (find (Bench.finding (Rejected (Reason "overlay failed")) Bench.quiet)
        (Direct (Is Bench.needle)) None (Bench.start true ∅)).1.1
     = Rejected (Reason "overlay failed")
  /\ forall cause,
       Reason "overlay failed"
       <> ErrorObject
            ("Searching for " +:+ needle_id Bench.needle
             +:+ " failed. Reason: '" +:+ toString cause +:+ "'").
Proof. split; [reflexivity|]. split; [reflexivity|]. discriminate. Qed.

Lemma throwing_hook_aborts_find_witness :
  awaited (Direct (Is Bench.needle)) = Resolved (Is Bench.needle)
  /\ (find (Bench.finding (Resolved tt) (Bench.failing 8%positive))
        (Direct (Is Bench.needle)) None
        (Bench.start false {[ 1%positive := [7; 8; 9]%positive ]})).1.1
     = Rejected
         (ErrorObject "Searching for image failed. Reason: 'Error: boom'")
  /\ hookCalls
       (find (Bench.finding (Resolved tt) (Bench.failing 8%positive))
          (Direct (Is Bench.needle)) None
          (Bench.start false {[ 1%positive := [7; 8; 9]%positive ]})).2
     = [(7%positive, MatchTarget Bench.found);
        (8%positive, MatchTarget Bench.found)].
Proof.
  split; [reflexivity|].
  edestruct (throwing_hook_aborts_find
               (Bench.finding (Resolved tt) (Bench.failing 8%positive))
               Bench.needle (Direct (Is Bench.needle)) None
               (Bench.start false {[ 1%positive := [7; 8; 9]%positive ]})
               8%positive Bench.boom)
    as (Hout & before & after & target & Hhooks & Hcalls & Hfail).
  - reflexivity.
  - vm_compute. reflexivity.
  - vm_compute. apply list_elem_of_here.
  - split; [exact Hout|reflexivity].
Defined.

(** A hook that throws [Error: boom]: the caller sees the error of the
    [catch] clause, not the hook's. *)
Lemma hook_error_is_wrapped :
  hook_call (Bench.finding (Resolved tt) (Bench.failing 7%positive)) 7%positive
    (MatchTarget Bench.found)
    (Bench.start false {[ 1%positive := [7; 8]%positive ]})
  = (Rejected Bench.boom,
     Bench.start false {[ 1%positive := [7; 8]%positive ]})
  /\ (find (Bench.finding (Resolved tt) (Bench.failing 7%positive))
        (Direct (Is Bench.needle)) None
        (Bench.start false {[ 1%positive := [7; 8]%positive ]})).1.1
     = Rejected
         (ErrorObject "Searching for image failed. Reason: 'Error: boom'")
  /\ (find (Bench.finding (Resolved tt) (Bench.failing 7%positive))
        (Direct (Is Bench.needle)) None
        (Bench.start false {[ 1%positive := [7; 8]%positive ]})).1.1
     <> Rejected Bench.boom.
Proof.
  split; [reflexivity|]. split; [reflexivity|]. vm_compute. discriminate.
Qed.

Lemma validation_follows_screen_calls_witness :
  awaited (Direct (Is Bench.needle)) = Resolved (Is Bench.needle)
  /\ isWindowQuery Bench.needle = false
  /\ invalidSearchRegion Bench.negative Bench.screen
  /\ exists cause,
       validateSearchRegion (Bench.finding (Resolved tt) Bench.quiet)
         Bench.negative Bench.screen = Rejected cause
       /\ find (Bench.finding (Resolved tt) Bench.quiet)
            (Direct (Is Bench.needle)) (Bench.within Bench.negative)
            (Bench.start false ∅)
          = (Rejected (searchFailed Bench.needle cause),
             mkState (this (Bench.start false ∅)) 2,
             [ScreenSize (Resolved Bench.screen);
              GrabScreenRegion Bench.negative
                (Resolved (Is (Bench.screenshot Bench.negative)));
              Log Debug
                (RunningOnScreenSearch
                   (config_confidence (config (this (Bench.start false ∅))))
                   Bench.screen Bench.negative)]).
Proof.
  split; [reflexivity|]. split; [reflexivity|].
  split; [left; reflexivity|].
  eapply (validation_follows_screen_calls
            (Bench.finding (Resolved tt) Bench.quiet) Bench.needle
            (Direct (Is Bench.needle)) (Bench.within Bench.negative)
            (Bench.start false ∅));
    [reflexivity|reflexivity|reflexivity|reflexivity|reflexivity
    |reflexivity|left; reflexivity].
Defined.

(** An invalid search region: the screen provider has been asked for the
    screen size and for the content of the region before the validation
    error is raised. *)
Lemma screen_is_called_before_validation :
  invalidSearchRegion Bench.negative Bench.screen
  /\ find (Bench.finding (Resolved tt) Bench.quiet)
       (Direct (Is Bench.needle)) (Bench.within Bench.negative)
       (Bench.start false ∅)
     = (Rejected
          (ErrorObject
             "Searching for image failed. Reason: 'Error: Negative values in search region (region)'"),
        mkState (this (Bench.start false ∅)) 2,
        [ScreenSize (Resolved Bench.screen);
         GrabScreenRegion Bench.negative
           (Resolved (Is (Bench.screenshot Bench.negative)));
         Log Debug
           (RunningOnScreenSearch
              (config_confidence (config (this (Bench.start false ∅))))
              Bench.screen Bench.negative)])
  /\ ~ Forall (fun ev => isScreenCall ev = false)
         (find (Bench.finding (Resolved tt) Bench.quiet)
            (Direct (Is Bench.needle)) (Bench.within Bench.negative)
            (Bench.start false ∅)).2.
Proof.
  split; [left; reflexivity|]. split; [reflexivity|].
  intros Hnone. vm_compute in Hnone. inversion Hnone as [|?? Hcall _].
  discriminate Hcall.
Qed.

Lemma hooks_run_once_in_order_witness :
  awaited (Direct (Is Bench.needle)) = Resolved (Is Bench.needle)
  /\ (exists s evs0,
        register Bench.needle [7; 8; 9]%positive (Bench.start false ∅)
        = (Resolved tt, s, evs0)
        /\ hookEvents
             (find (Bench.finding (Resolved tt) Bench.quiet)
                (Direct (Is Bench.needle)) None s).2
           = [HookCall 7%positive (MatchTarget Bench.found) (Resolved tt);
              HookCall 8%positive (MatchTarget Bench.found) (Resolved tt);
              HookCall 9%positive (MatchTarget Bench.found) (Resolved tt)]
        /\ hookEvents
             (findAll (Bench.finding (Resolved tt) Bench.quiet)
                (Direct (Is Bench.needle)) None s).2
           = [HookCall 7%positive (MatchTarget Bench.found) (Resolved tt);
              HookCall 7%positive (MatchTarget Bench.other) (Resolved tt);
              HookCall 8%positive (MatchTarget Bench.found) (Resolved tt);
              HookCall 8%positive (MatchTarget Bench.other) (Resolved tt);
              HookCall 9%positive (MatchTarget Bench.found) (Resolved tt);
              HookCall 9%positive (MatchTarget Bench.other) (Resolved tt)]).
Proof.
  split; [reflexivity|].
  eexists _, _. split; [vm_compute; reflexivity|].
  edestruct (hooks_run_once_in_order
               (Bench.finding (Resolved tt) Bench.quiet) Bench.needle
               (Direct (Is Bench.needle)) None [7; 8; 9]%positive
               (Bench.start false ∅)) as (Hfind & Hall & _ & _).
  - reflexivity.
  - vm_compute. reflexivity.
  - split.
    + edestruct (Hfind (MatchTarget Bench.found)) as [Hevents _].
      * eexists _, _, _, _, _. split.
        -- eexists _, _, _. split; [reflexivity|]. split; [reflexivity|].
           split; [reflexivity|]. split; [reflexivity|].
           vm_compute. reflexivity.
        -- split; [reflexivity|]. split; reflexivity.
      * vm_compute. reflexivity.
      * exact Hevents.
    + edestruct (Hall (map MatchTarget [Bench.found; Bench.other]))
        as [Hevents _].
      * eexists _, _, _, _, _. split.
        -- eexists _, _, _. split; [reflexivity|]. split; [reflexivity|].
           split; [reflexivity|]. split; [reflexivity|].
           vm_compute. reflexivity.
        -- split; [reflexivity|]. split; reflexivity.
      * vm_compute. reflexivity.
      * exact Hevents.
Defined.



Lemma highlight_returns_its_region_witness :
  awaited (Pending (Resolved (Is Bench.limited)))
  = Resolved (Is Bench.limited)
  /\ (highlight (Bench.finding (Resolved tt) Bench.quiet)
        (Pending (Resolved (Is Bench.limited))) (Bench.start false ∅)).1.1
     = Resolved Bench.limited
  /\ (highlight (Bench.finding (Resolved tt) Bench.quiet)
        (Pending (Resolved (Is Bench.limited))) (Bench.start true ∅)).1.1
     = Resolved Bench.limited.
Proof.
  split; [reflexivity|].
  destruct (highlight_returns_its_region
              (Bench.finding (Resolved tt) Bench.quiet)
              (Pending (Resolved (Is Bench.limited))) Bench.limited
              (Bench.start false ∅) eq_refl) as (Hcall & _ & Hflag).
  split.
  - by rewrite (Hcall tt 1 eq_refl).
  - destruct (Hflag true) as [Hsame _].
    etransitivity; [exact Hsame|]. by rewrite (Hcall tt 1 eq_refl).
Defined.

Lemma hooks_are_keyed_by_identity_witness :
  ref Bench.needle <> ref Bench.twin
  /\ value Bench.needle = value Bench.twin
  /\ awaited (Direct (Is Bench.twin)) = Resolved (Is Bench.twin)
  /\ findHooks (this (Bench.start false ∅)) !! ref Bench.twin = None
  /\ exists s1 evs1,
       on (Is Bench.needle) 7%positive (Bench.start false ∅)
       = (Resolved tt, s1, evs1)
       /\ In 7%positive (registeredHooks (this s1) Bench.needle)
       /\ hookCalls
            (find (Bench.finding (Resolved tt) Bench.quiet)
               (Direct (Is Bench.twin)) None s1).2 = []
       /\ hookCalls
            (findAll (Bench.finding (Resolved tt) Bench.quiet)
               (Direct (Is Bench.twin)) None s1).2 = [].
Proof.
  assert (ref Bench.needle <> ref Bench.twin) as Href by discriminate.
  assert (findHooks (this (Bench.start false ∅)) !! ref Bench.twin = None)
    as Hnone by reflexivity.
  split; [exact Href|]. split; [reflexivity|]. split; [reflexivity|].
  split; [exact Hnone|].
  destruct (hooks_are_keyed_by_identity
              (Bench.finding (Resolved tt) Bench.quiet)
              Bench.needle Bench.twin 7%positive (Direct (Is Bench.twin))
              None (Bench.start false ∅) Href eq_refl eq_refl Hnone)
    as (s1 & evs1 & Hon & Hin & Hfind & Hall).
  exists s1, evs1. split; [exact Hon|]. split; [exact Hin|]. split.
  - destruct (find (Bench.finding (Resolved tt) Bench.quiet)
                (Direct (Is Bench.twin)) None s1) as [[o s'] evs] eqn:Hrun.
    by destruct (Hfind _ _ _ eq_refl).
  - destruct (findAll (Bench.finding (Resolved tt) Bench.quiet)
                (Direct (Is Bench.twin)) None s1) as [[o s'] evs] eqn:Hrun.
    by destruct (Hall _ _ _ eq_refl).
Defined.

(** * Further properties of the class *)

Section Further.
Context {World : Type} (env : Environment World).
Implicit Types (s : State World) (evs : list Event).

Local Abbreviation hookLoop hooks target :=
  (for_of hooks (fun hook =>
     log Debug ExecutingHook ;;; invoke env hook target)).

(** X1. A [find] on an image or a text query that resolves has made its
    calls in this order, each once: the screen size, the content of the
    search region, the finder's [findMatch], the registered hooks in
    registration order, and last, when [autoHighlight] is on at that
    point, the highlight of the region it resolves with, at the
    configured duration and opacity.  The request handed to the finder is
    the one [createMatchRequest] built from the needle, the search region,
    the grabbed image and the confidence ([params.confidence], or else
    [config.confidence]).  The hooks are given the finder's match result,
    not the region returned to the caller. *)
Theorem find_calls_in_order needle searchInput params s v s' evs :
  awaited searchInput = Resolved (Is needle) ->
  isWindowQuery needle = false ->
  find env searchInput params s = (Resolved v, s', evs) ->
  exists screen search img request found,
    searchRegionOf params screen = Resolved search
    /\ createMatchRequest env needle search
         (default (config_confidence (config (this s)))
            (params ≫= params_confidence)) img params = Resolved request
    /\ v = RegionResult (resultRegionOf search found)
    /\ calls evs
       = ScreenSize (Resolved screen)
         :: GrabScreenRegion search (Resolved img)
         :: FindMatch request (Resolved found)
         :: map (fun hook => HookCall hook (MatchTarget found) (Resolved tt))
              (registeredHooks (this s) needle)
         ++ (if autoHighlight (config (this s'))
             then [HighlightScreenRegion (resultRegionOf search found)
                     (highlightDurationMs (config (this s')))
                     (highlightOpacity (config (this s'))) (Resolved tt)]
             else []).
Proof.
  intros Hin Hw H.
  rewrite (find_run env _ needle), find_try_region_run,
    getFindParameters_run in H by done.
  split_run H;
    match goal with
    | Hr : searchRegionOf _ ?screen = Resolved ?search,
      Hg : screen_grabScreenRegion _ _ _ = (Resolved ?img, _),
      Hf : finder_findMatch _ ?req _ = (Resolved ?found, _) |- _ =>
        exists screen, search, img, req, found
    end;
    try match goal with
    | Hh : highlight _ _ _ = _ |- _ =>
        erewrite highlight_run in Hh by done; split_run Hh
    end;
    simplify_eq; simpl in *;
    match goal with
    | Hloop : for_of _ _ _ = _ |- _ => apply (hookLoop_events env) in Hloop
    end;
    (split_and!; [done|done|done|]);
    repeat (rewrite ?calls_app; simpl);
    match goal with Hc : calls _ = _ |- _ => rewrite Hc end;
    match goal with Hb : autoHighlight _ = _ |- _ => rewrite Hb end;
    rewrite ?app_nil_r;
    repeat match goal with u : unit |- _ => destruct u end;
    done.
Qed.

(** X2. A search region with none of the defects passes the validation:
    the finder is then called, once.  If it rejects, no hook is called,
    nothing is retried, and [find] rejects with the finder's reason in
    the error of the [catch] clause. *)
Theorem finder_rejection_is_wrapped needle searchInput params s
    screen w1 search img w2 request e w3 :
  awaited searchInput = Resolved (Is needle) ->
  isWindowQuery needle = false ->
  screen_screenSize env (world s) = (Resolved screen, w1) ->
  searchRegionOf params screen = Resolved search ->
  screen_grabScreenRegion env search w1 = (Resolved img, w2) ->
  createMatchRequest env needle search
    (default (config_confidence (config (this s)))
       (params ≫= params_confidence)) img params = Resolved request ->
  ~ invalidSearchRegion search screen ->
  finder_findMatch env request w2 = (Rejected e, w3) ->
  find env searchInput params s =
  (Rejected
     (ErrorObject
        ("Searching for " +:+ needle_id needle
         +:+ " failed. Reason: '" +:+ toString e +:+ "'")),
   mkState (this s) w3,
   [ScreenSize (Resolved screen);
    GrabScreenRegion search (Resolved img);
    Log Debug
      (RunningOnScreenSearch
         (default (config_confidence (config (this s)))
            (params ≫= params_confidence)) screen search);
    Log Debug SearchRegionIsValid;
    FindMatch request (Rejected e)]).
Proof.
  intros Hin Hw Hscreen Hsearch Hgrab Hreq Hvalid Hfind.
  rewrite (find_run env _ needle), find_try_region_run,
    getFindParameters_run by done.
  cbv zeta. rewrite Hscreen, Hsearch, Hgrab, Hreq.
  rewrite (validateSearchRegion_valid env search screen Hvalid).
  simpl. by rewrite Hfind.
Qed.

(** X3. A window query goes to the window finder alone.  [find] and
    [findAll] run on it as if no parameters were given: the search region
    is neither read nor validated, the screen is not grabbed, and no
    highlight is made whatever [autoHighlight] says.  When they resolve,
    the calls are the window finder's and then the hooks', each hook
    being given the window (for [findAll]: every window in turn). *)
Theorem window_query_uses_window_finder_only needle searchInput params s :
  awaited searchInput = Resolved (Is needle) ->
  isWindowQuery needle = true ->
  find env searchInput params s = find env searchInput None s
  /\ findAll env searchInput params s = findAll env searchInput None s
  /\ (forall v s' evs,
        find env searchInput params s = (Resolved v, s', evs) ->
        exists handle,
          v = WindowResult (mkWindow handle)
          /\ calls evs
             = WindowFindMatch needle (Resolved handle)
               :: map (fun hook =>
                         HookCall hook (WindowTarget (mkWindow handle))
                           (Resolved tt))
                    (registeredHooks (this s) needle))
  /\ (forall vs s' evs,
        findAll env searchInput params s = (Resolved vs, s', evs) ->
        exists handles,
          vs = map (fun h => WindowResult (mkWindow h)) handles
          /\ calls evs
             = WindowFindMatches needle (Resolved handles)
               :: flat_map
                    (fun hook =>
                       map (fun h =>
                              HookCall hook (WindowTarget (mkWindow h))
                                (Resolved tt)) handles)
                    (registeredHooks (this s) needle)).
Proof.
  intros Hin Hw. split_and!.
  - by rewrite !(find_run env _ needle), !find_try_window_run.
  - by rewrite !(findAll_run env _ needle), !findAll_try_window_run.
  - intros v s' evs H.
    rewrite (find_run env _ needle), find_try_window_run in H by done.
    split_run H. simplify_eq.
    match goal with
    | Hloop : for_of _ _ _ = _ |- _ => apply (hookLoop_events env) in Hloop
    end.
    eexists. split; [done|]. simpl. by f_equal.
  - intros vs s' evs H.
    rewrite (findAll_run env _ needle), findAll_try_window_run in H by done.
    split_run H. simplify_eq.
    match goal with
    | Hloop : for_of _ _ _ = _ |- _ => apply (hooksLoop_events env) in Hloop
    end.
    eexists. split; [by rewrite map_map|]. simpl. f_equal.
    match goal with Hc : calls _ = _ |- _ => rewrite Hc end.
    clear. induction (registeredHooks (this s) needle) as [|h hooks IH];
      [done|].
    simpl. by rewrite map_map, IH.
Qed.

(** X4. A [findAll] on an image or a text query that resolves has made
    its calls in this order: the screen size, the content of the search
    region, the finder's [findMatches], and then each registered hook on
    every match result in turn.  It resolves with the finder's results,
    each moved by the origin of the search region.  When [autoHighlight]
    is on, one highlight per result is started, in result order, and none
    is waited for: each of them then calls the screen provider with the
    duration and opacity of [config], in result order and whatever the
    calls before it came to, and [findAll] has resolved all the same.
    When [autoHighlight] is off, nothing is started. *)
Theorem findAll_calls_in_order needle searchInput params s vs s' evs :
  awaited searchInput = Resolved (Is needle) ->
  isWindowQuery needle = false ->
  findAll env searchInput params s = (Resolved vs, s', evs) ->
  exists screen search img request found started,
    searchRegionOf params screen = Resolved search
    /\ createMatchRequest env needle search
         (default (config_confidence (config (this s)))
            (params ≫= params_confidence)) img params = Resolved request
    /\ vs = map (fun m => RegionResult (resultRegionOf search m)) found
    /\ calls evs
       = ScreenSize (Resolved screen)
         :: GrabScreenRegion search (Resolved img)
         :: FindMatches request (Resolved found)
         :: flat_map
              (fun hook =>
                 map (fun m => HookCall hook (MatchTarget m) (Resolved tt))
                   found)
              (registeredHooks (this s) needle)
         ++ started
    /\ if autoHighlight (config (this s'))
       then exists outs,
              length outs = length found
              /\ started
                 = map (fun m => Detached (resultRegionOf search m)) found
                   ++ zip_with
                        (fun m out =>
                           HighlightScreenRegion (resultRegionOf search m)
                             (highlightDurationMs (config (this s')))
                             (highlightOpacity (config (this s'))) out)
                        found outs
       else started = [].
Proof.
  intros Hin Hw H.
  rewrite (findAll_run env _ needle), findAll_try_region_run,
    getFindParameters_run in H by done.
  split_run H;
    match goal with
    | Hr : searchRegionOf _ ?screen = Resolved ?search,
      Hg : screen_grabScreenRegion _ _ _ = (Resolved ?img, _),
      Hf : finder_findMatches _ ?req _ = (Resolved ?found, _) |- _ =>
        exists screen, search, img, req, found
    end;
    simplify_eq; simpl in *;
    match goal with
    | Hloop : for_of _ _ _ = _ |- _ => apply (hooksLoop_events env) in Hloop
    end;
    try match goal with
    | Hh : startHighlights _ _ _ _ _ = _ |- _ =>
        apply startHighlights_calls in Hh as (outs & Hlen & Hh)
    end;
    eexists;
    (split_and!;
     [ done | done | by rewrite map_map
     | repeat (rewrite ?calls_app, ?calls_logs, ?calls_detached; simpl);
       repeat match goal with Hc : calls _ = _ |- _ => rewrite Hc; clear Hc end;
       reflexivity
     | match goal with Hb : autoHighlight _ = _ |- _ => rewrite Hb end ]).
  - exists outs. rewrite length_map in Hlen. split; [done|].
    by rewrite map_map, zip_with_fmap_l.
  - done.
Qed.

(** X5. When the finder finds nothing, [findAll] does not fail: it
    resolves with the empty list.  Whatever hooks are registered, none is
    called, and nothing is highlighted. *)
Theorem findAll_without_matches needle searchInput params s
    screen w1 search img w2 request w3 :
  awaited searchInput = Resolved (Is needle) ->
  isWindowQuery needle = false ->
  screen_screenSize env (world s) = (Resolved screen, w1) ->
  searchRegionOf params screen = Resolved search ->
  screen_grabScreenRegion env search w1 = (Resolved img, w2) ->
  createMatchRequest env needle search
    (default (config_confidence (config (this s)))
       (params ≫= params_confidence)) img params = Resolved request ->
  ~ invalidSearchRegion search screen ->
  finder_findMatches env request w2 = (Resolved [], w3) ->
  exists evs,
    findAll env searchInput params s
    = (Resolved [], mkState (this s) w3, evs)
    /\ calls evs
       = [ScreenSize (Resolved screen);
          GrabScreenRegion search (Resolved img);
          FindMatches request (Resolved [])].
Proof.
  intros Hin Hw Hscreen Hsearch Hgrab Hreq Hvalid Hfind.
  rewrite (findAll_run env _ needle), findAll_try_region_run,
    getFindParameters_run by done.
  cbv zeta. rewrite Hscreen, Hsearch, Hgrab, Hreq.
  rewrite (validateSearchRegion_valid env search screen Hvalid).
  simpl. rewrite Hfind, hooksLoop_nothing. simpl.
  destruct (autoHighlight (config (this s))); by eexists.
Qed.

(** X6. A value of the wrong type is turned down before anything
    happens.  [find] and [findAll] given something that is no image, text
    query or window query, [highlight] and [captureRegion] given
    something that is no region, reject with their own [... requires ...]
    error, which is not wrapped; [on] throws it.  A value on which the
    type check, or the [JSON.stringify] of the message, throws (as
    [null] does) makes them reject instead with what was thrown, as it
    is: the check stands before the [try] block.  A rejected promise
    passed as the argument rejects the call with the promise's reason.
    In all three cases no provider is called, nothing is logged, and the
    instance (its registry too) is as before. *)
Theorem wrong_input_is_turned_down json thrown s :
  (forall (x : Awaitable (Dyn FindInput)) params,
      (awaited x = Resolved (IsNot json) ->
       find env x params s
       = (Rejected
            (ErrorObject
               ("find requires an Image, a text query or a window query, but received "
                +:+ json)), s, [])
       /\ findAll env x params s
          = (Rejected
               (ErrorObject
                  ("findAll requires an Image, a text query or a window query, but received "
                   +:+ json)), s, []))
      /\ (awaited x = Resolved (Throws thrown) \/ awaited x = Rejected thrown ->
          find env x params s = (Rejected thrown, s, [])
          /\ findAll env x params s = (Rejected thrown, s, [])))
  /\ (forall (x : Awaitable (Dyn Region)) fileName fileFormat filePath
             prefix postfix,
        (awaited x = Resolved (IsNot json) ->
         highlight env x s
         = (Rejected
              (ErrorObject
                 ("highlight requires an Region, but received " +:+ json)),
            s, [])
         /\ captureRegion env fileName x fileFormat filePath prefix postfix s
            = (Rejected
                 (ErrorObject
                    ("captureRegion requires an Region, but received "
                     +:+ json)), s, []))
        /\ (awaited x = Resolved (Throws thrown)
            \/ awaited x = Rejected thrown ->
            highlight env x s = (Rejected thrown, s, [])
            /\ captureRegion env fileName x fileFormat filePath prefix
                 postfix s
               = (Rejected thrown, s, [])))
  /\ (forall callback,
        on (IsNot json) callback s
        = (Rejected
             (ErrorObject
                ("on requires an Image, a text query or a window query, but received "
                 +:+ json)), s, [])
        /\ on (Throws thrown) callback s = (Rejected thrown, s, [])).
Proof.
  split_and!.
  - intros x params. split.
    + intros Hx. unfold find, findAll, bind. by rewrite !await_run, Hx.
    + intros [Hx|Hx]; unfold find, findAll, bind; by rewrite !await_run, Hx.
  - intros x fileName fileFormat filePath prefix postfix. split.
    + intros Hx. unfold highlight, captureRegion, bind.
      by rewrite !await_run, Hx.
    + intros [Hx|Hx]; unfold highlight, captureRegion, bind;
        by rewrite !await_run, Hx.
  - done.
Qed.

(** X7. Registrations for different needles do not interfere: registering
    callbacks for one needle and then for another leaves the instance in
    the same state as registering them the other way round. *)
Theorem registrations_commute n1 n2 callbacks1 callbacks2 s :
  ref n1 <> ref n2 ->
  (bind (register n1 callbacks1) (fun _ => register n2 callbacks2) s).1
  = (bind (register n2 callbacks2) (fun _ => register n1 callbacks1) s).1.
Proof.
  intros Href. unfold bind.
  pose proof (register_state n1 callbacks1 s) as H1.
  pose proof (register_state n2 callbacks2 s) as H2.
  destruct (register n1 callbacks1 s) as [[o1 s1] t1].
  destruct (register n2 callbacks2 s) as [[o2 s2] t2].
  simpl in H1, H2. simplify_eq.
  match goal with
  | |- context [register n2 callbacks2 ?st] =>
      pose proof (register_state n2 callbacks2 st) as H3;
      destruct (register n2 callbacks2 st) as [[o3 s3] t3]
  end.
  match goal with
  | |- context [register n1 callbacks1 ?st] =>
      pose proof (register_state n1 callbacks1 st) as H4;
      destruct (register n1 callbacks1 st) as [[o4 s4] t4]
  end.
  simpl in H3, H4. simplify_eq. simpl. f_equal. f_equal. f_equal.
  unfold registeredHooks. simpl.
  destruct callbacks1 as [|c1 callbacks1], callbacks2 as [|c2 callbacks2];
    try done.
  rewrite !lookup_insert_ne by done.
  by rewrite insert_insert_ne.
Qed.

(** X8. Validation accepts exactly the regions with none of the defects:
    no negative component, no [NaN] component, width and height at least
    two, and neither [left + width] beyond the screen's width nor
    [top + height] beyond its height. *)
Theorem validateSearchRegion_accepts search screen :
  validateSearchRegion env search screen = Resolved tt
  <-> ~ invalidSearchRegion search screen.
Proof.
  split.
  - intros Hok Hinvalid.
    destruct (validateSearchRegion_invalid env search screen Hinvalid)
      as [message Hno].
    by rewrite Hok in Hno.
  - apply validateSearchRegion_valid.
Qed.

(** X9. [capture] and [captureRegion] pass failures on as they are, and
    never call the image writer without an image.  A [capture] that
    rejects does so either with the reason the screen grab rejected with,
    or with [capture requires an Image ...] because the grab gave
    something else, in both cases without any [store] call, or with the
    reason the one [store] call rejected with; or else, still without any
    [store] call, with what the check of the grabbed value threw.
    [captureRegion] is the same, after its own check that it was given a
    region. *)
Theorem capture_failures fileName fileFormat filePath prefix postfix s :
  (forall e s' evs,
      capture env fileName fileFormat filePath prefix postfix s
      = (Rejected e, s', evs) ->
      (GrabScreen (Rejected e) ∈ evs /\ storeCalls evs = [])
      \/ (exists json,
            GrabScreen (Resolved (IsNot json)) ∈ evs
            /\ e = ErrorObject
                     ("capture requires an Image, but received " +:+ json)
            /\ storeCalls evs = [])
      \/ (exists image path,
            GrabScreen (Resolved (Is image)) ∈ evs
            /\ Store image path (Rejected e) ∈ evs
            /\ storeCalls evs = [(image, path)])
      \/ (GrabScreen (Resolved (Throws e)) ∈ evs /\ storeCalls evs = []))
  /\ (forall regionToCapture e s' evs,
        captureRegion env fileName regionToCapture fileFormat filePath
          prefix postfix s = (Rejected e, s', evs) ->
        (awaited regionToCapture = Rejected e /\ evs = [])
        \/ (exists json,
              awaited regionToCapture = Resolved (IsNot json)
              /\ e = ErrorObject
                       ("captureRegion requires an Region, but received "
                        +:+ json)
              /\ evs = [])
        \/ (exists region,
              awaited regionToCapture = Resolved (Is region)
              /\ ((GrabScreenRegion region (Rejected e) ∈ evs
                   /\ storeCalls evs = [])
                  \/ (exists json,
                        GrabScreenRegion region (Resolved (IsNot json)) ∈ evs
                        /\ e = ErrorObject
                                 ("captureRegion requires an Image, but received "
                                  +:+ json)
                        /\ storeCalls evs = [])
                  \/ (exists image path,
                        GrabScreenRegion region (Resolved (Is image)) ∈ evs
                        /\ Store image path (Rejected e) ∈ evs
                        /\ storeCalls evs = [(image, path)])
                  \/ (GrabScreenRegion region (Resolved (Throws e)) ∈ evs
                      /\ storeCalls evs = [])))
        \/ (awaited regionToCapture = Resolved (Throws e) /\ evs = [])).
Proof.
  split.
  - intros e s' evs H. unfold capture in H.
    apply bind_inv in H as [(cur & s1 & t1 & t2 & H1 & H2 & ->)|(? & H1 & ?)].
    + apply provider_inv in H1 as (w & Hgrab & -> & ->).
      destruct cur as [image|json|thrown].
      * apply bind_inv in H2
          as [(? & s2 & t3 & t4 & H2 & H3 & ->)|(? & H2 & ?)]; [|done].
        unfold log, emit in H2. simplify_eq.
        rewrite saveImage_run in H3. split_run H3. simplify_eq.
        right. right. left. eexists _, _.
        split_and!; [in_events|in_events|done].
      * unfold throw in H2. simplify_eq.
        right. left. eexists. split_and!; [in_events|done|done].
      * unfold throw in H2. simplify_eq.
        right. right. right. split; [in_events|done].
    + apply provider_inv in H1 as (w & Hgrab & -> & ->). simplify_eq.
      left. split; [in_events|done].
  - intros regionToCapture e s' evs H. unfold captureRegion in H.
    apply bind_inv in H as [(tgt & s1 & t1 & t2 & H1 & H2 & ->)|(? & H1 & ?)].
    + rewrite await_run in H1. simplify_eq.
      destruct tgt as [region|json|thrown].
      * right. right. left. exists region. split; [done|].
        apply bind_inv in H2
          as [(? & s2 & t3 & t4 & H2 & H3 & ->)|(? & H2 & ?)]; [|done].
        unfold log, emit in H2. simplify_eq.
        apply bind_inv in H3
          as [(img & s3 & t5 & t6 & H3 & H4 & ->)|(? & H3 & ?)].
        -- apply provider_inv in H3 as (w & Hgrab & -> & ->).
           destruct img as [image|json|thrown].
           ++ rewrite saveImage_run in H4. split_run H4. simplify_eq.
              right. right. left. eexists _, _.
              split_and!; [in_events|in_events|done].
           ++ unfold throw in H4. simplify_eq.
              right. left. eexists. split_and!; [in_events|done|done].
           ++ unfold throw in H4. simplify_eq.
              right. right. right. split; [in_events|done].
        -- apply provider_inv in H3 as (w & Hgrab & -> & ->). simplify_eq.
           left. split; [in_events|done].
      * unfold throw in H2. simplify_eq. right. left. by eexists.
      * unfold throw in H2. simplify_eq. by right; right; right.
    + rewrite await_run in H1. simplify_eq. by left.
Qed.

(** X10. With [autoHighlight] on, the outcome of [find] is the outcome
    of the highlight.  If the highlight call of a [find] rejects, the
    match had been found and every hook had returned, and yet [find]
    rejects, with the reason of the highlight call as it is: this one
    failure does not pass through the [catch] clause. *)
Theorem highlight_rejection_reaches_caller needle searchInput params s
    o s' evs region durationMs opacity e :
  awaited searchInput = Resolved (Is needle) ->
  find env searchInput params s = (o, s', evs) ->
  HighlightScreenRegion region durationMs opacity (Rejected e) ∈ evs ->
  o = Rejected e
  /\ hookFailures evs = []
  /\ exists request found search,
       FindMatch request (Resolved found) ∈ evs
       /\ region = resultRegionOf search found
       /\ hookCalls evs
          = map (fun hook => (hook, MatchTarget found))
              (registeredHooks (this s) needle).
Proof.
  intros Hin H Hcall.
  assert (forall hooks target st o1 st1 l,
    hookLoop hooks target st = (o1, st1, l) ->
    HighlightScreenRegion region durationMs opacity (Rejected e) ∈ l ->
    False) as Hloopfree.
  { intros hooks target st o1 st1 l Hloop Hl.
    destruct (hookLoop_only_hooks env _ _ _ _ _ _ _ Hloop Hl)
      as [(? & ? & ?)|(? & ? & ? & ?)]; done. }
  rewrite (find_run env _ needle) in H by done.
  destruct (isWindowQuery needle) eqn:Hw.
  - rewrite find_try_window_run in H by done.
    split_run H; simplify_eq; exfalso;
      repeat (apply elem_of_cons in Hcall as [?|Hcall]; [done|]);
      try (by apply elem_of_nil in Hcall);
      by eapply Hloopfree.
  - rewrite find_try_region_run, getFindParameters_run in H by done.
    split_run H;
      try match goal with
      | Hh : highlight _ _ _ = _ |- _ =>
          erewrite highlight_run in Hh by done; split_run Hh
      end;
      simplify_eq; simpl in *;
      repeat match goal with
      | Hm : _ ∈ [] |- _ => by apply elem_of_nil in Hm
      | Hm : _ ∈ _ :: _ |- _ => apply elem_of_cons in Hm as [Hm|Hm]
      | Hm : _ ∈ _ ++ _ |- _ => apply elem_of_app in Hm as [Hm|Hm]
      | Hm : HighlightScreenRegion _ _ _ _ = _ |- _ => by simplify_eq
      | Hm : _ ∈ ?l, Hl : for_of _ _ _ = (_, _, ?l) |- _ =>
          exfalso; eapply Hloopfree; [exact Hl|exact Hm]
      end.
    simplify_eq.
    match goal with
    | Hloop : for_of _ _ _ = _ |- _ =>
        apply hookLoop_calls in Hloop; destruct Hloop as [Hcalls Hnone]
    end.
    repeat (rewrite ?hookFailures_app, ?hookCalls_app; simpl).
    rewrite Hcalls, Hnone, !app_nil_r.
    split_and!; [done|done|].
    eexists _, _, _. split_and!; [in_events|done|done].
Qed.

End Further.

(** ** What a run never does *)

Section Orderly.
Context {World : Type} (env : Environment World).
Implicit Types (s : State World) (evs : list Event).

(** Nothing follows a failure, and a resolved run has none. *)
Local Abbreviation settled :=
  (fun (_ : State World) (b : bool) (_ : State World) evs =>
     failFast evs = true /\ (b = true -> noFailure evs = true)).

Lemma failFast_after evs1 evs2 :
  noFailure evs1 = true -> failFast (evs1 ++ evs2) = failFast evs2.
Proof.
  induction evs1 as [|ev evs1 IH]; [done|]. simpl.
  intros [Hev Hrest]%andb_prop. apply negb_true_iff in Hev.
  rewrite Hev. by apply IH.
Qed.

Lemma noFailure_app evs1 evs2 :
  noFailure (evs1 ++ evs2) = noFailure evs1 && noFailure evs2.
Proof. apply forallb_app. Qed.

Lemma noFailure_elem evs ev :
  noFailure evs = true -> ev ∈ evs -> failed ev = false.
Proof.
  intros Hnone Hin. induction Hin as [ev evs|ev other evs Hin IH];
    simpl in Hnone; apply andb_prop in Hnone as [Hev Hrest].
  - by apply negb_true_iff in Hev.
  - by apply IH.
Qed.

Lemma settled_seq s s1 s2 b t1 t2 :
  settled s true s1 t1 -> settled s1 b s2 t2 -> settled s b s2 (t1 ++ t2).
Proof.
  intros [_ H1] [H2 H3]. specialize (H1 eq_refl). split.
  - by rewrite failFast_after.
  - intros Hb. rewrite noFailure_app, H1. by apply H3.
Qed.

Lemma settled_call s w ev b :
  outcomeOf ev = Some b -> hookCalls [ev] = [] ->
  settled s b (mkState (this s) w) [ev].
Proof.
  intros Hev _. unfold noFailure, failed. simpl. unfold failed.
  rewrite Hev. split; [by destruct b|]. by intros ->.
Qed.

Lemma settled_hook s hook target :
  settled s (succeeded (hook_call env hook target s).1)
    (hook_call env hook target s).2
    [HookCall hook target (hook_call env hook target s).1].
Proof.
  destruct (hook_call env hook target s) as [[[]|e] s1]; by split.
Qed.

Lemma holds_orderly {A} (m : M World A) s :
  holds settled (fun _ => True) m -> orderly (m s).
Proof.
  intros Hm. destruct (m s) as [[o s'] evs] eqn:Hrun.
  destruct (Hm _ _ _ _ Hrun) as [[Hfast Hnone] _]. split; [done|].
  simpl. intros Hok. by apply Hnone.
Qed.

(** The hook loops of [findAll] are settled. *)
Lemma hooks_settled {A} hooks (mk : A -> Target) (xs : list A) s o s' evs :
  for_of hooks (fun hook =>
    for_of xs (fun x =>
      log Debug ExecutingHook ;;; invoke env hook (mk x))) s
  = (o, s', evs) ->
  failFast evs = true /\ (succeeded o = true -> noFailure evs = true).
Proof.
  intros H.
  eapply (holds_hooks env settled); [..|exact H];
    auto using settled_seq, settled_hook.
Qed.

(** X11. Nothing follows a failure.  In every run of [find],
    [highlight], [capture] and [captureRegion], whatever the arguments
    and whatever the providers and hooks do, a provider call that
    rejected or a hook that threw is the last thing that happened: no
    further call is made and no further line is logged, nothing is
    retried or cleaned up; and the method resolves only if every call it
    made resolved.  [findAll] is the same as long as it rejects: the
    failure is the last thing that happened, and no highlight was
    started.  A [findAll] that resolves is the exception the code makes:
    of the calls it awaited none failed, but the highlights it started
    and left alone are all called whatever became of the ones before, so
    that a call that rejected, then always a highlight call, may be
    followed by others. *)
Theorem nothing_follows_a_failure searchInput params regionToHighlight
    fileName regionToCapture fileFormat filePath prefix postfix s :
  orderly (find env searchInput params s)
  /\ orderly (highlight env regionToHighlight s)
  /\ orderly (capture env fileName fileFormat filePath prefix postfix s)
  /\ orderly
       (captureRegion env fileName regionToCapture fileFormat filePath
          prefix postfix s)
  /\ (succeeded (findAll env searchInput params s).1.1 = false ->
      failFast (findAll env searchInput params s).2 = true
      /\ forall ev,
           ev ∈ (findAll env searchInput params s).2 ->
           isHighlightCall ev = false /\ forall region, ev <> Detached region)
  /\ (succeeded (findAll env searchInput params s).1.1 = true ->
      forall ev,
        ev ∈ (findAll env searchInput params s).2 ->
        failed ev = true -> isHighlightCall ev = true).
Proof.
  assert ((exists needle, awaited searchInput = Resolved (Is needle))
          \/ exists e, findAll env searchInput params s = (Rejected e, s, []))
    as Hinput.
  { unfold findAll, bind. rewrite await_run.
    destruct (awaited searchInput) as [[needle|json|thrown]|e];
      [by left; eexists|by right; eexists..]. }
  split_and!.
  - apply holds_orderly, (holds_find env settled);
      auto using settled_seq, settled_call, settled_hook.
  - apply holds_orderly, (holds_highlight env settled);
      auto using settled_seq, settled_call.
  - apply holds_orderly, (holds_capture env settled);
      auto using settled_seq, settled_call.
  - apply holds_orderly, (holds_captureRegion env settled);
      auto using settled_seq, settled_call.
  - destruct Hinput as [(needle & Hin)|(e & ->)];
      [|intros _; split; [done|by intros ev ?%elem_of_nil]].
    rewrite (findAll_run env _ needle) by done.
    destruct (isWindowQuery needle) eqn:Hw.
    + rewrite findAll_try_window_run by done.
      destruct (windowFinder_findMatches env needle (world s))
        as [[handles|e] w]; cbv zeta.
      * destruct (for_of (registeredHooks (this s) needle) _ _)
          as [[[[]|e] s2] t2] eqn:Hloop; [done|].
        intros _. destruct (hooks_settled _ _ _ _ _ _ _ Hloop) as [Hfast _].
        apply hooksLoop_runHooks in Hloop. split; [done|].
        intros ev Hm. members Hm; subst; try done.
        destruct (chain_member env _ _ _ _ _ _ Hloop Hm)
          as [(? & ? & ->)|(? & ? & ? & ->)]; done.
      * intros _. split; [done|].
        intros ev ->%list_elem_of_singleton. done.
    + rewrite findAll_try_region_run, getFindParameters_run by done.
      cbv zeta.
      repeat match goal with
      | |- context [match ?x with _ => _ end] =>
          lazymatch x with
          | context [match _ with _ => _ end] => fail
          | _ => destruct x eqn:?
          end
      end;
        simpl; try done; intros _;
        try match goal with
        | Hloop : for_of _ _ _ = _ |- _ =>
            destruct (hooks_settled _ _ _ _ _ _ _ Hloop) as [Hfast _];
            apply hooksLoop_runHooks in Hloop
        end;
        (split; [done|]);
        intros ev Hm; members Hm; subst; try done;
        match goal with
        | Hchain : runHooks _ _ _ = (_, _, calls ?l), Hl : _ ∈ ?l |- _ =>
            destruct (chain_member env _ _ _ _ _ _ Hchain Hl)
              as [(? & ? & ->)|(? & ? & ? & ->)]; done
        end.
  - destruct Hinput as [(needle & Hin)|(e & ->)]; [|done].
    rewrite (findAll_run env _ needle) by done.
    destruct (isWindowQuery needle) eqn:Hw.
    + rewrite findAll_try_window_run by done.
      destruct (windowFinder_findMatches env needle (world s))
        as [[handles|e] w]; cbv zeta; [|done].
      destruct (for_of (registeredHooks (this s) needle) _ _)
        as [[[[]|e] s2] t2] eqn:Hloop; [|done].
      intros _ ev Hm Hfailed.
      destruct (hooks_settled _ _ _ _ _ _ _ Hloop) as [_ Hnone].
      members Hm; subst; try done.
      by rewrite (noFailure_elem _ _ (Hnone eq_refl) Hm) in Hfailed.
    + rewrite findAll_try_region_run, getFindParameters_run by done.
      cbv zeta.
      repeat match goal with
      | |- context [match ?x with _ => _ end] =>
          lazymatch x with
          | context [match _ with _ => _ end] => fail
          | _ => destruct x eqn:?
          end
      end;
        simpl; try done; intros _ ev Hm Hfailed;
        match goal with
        | Hloop : for_of _ _ _ = _ |- _ =>
            destruct (hooks_settled _ _ _ _ _ _ _ Hloop) as [_ Hnone]
        end;
        members Hm; subst; try done;
        try (by rewrite (noFailure_elem _ _ (Hnone eq_refl) Hm) in Hfailed);
        match goal with
        | Hh : startHighlights _ _ _ _ _ = (?l, _), Hl : _ ∈ ?l |- _ =>
            destruct (startHighlights_member env _ _ _ _ _ _ _ Hh Hl)
              as [(? & ? & ->)|(? & ? & ? & ? & ->)]; done
        end.
Qed.

(** The instance is as before when the hooks that were called are hooks
    that leave it alone. *)
Local Abbreviation kept :=
  (fun s (_ : bool) s' evs =>
     (forall hook target,
         (hook, target) ∈ hookCalls evs -> keepsInstance env hook target) ->
     this s' = this s).

Lemma kept_seq s s1 s2 b t1 t2 :
  kept s true s1 t1 -> kept s1 b s2 t2 -> kept s b s2 (t1 ++ t2).
Proof.
  intros H1 H2 Hhooks. rewrite H2.
  - apply H1. intros hook target Hin. apply Hhooks.
    rewrite hookCalls_app. apply elem_of_app. by left.
  - intros hook target Hin. apply Hhooks.
    rewrite hookCalls_app. apply elem_of_app. by right.
Qed.

Lemma kept_hook s hook target :
  kept s (succeeded (hook_call env hook target s).1)
    (hook_call env hook target s).2
    [HookCall hook target (hook_call env hook target s).1].
Proof. intros Hhooks. apply Hhooks. simpl. apply list_elem_of_here. Qed.

Lemma kept_started s region :
  kept s true (highlight env (Direct (Is region)) s).1.2
    (highlight env (Direct (Is region)) s).2.
Proof.
  intros _. erewrite highlight_run by done. cbv zeta.
  by destruct (screen_highlightScreenRegion env region _ _ (world s)).
Qed.

(** The relation without hooks: the instance is as before. *)
Local Abbreviation same :=
  (fun s (_ : bool) s' (_ : list Event) => this s' = this s).


End Orderly.

(** ** The further properties on the test bench *)

Lemma find_calls_in_order_witness :
  awaited (Direct (Is Bench.needle)) = Resolved (Is Bench.needle)
  /\ isWindowQuery Bench.needle = false
  /\ (find (Bench.finding (Resolved tt) Bench.quiet)
        (Direct (Is Bench.needle)) (Bench.within Bench.limited)
        (Bench.start true Desk.hooked)).1.1
     = Resolved (RegionResult (mkRegion 150 300 150 200)%float)
  /\ exists screen search img request found,
       searchRegionOf (Bench.within Bench.limited) screen = Resolved search
       /\ createMatchRequest (Bench.finding (Resolved tt) Bench.quiet)
            Bench.needle search
            (default
               (config_confidence
                  (config (this (Bench.start true Desk.hooked))))
               (Bench.within Bench.limited ≫= params_confidence))
            img (Bench.within Bench.limited) = Resolved request
       /\ RegionResult (mkRegion 150 300 150 200)%float
          = RegionResult (resultRegionOf search found)
       /\ calls
            (find (Bench.finding (Resolved tt) Bench.quiet)
               (Direct (Is Bench.needle)) (Bench.within Bench.limited)
               (Bench.start true Desk.hooked)).2
          = ScreenSize (Resolved screen)
            :: GrabScreenRegion search (Resolved img)
            :: FindMatch request (Resolved found)
            :: map (fun hook => HookCall hook (MatchTarget found) (Resolved tt))
                 [7; 8]%positive
            ++ [HighlightScreenRegion (resultRegionOf search found)
                  500%float 0.25%float (Resolved tt)].
Proof.
  split; [reflexivity|]. split; [reflexivity|]. split; [reflexivity|].
  edestruct (find_calls_in_order
               (Bench.finding (Resolved tt) Bench.quiet) Bench.needle
               (Direct (Is Bench.needle)) (Bench.within Bench.limited)
               (Bench.start true Desk.hooked))
    as (screen & search & img & request & found & Hsearch & Hreq & Hv & Hcalls).
  - reflexivity.
  - reflexivity.
  - vm_compute. reflexivity.
  - exists screen, search, img, request, found.
    split; [exact Hsearch|]. split; [exact Hreq|]. split; [exact Hv|].
    exact Hcalls.
Defined.

Lemma finder_rejection_is_wrapped_witness :
  awaited (Direct (Is Bench.needle)) = Resolved (Is Bench.needle)
  /\ isWindowQuery Bench.needle = false
  /\ ~ invalidSearchRegion Desk.inside Bench.screen
  /\ (find Desk.failingSearch (Direct (Is Bench.needle))
        (Bench.within Desk.inside) (Bench.start false Desk.hooked)).1.1
     = Rejected
         (ErrorObject "Searching for image failed. Reason: 'Search failed.'")
  /\ hookCalls
       (find Desk.failingSearch (Direct (Is Bench.needle))
          (Bench.within Desk.inside) (Bench.start false Desk.hooked)).2
     = [].
Proof.
  assert (~ invalidSearchRegion Desk.inside Bench.screen) as Hvalid.
  { intros H. repeat destruct H as [H|H]; vm_compute in H; discriminate H. }
  split; [reflexivity|]. split; [reflexivity|]. split; [exact Hvalid|].
  erewrite (finder_rejection_is_wrapped Desk.failingSearch Bench.needle
              (Direct (Is Bench.needle)) (Bench.within Desk.inside)
              (Bench.start false Desk.hooked));
    [|reflexivity|reflexivity|reflexivity|reflexivity
    |reflexivity|reflexivity|exact Hvalid|reflexivity].
  split; reflexivity.
Defined.

Lemma window_query_uses_window_finder_only_witness :
  awaited (Direct (Is Desk.windowNeedle)) = Resolved (Is Desk.windowNeedle)
  /\ isWindowQuery Desk.windowNeedle = true
  /\ find (Bench.finding (Resolved tt) Bench.quiet)
       (Direct (Is Desk.windowNeedle)) (Bench.within Bench.negative)
       (Bench.start true ∅)
     = find (Bench.finding (Resolved tt) Bench.quiet)
         (Direct (Is Desk.windowNeedle)) None (Bench.start true ∅)
  /\ (find (Bench.finding (Resolved tt) Bench.quiet)
        (Direct (Is Desk.windowNeedle)) (Bench.within Bench.negative)
        (Bench.start true ∅)).1.1
     = Resolved (WindowResult (mkWindow 123%float)).
Proof.
  split; [reflexivity|]. split; [reflexivity|].
  destruct (window_query_uses_window_finder_only
              (Bench.finding (Resolved tt) Bench.quiet) Desk.windowNeedle
              (Direct (Is Desk.windowNeedle)) (Bench.within Bench.negative)
              (Bench.start true ∅) eq_refl eq_refl) as (Hfind & _).
  split; [exact Hfind|]. rewrite Hfind. reflexivity.
Defined.

Lemma findAll_calls_in_order_witness :
  awaited (Direct (Is Bench.needle)) = Resolved (Is Bench.needle)
  /\ isWindowQuery Bench.needle = false
  /\ (findAll (Bench.finding (Rejected (Reason "overlay failed")) Bench.quiet)
        (Direct (Is Bench.needle)) (Bench.within Bench.limited)
        (Bench.start true Desk.hooked)).1.1
     = Resolved
         [RegionResult (mkRegion 150 300 150 200)%float;
          RegionResult (mkRegion 110 220 30 40)%float]
  /\ exists screen search img request found started outs,
       calls
         (findAll
            (Bench.finding (Rejected (Reason "overlay failed")) Bench.quiet)
            (Direct (Is Bench.needle)) (Bench.within Bench.limited)
            (Bench.start true Desk.hooked)).2
       = ScreenSize (Resolved screen)
         :: GrabScreenRegion search (Resolved img)
         :: FindMatches request (Resolved found)
         :: flat_map
              (fun hook =>
                 map (fun m => HookCall hook (MatchTarget m) (Resolved tt))
                   found)
              [7; 8]%positive
         ++ started
       /\ length outs = length found
       /\ started
          = map (fun m => Detached (resultRegionOf search m)) found
            ++ zip_with
                 (fun m out =>
                    HighlightScreenRegion (resultRegionOf search m)
                      500%float 0.25%float out)
                 found outs.
Proof.
  split; [reflexivity|]. split; [reflexivity|]. split; [reflexivity|].
  edestruct (findAll_calls_in_order
               (Bench.finding (Rejected (Reason "overlay failed"))
                  Bench.quiet)
               Bench.needle (Direct (Is Bench.needle))
               (Bench.within Bench.limited) (Bench.start true Desk.hooked))
    as (screen & search & img & request & found & started & _ & _ & _
        & Hcalls & Hstarted).
  - reflexivity.
  - reflexivity.
  - vm_compute. reflexivity.
  - simpl in Hstarted. destruct Hstarted as (outs & Hlen & Hstarted).
    exists screen, search, img, request, found, started, outs.
    split; [exact Hcalls|]. split; [exact Hlen|exact Hstarted].
Defined.

Lemma findAll_without_matches_witness :
  awaited (Direct (Is Bench.needle)) = Resolved (Is Bench.needle)
  /\ isWindowQuery Bench.needle = false
  /\ ~ invalidSearchRegion Desk.inside Bench.screen
  /\ exists evs,
       findAll Desk.findingNothing (Direct (Is Bench.needle))
         (Bench.within Desk.inside) (Bench.start true Desk.hooked)
       = (Resolved [], mkState (this (Bench.start true Desk.hooked)) 3, evs)
       /\ hookCalls evs = [].
Proof.
  assert (~ invalidSearchRegion Desk.inside Bench.screen) as Hvalid.
  { intros H. repeat destruct H as [H|H]; vm_compute in H; discriminate H. }
  split; [reflexivity|]. split; [reflexivity|]. split; [exact Hvalid|].
  edestruct (findAll_without_matches Desk.findingNothing Bench.needle
               (Direct (Is Bench.needle)) (Bench.within Desk.inside)
               (Bench.start true Desk.hooked)) as (evs & Hrun & Hcalls);
    [reflexivity|reflexivity|reflexivity|reflexivity|reflexivity
    |reflexivity|exact Hvalid|reflexivity|].
  exists evs. split; [exact Hrun|].
  assert ((findAll Desk.findingNothing (Direct (Is Bench.needle))
             (Bench.within Desk.inside) (Bench.start true Desk.hooked)).2
          = evs) as <- by (by rewrite Hrun).
  reflexivity.
Defined.

Lemma registrations_commute_witness :
  ref Bench.needle <> ref Bench.twin
  /\ (bind (register Bench.needle [7; 8]%positive)
        (fun _ => register Bench.twin [9%positive])
        (Bench.start false ∅)).1
     = (bind (register Bench.twin [9%positive])
          (fun _ => register Bench.needle [7; 8]%positive)
          (Bench.start false ∅)).1.
Proof.
  assert (ref Bench.needle <> ref Bench.twin) as Href by discriminate.
  split; [exact Href|].
  exact (registrations_commute Bench.needle Bench.twin [7; 8]%positive
           [9%positive] (Bench.start false ∅) Href).
Defined.

Lemma highlight_rejection_reaches_caller_witness :
  awaited (Direct (Is Bench.needle)) = Resolved (Is Bench.needle)
  /\ (find (Bench.finding (Rejected (Reason "overlay failed")) Bench.quiet)
        (Direct (Is Bench.needle)) (Bench.within Bench.limited)
        (Bench.start true Desk.hooked)).1.1
     = Rejected (Reason "overlay failed")
  /\ hookFailures
       (find (Bench.finding (Rejected (Reason "overlay failed")) Bench.quiet)
          (Direct (Is Bench.needle)) (Bench.within Bench.limited)
          (Bench.start true Desk.hooked)).2
     = [].
Proof.
  split; [reflexivity|].
  edestruct (highlight_rejection_reaches_caller
               (Bench.finding (Rejected (Reason "overlay failed")) Bench.quiet)
               Bench.needle (Direct (Is Bench.needle))
               (Bench.within Bench.limited) (Bench.start true Desk.hooked))
    as (Hout & Hnone & _).
  - reflexivity.
  - vm_compute. reflexivity.
  - vm_compute. in_events.
  - split; [exact Hout|exact Hnone].
Defined.

Lemma wrong_input_is_turned_down_witness :
  awaited (Direct (IsNot (A:=FindInput) "42")) = Resolved (IsNot "42")
  /\ find (Bench.finding (Resolved tt) Bench.quiet) (Direct (IsNot "42"))
       None (Bench.start true Desk.hooked)
     = (Rejected
          (ErrorObject
             "find requires an Image, a text query or a window query, but received 42"),
        Bench.start true Desk.hooked, [])
  /\ findAll (Bench.finding (Resolved tt) Bench.quiet)
       (Direct (Throws (ErrorObject "TypeError"))) None
       (Bench.start true Desk.hooked)
     = (Rejected (ErrorObject "TypeError"), Bench.start true Desk.hooked, [])
  /\ highlight (Bench.finding (Resolved tt) Bench.quiet)
       (Direct (Throws (ErrorObject "TypeError")))
       (Bench.start true Desk.hooked)
     = (Rejected (ErrorObject "TypeError"), Bench.start true Desk.hooked, []).
Proof.
  split; [reflexivity|].
  destruct (wrong_input_is_turned_down
              (Bench.finding (Resolved tt) Bench.quiet) "42"
              (ErrorObject "TypeError") (Bench.start true Desk.hooked))
    as (Hfind & Hregion & _).
  split; [|split].
  - destruct (Hfind (Direct (IsNot "42")) None) as [Hnot _].
    exact (proj1 (Hnot eq_refl)).
  - destruct (Hfind (Direct (Throws (ErrorObject "TypeError"))) None)
      as [_ Hthrows].
    exact (proj2 (Hthrows (or_introl eq_refl))).
  - destruct (Hregion (Direct (Throws (ErrorObject "TypeError"))) "asdf"
                None None None None) as [_ Hthrows].
    exact (proj1 (Hthrows (or_introl eq_refl))).
Defined.

Lemma nothing_follows_a_failure_witness :
  succeeded
    (findAll Desk.failingSearch (Direct (Is Bench.needle))
       (Bench.within Desk.inside) (Bench.start true Desk.hooked)).1.1
  = false
  /\ failFast
       (findAll Desk.failingSearch (Direct (Is Bench.needle))
          (Bench.within Desk.inside) (Bench.start true Desk.hooked)).2
     = true
  /\ succeeded
       (findAll
          (Bench.finding (Rejected (Reason "overlay failed")) Bench.quiet)
          (Direct (Is Bench.needle)) (Bench.within Bench.limited)
          (Bench.start true Desk.hooked)).1.1
     = true
  /\ (forall ev,
        ev ∈ (findAll
                (Bench.finding (Rejected (Reason "overlay failed"))
                   Bench.quiet)
                (Direct (Is Bench.needle)) (Bench.within Bench.limited)
                (Bench.start true Desk.hooked)).2 ->
        failed ev = true -> isHighlightCall ev = true).
Proof.
  split; [reflexivity|]. split; [|split; [reflexivity|]].
  - destruct (nothing_follows_a_failure Desk.failingSearch
                (Direct (Is Bench.needle)) (Bench.within Desk.inside)
                (Direct (Is Desk.inside)) "asdf" (Direct (Is Desk.inside))
                None None None None (Bench.start true Desk.hooked))
      as (_ & _ & _ & _ & Hrejected & _).
    exact (proj1 (Hrejected eq_refl)).
  - destruct (nothing_follows_a_failure
                (Bench.finding (Rejected (Reason "overlay failed"))
                   Bench.quiet)
                (Direct (Is Bench.needle)) (Bench.within Bench.limited)
                (Direct (Is Desk.inside)) "asdf" (Direct (Is Desk.inside))
                None None None None (Bench.start true Desk.hooked))
      as (_ & _ & _ & _ & _ & Hresolved).
    exact (Hresolved eq_refl).
Defined.

